(** * ml_metadata/metadata_store/metadata_store.cc

    A shallow embedding of the metadata store facade: the type consistency
    checker, the type upsert engine with its base-type link, the entity
    upsert helpers, the composite execution writer, the type and entity
    read endpoints and the lineage traversal driver.

    The facade talks to storage through the abstract MetadataAccessObject
    interface; here it is a type class over the store state.  Calls that
    read are functions of the state, calls that write return the new state.
    A C++ function returning absl::Status and filling out-parameters is a
    computation in the monad [M], whose result is either the out value or
    the non-OK status. *)

From Stdlib Require Import ZArith Bool Lia.
From stdpp Require Import base option list gmap fin_maps strings pretty.

Local Open Scope string_scope.
Local Open Scope Z_scope.

(** ** absl::Status *)

Inductive StatusCode : Type :=
  | kOk | kCancelled | kUnknown | kInvalidArgument | kDeadlineExceeded
  | kNotFound | kAlreadyExists | kPermissionDenied | kResourceExhausted
  | kFailedPrecondition | kAborted | kOutOfRange | kUnimplemented
  | kInternal | kUnavailable | kDataLoss | kUnauthenticated.

#[global] Instance StatusCode_eq_dec : EqDecision StatusCode.
Proof. solve_decision. Defined.

Record Status : Type := mkStatus { code : StatusCode; message : string }.

#[global] Instance Status_eq_dec : EqDecision Status.
Proof. solve_decision. Defined.

Definition OkStatus : Status := mkStatus kOk "".
Definition InvalidArgumentError (m : string) : Status := mkStatus kInvalidArgument m.
Definition NotFoundError (m : string) : Status := mkStatus kNotFound m.
Definition AlreadyExistsError (m : string) : Status := mkStatus kAlreadyExists m.
Definition FailedPreconditionError (m : string) : Status := mkStatus kFailedPrecondition m.
Definition AbortedError (m : string) : Status := mkStatus kAborted m.
Definition UnimplementedError (m : string) : Status := mkStatus kUnimplemented m.
Definition InternalError (m : string) : Status := mkStatus kInternal m.

Definition ok (st : Status) : bool := bool_decide (code st = kOk).
Definition IsNotFound (st : Status) : bool := bool_decide (code st = kNotFound).
Definition IsAlreadyExists (st : Status) : bool := bool_decide (code st = kAlreadyExists).

(** The result of a function that returns absl::Status: the value of its
    out-parameters when the status is OK, the status otherwise.  No caller
    in the file reads an out-parameter after a non-OK status, except where
    the model says so and uses the raw access object call. *)
Inductive outcome (A : Type) : Type :=
  | Done (a : A)
  | Failed (e : Status).
Arguments Done {A} a.
Arguments Failed {A} e.

Definition outcome_code {A} (r : outcome A) : StatusCode :=
  match r with Done _ => kOk | Failed e => code e end.

Definition outcome_message {A} (r : outcome A) : string :=
  match r with Done _ => "" | Failed e => message e end.

(** ** Messages of metadata_store.proto

    The proto declarations are not part of the translated file; the records
    carry the fields the facade reads or writes.  An optional scalar field
    is an [option]; [has_x] and the accessor [x] (the default when unset)
    follow the generated C++ API. *)

(** Modelled from the spec: the closed enum of property value kinds
    (integer, double, string, structured), with the proto's UNKNOWN default
    that the comment above UpsertType mentions. *)
Inductive PropertyType : Type := UNKNOWN | INT | DOUBLE | STRING | STRUCT.

#[global] Instance PropertyType_eq_dec : EqDecision PropertyType.
Proof. solve_decision. Defined.

(** TypeKind::ARTIFACT_TYPE and its siblings: the template parameter T of
    the type functions (ArtifactType, ExecutionType, ContextType). *)
Inductive TypeKind : Type := ARTIFACT_TYPE | EXECUTION_TYPE | CONTEXT_TYPE.

#[global] Instance TypeKind_eq_dec : EqDecision TypeKind.
Proof. solve_decision. Defined.

(** ArtifactType, ExecutionType and ContextType have the same fields.
    [base_type] holds the number of the SystemDefinedBaseType enum value. *)
Module TypeProto.
Record t : Type := mk {
  opt_id : option Z;
  name : string;
  opt_version : option string;
  properties : gmap string PropertyType;
  opt_base_type : option Z
}.
Definition has_id (x : t) : bool := bool_decide (is_Some (opt_id x)).
Definition id (x : t) : Z := default 0 (opt_id x).
Definition version (x : t) : string := default "" (opt_version x).
Definition has_base_type (x : t) : bool := bool_decide (is_Some (opt_base_type x)).
Definition properties_size (x : t) : Z := Z.of_nat (size (properties x)).
Definition set_id (i : Z) (x : t) : t :=
  mk (Some i) (name x) (opt_version x) (properties x) (opt_base_type x).
Definition set_properties (p : gmap string PropertyType) (x : t) : t :=
  mk (opt_id x) (name x) (opt_version x) p (opt_base_type x).
Definition set_base_type (b : Z) (x : t) : t :=
  mk (opt_id x) (name x) (opt_version x) (properties x) (Some b).
Definition empty : t := mk None "" None ∅ None.
End TypeProto.

Record SystemTypeExtension : Type := mkExtension { ext_type_name : string }.

(** ** Type Consistency Checker *)

Section Checker.
(** T::DebugString() of a type message, used in the messages only. *)
Variable DebugString : TypeProto.t -> string.

Definition name_conflict_error (stored_type other_type : TypeProto.t) : Status :=
  FailedPreconditionError
    ("Conflicting type name found in stored and given types: stored type: "
     +:+ DebugString stored_type +:+ "; given type: " +:+ DebugString other_type).

Definition value_conflict_error (stored_type other_type : TypeProto.t) : Status :=
  FailedPreconditionError
    ("Conflicting property value type found in stored and given types: stored_type: "
     +:+ DebugString stored_type +:+ "; other_type: " +:+ DebugString other_type).

Definition omit_fields_error (stored_type other_type : TypeProto.t) : Status :=
  FailedPreconditionError
    ("can_omit_fields is false while stored type has more properties: stored type: "
     +:+ DebugString stored_type +:+ "; given type: " +:+ DebugString other_type).

Definition add_fields_error (stored_type other_type : TypeProto.t) : Status :=
  FailedPreconditionError
    ("can_add_fields is false while the given type has more properties: stored_type: "
     +:+ DebugString stored_type +:+ "; other_type: " +:+ DebugString other_type).

(** The first loop of CheckFieldsConsistent, over the entries of
    stored_type.properties() in the order the map yields them;
    [omitted_fields_count] is the loop's counter.  The counter is an int
    bounded by properties_size(), itself an int, so it does not wrap. *)
Fixpoint check_stored_properties (stored_type other_type : TypeProto.t)
    (can_omit_fields : bool) (entries : list (string * PropertyType))
    (omitted_fields_count : Z) : outcome Z :=
  match entries with
  | [] => Done omitted_fields_count
  | (key, value) :: rest =>
      let step :=
        match TypeProto.properties other_type !! key with
        | None => Done (omitted_fields_count + 1)
        | Some other_value =>
            if bool_decide (other_value ≠ value)
            then Failed (value_conflict_error stored_type other_type)
            else Done omitted_fields_count
        end in
      match step with
      | Failed e => Failed e
      | Done count =>
          if (0 <? count) && negb can_omit_fields
          then Failed (omit_fields_error stored_type other_type)
          else check_stored_properties stored_type other_type can_omit_fields rest count
      end
  end.

(** The second loop: every property of other_type that stored_type lacks
    is written into output_type. *)
Definition add_new_properties (stored_type : TypeProto.t)
    (entries : list (string * PropertyType))
    (output_properties : gmap string PropertyType) : gmap string PropertyType :=
  foldl (fun out (pair : string * PropertyType) =>
           match TypeProto.properties stored_type !! pair.1 with
           | None => <[pair.1 := pair.2]> out
           | Some _ => out
           end)
        output_properties entries.

Definition CheckFieldsConsistent (stored_type other_type : TypeProto.t)
    (can_add_fields can_omit_fields : bool) : outcome TypeProto.t :=
  if bool_decide (TypeProto.name stored_type ≠ TypeProto.name other_type)
  then Failed (name_conflict_error stored_type other_type)
  else
    match check_stored_properties stored_type other_type can_omit_fields
            (map_to_list (TypeProto.properties stored_type)) 0 with
    | Failed e => Failed e
    | Done omitted_fields_count =>
        if TypeProto.properties_size stored_type - omitted_fields_count
           =? TypeProto.properties_size other_type
        then Done stored_type
        else if negb can_add_fields
        then Failed (add_fields_error stored_type other_type)
        else Done (TypeProto.set_properties
                     (add_new_properties stored_type
                        (map_to_list (TypeProto.properties other_type))
                        (TypeProto.properties stored_type))
                     stored_type)
    end.
End Checker.

(** ** Entities, links, requests and responses *)

Module Artifact.
Record t : Type := mk {
  opt_id : option Z;
  opt_type_id : option Z;
  opt_name : option string;
  opt_uri : option string
}.
Definition has_id (x : t) : bool := bool_decide (is_Some (opt_id x)).
Definition id (x : t) : Z := default 0 (opt_id x).
End Artifact.

Module Execution.
Record t : Type := mk {
  opt_id : option Z;
  opt_type_id : option Z;
  opt_name : option string
}.
Definition has_id (x : t) : bool := bool_decide (is_Some (opt_id x)).
Definition id (x : t) : Z := default 0 (opt_id x).
End Execution.

Module Context.
Record t : Type := mk {
  opt_id : option Z;
  opt_type_id : option Z;
  opt_name : option string
}.
Definition has_id (x : t) : bool := bool_decide (is_Some (opt_id x)).
Definition id (x : t) : Z := default 0 (opt_id x).
Definition type_id (x : t) : Z := default 0 (opt_type_id x).
Definition name (x : t) : string := default "" (opt_name x).
End Context.

(** Modelled from the spec: the role an event carries (input, output,
    declared input, declared output), with the proto's default. *)
Inductive EventType : Type :=
  | EVENT_UNKNOWN | DECLARED_OUTPUT | DECLARED_INPUT | INPUT | OUTPUT.

#[global] Instance EventType_eq_dec : EqDecision EventType.
Proof. solve_decision. Defined.

Module Event.
Record t : Type := mk {
  opt_artifact_id : option Z;
  opt_execution_id : option Z;
  type : EventType
}.
Definition has_artifact_id (x : t) : bool := bool_decide (is_Some (opt_artifact_id x)).
Definition artifact_id (x : t) : Z := default 0 (opt_artifact_id x).
Definition has_execution_id (x : t) : bool := bool_decide (is_Some (opt_execution_id x)).
Definition execution_id (x : t) : Z := default 0 (opt_execution_id x).
Definition set_artifact_id (i : Z) (x : t) : t := mk (Some i) (opt_execution_id x) (type x).
Definition set_execution_id (i : Z) (x : t) : t := mk (opt_artifact_id x) (Some i) (type x).
End Event.

Module Association.
Record t : Type := mk { opt_context_id : option Z; opt_execution_id : option Z }.
Definition context_id (x : t) : Z := default 0 (opt_context_id x).
Definition execution_id (x : t) : Z := default 0 (opt_execution_id x).
End Association.

Module Attribution.
Record t : Type := mk { opt_context_id : option Z; opt_artifact_id : option Z }.
Definition context_id (x : t) : Z := default 0 (opt_context_id x).
Definition artifact_id (x : t) : Z := default 0 (opt_artifact_id x).
End Attribution.

Module ParentContext.
Record t : Type := mk { opt_child_id : option Z; opt_parent_id : option Z }.
End ParentContext.

#[global] Instance Artifact_eq_dec : EqDecision Artifact.t.
Proof. solve_decision. Defined.
#[global] Instance Execution_eq_dec : EqDecision Execution.t.
Proof. solve_decision. Defined.
#[global] Instance Context_eq_dec : EqDecision Context.t.
Proof. solve_decision. Defined.
#[global] Instance Event_eq_dec : EqDecision Event.t.
Proof. solve_decision. Defined.
#[global] Instance Association_eq_dec : EqDecision Association.t.
Proof. solve_decision. Defined.
#[global] Instance Attribution_eq_dec : EqDecision Attribution.t.
Proof. solve_decision. Defined.
#[global] Instance ParentContext_eq_dec : EqDecision ParentContext.t.
Proof. solve_decision. Defined.

(** ListOperationOptions is opaque to the facade, which only ferries it. *)
Record ListOperationOptions : Type := mkListOptions {
  max_result_size : Z;
  filter_query : string
}.

Record LineageGraph : Type := mkLineageGraph {
  lg_artifacts : list Artifact.t;
  lg_executions : list Execution.t;
  lg_events : list Event.t
}.

(** Put{Artifact,Execution,Context}TypeRequest: the type and three flags. *)
Record PutTypeRequest : Type := mkPutTypeRequest {
  pt_type : TypeProto.t;
  pt_can_add_fields : bool;
  pt_can_omit_fields : bool;
  pt_all_fields_match : bool
}.

Record PutTypesRequest : Type := mkPutTypesRequest {
  pts_artifact_types : list TypeProto.t;
  pts_execution_types : list TypeProto.t;
  pts_context_types : list TypeProto.t;
  pts_can_add_fields : bool;
  pts_can_omit_fields : bool;
  pts_all_fields_match : bool
}.

Record PutTypesResponse : Type := mkPutTypesResponse {
  artifact_type_ids : list Z;
  execution_type_ids : list Z;
  context_type_ids : list Z
}.

(** Get{Artifact,Execution,Context}TypeRequest. *)
Record GetTypeRequest : Type := mkGetTypeRequest {
  gt_type_name : string;
  gt_opt_type_version : option string
}.

Module ArtifactAndEvent.
Record t : Type := mk {
  opt_artifact : option Artifact.t;
  opt_event : option Event.t
}.
Definition has_artifact (x : t) : bool := bool_decide (is_Some (opt_artifact x)).
Definition has_event (x : t) : bool := bool_decide (is_Some (opt_event x)).
End ArtifactAndEvent.

Record PutExecutionRequest : Type := mkPutExecutionRequest {
  pe_opt_execution : option Execution.t;
  pe_artifact_event_pairs : list ArtifactAndEvent.t;
  pe_contexts : list Context.t;
  pe_reuse_context_if_already_exist : bool
}.

Record PutExecutionResponse : Type := mkPutExecutionResponse {
  execution_id : Z;
  artifact_ids : list Z;
  context_ids : list Z
}.

Record PutAttributionsAndAssociationsRequest : Type := mkPutAARequest {
  paa_attributions : list Attribution.t;
  paa_associations : list Association.t
}.

Record BoundaryConstraint : Type := mkBoundaryConstraint {
  opt_max_num_hops : option Z;
  boundary_artifacts : string;
  boundary_executions : string
}.

Record GetLineageGraphRequest : Type := mkGetLineageGraphRequest {
  opt_artifacts_options : option ListOperationOptions;
  stop_conditions : BoundaryConstraint;
  max_node_size : Z
}.

(** ** The collaborators of the facade *)

(** MetadataAccessObject, the abstract class of metadata_access_object.h,
    restricted to the methods the functions below call.  The template
    methods on types take the TypeKind of their type argument.  A method
    that reads returns its status and the out-parameter it filled (starting
    from a default-constructed value); a method that writes returns the
    store as well. *)
Class MetadataAccessObject (St : Type) : Type := {
  CreateType : TypeKind -> TypeProto.t -> St -> Status * Z * St;
  UpdateType : TypeKind -> TypeProto.t -> St -> Status * St;
  FindTypeByNameAndVersion :
    TypeKind -> string -> option string -> St -> Status * TypeProto.t;
  FindTypeById : TypeKind -> Z -> St -> Status * TypeProto.t;
  FindTypes : TypeKind -> St -> Status * list TypeProto.t;
  FindParentTypesByTypeId :
    TypeKind -> list Z -> St -> Status * gmap Z TypeProto.t;
  CreateParentTypeInheritanceLink :
    TypeKind -> TypeProto.t -> TypeProto.t -> St -> Status * St;
  CreateArtifact : Artifact.t -> St -> Status * Z * St;
  UpdateArtifact : Artifact.t -> St -> Status * St;
  CreateExecution : Execution.t -> St -> Status * Z * St;
  UpdateExecution : Execution.t -> St -> Status * St;
  CreateContext : Context.t -> St -> Status * Z * St;
  UpdateContext : Context.t -> St -> Status * St;
  FindArtifactsById : list Z -> St -> Status * list Artifact.t;
  FindExecutionsById : list Z -> St -> Status * list Execution.t;
  FindContextsById : list Z -> St -> Status * list Context.t;
  FindContextByTypeIdAndContextName : Z -> string -> St -> Status * Context.t;
  CreateEvent : Event.t -> St -> Status * Z * St;
  CreateAssociation : Association.t -> St -> Status * Z * St;
  CreateAttribution : Attribution.t -> St -> Status * Z * St;
  CreateParentContext : ParentContext.t -> St -> Status * St;
  ListArtifacts : ListOperationOptions -> St -> Status * (list Artifact.t * string);
  QueryLineageGraph :
    list Artifact.t -> Z -> option Z -> option string -> option string ->
    St -> Status * LineageGraph
}.

(** simple_types_util.h and simple_types_constants.h: the mapping between
    base_type enum values and system type names, and the names of the
    seeded simple types. *)
Class SimpleTypesUtil : Type := {
  GetSystemTypeExtension : TypeKind -> TypeProto.t -> Status * SystemTypeExtension;
  IsUnsetBaseType : SystemTypeExtension -> bool;
  GetSystemTypeEnum : TypeKind -> SystemTypeExtension -> Status * Z;
  kSimpleTypeNames : list string
}.

(** DebugString() of the messages that end up in error messages. *)
Class DebugStrings : Type := {
  DebugString_Type : TypeProto.t -> string;
  DebugString_ArtifactAndEvent : ArtifactAndEvent.t -> string;
  DebugString_PutExecutionRequest : PutExecutionRequest -> string;
  DebugString_Context : Context.t -> string
}.

(** ** The facade *)

Section Facade.
Context {St : Type} `{MAO : MetadataAccessObject St}
        `{STU : SimpleTypesUtil} `{DBG : DebugStrings}.

(** A computation on the store that returns a value or a non-OK status. *)
Definition M (A : Type) : Type := St -> outcome A * St.

Definition ret {A} (a : A) : M A := fun s => (Done a, s).
Definition fail {A} (e : Status) : M A := fun s => (Failed e, s).
Definition bind {A B} (m : M A) (k : A -> M B) : M B :=
  fun s =>
    match m s with
    | (Done a, s') => k a s'
    | (Failed e, s') => (Failed e, s')
    end.

(** MLMD_RETURN_IF_ERROR around a call that reads, a call that writes and
    fills an out-parameter, a call that only writes, and a helper that
    does not touch the store. *)
Definition query {A} (q : St -> Status * A) : M A :=
  fun s => let '(st, a) := q s in
           if ok st then (Done a, s) else (Failed st, s).
Definition update {A} (w : St -> Status * A * St) : M A :=
  fun s => let '(st, a, s') := w s in
           if ok st then (Done a, s') else (Failed st, s').
Definition update_ (w : St -> Status * St) : M unit :=
  fun s => let '(st, s') := w s in
           if ok st then (Done tt, s') else (Failed st, s').
Definition check {A} (r : Status * A) : M A :=
  fun s => let '(st, a) := r in
           if ok st then (Done a, s) else (Failed st, s).

Notation "x <- m ;; k" := (bind m (fun x => k))
  (at level 100, m at next level, right associativity).
Notation "m ;;; k" := (bind m (fun _ => k))
  (at level 100, right associativity).

(** Modelled from the spec: TransactionExecutor::Execute runs the closure
    inside one transaction; any returned error aborts the transaction (the
    store is as before the call), success commits.  The transaction
    options and the executor's own failures are left out. *)
Definition Execute {A} (txn : M A) : M A :=
  fun s =>
    match txn s with
    | (Done a, s') => (Done a, s')
    | (Failed e, _) => (Failed e, s)
    end.

(** *** Type upsert engine *)

Definition UpsertTypeInheritanceLink (k : TypeKind) (type : TypeProto.t)
    (type_id : Z) : M unit :=
  if negb (TypeProto.has_base_type type) then ret tt
  else
    extension <- check (GetSystemTypeExtension k type) ;;
    if IsUnsetBaseType extension
    then fail (UnimplementedError "base_type deletion is not supported yet")
    else
      output_parent_types <- query (FindParentTypesByTypeId k [type_id]) ;;
      let no_parent_type :=
        negb (bool_decide (is_Some (output_parent_types !! type_id))) in
      if no_parent_type then
        let type_with_id := TypeProto.set_id type_id type in
        base_type <- query (FindTypeByNameAndVersion k (ext_type_name extension) None) ;;
        update_ (CreateParentTypeInheritanceLink k type_with_id base_type)
      else if bool_decide
                (TypeProto.name (default TypeProto.empty (output_parent_types !! type_id))
                 ≠ ext_type_name extension)
      then fail (UnimplementedError "base_type update is not supported yet")
      else ret tt.

Definition UpsertType (k : TypeKind) (type : TypeProto.t)
    (can_add_fields can_omit_fields : bool) : M Z :=
  fun s =>
    let '(status, stored_type) :=
      FindTypeByNameAndVersion k (TypeProto.name type)
        (Some (TypeProto.version type)) s in
    if negb (ok status) && negb (IsNotFound status) then (Failed status, s)
    else if IsNotFound status then
      (type_id <- update (CreateType k type) ;;
       UpsertTypeInheritanceLink k type type_id ;;;
       ret type_id) s
    else
      let type_id := TypeProto.id stored_type in
      match CheckFieldsConsistent DebugString_Type stored_type type
              can_add_fields can_omit_fields with
      | Failed check_status =>
          (Failed (AlreadyExistsError
                     ("Type already exists with different properties: "
                      +:+ message check_status)), s)
      | Done output_type =>
          (update_ (UpdateType k output_type) ;;;
           UpsertTypeInheritanceLink k type type_id ;;;
           ret type_id) s
      end.

(** One of the three loops of UpsertTypes; [ids] is the repeated id field
    of the response the loop appends to. *)
Fixpoint upsert_type_list (k : TypeKind) (types : list TypeProto.t)
    (can_add_fields can_omit_fields : bool) (ids : list Z) : M (list Z) :=
  match types with
  | [] => ret ids
  | type :: rest =>
      type_id <- UpsertType k type can_add_fields can_omit_fields ;;
      upsert_type_list k rest can_add_fields can_omit_fields (ids ++ [type_id])
  end.

Definition UpsertTypes (artifact_types execution_types context_types : list TypeProto.t)
    (can_add_fields can_omit_fields : bool) (response : PutTypesResponse)
    : M PutTypesResponse :=
  a_ids <- upsert_type_list ARTIFACT_TYPE artifact_types can_add_fields
             can_omit_fields (artifact_type_ids response) ;;
  e_ids <- upsert_type_list EXECUTION_TYPE execution_types can_add_fields
             can_omit_fields (execution_type_ids response) ;;
  c_ids <- upsert_type_list CONTEXT_TYPE context_types can_add_fields
             can_omit_fields (context_type_ids response) ;;
  ret (mkPutTypesResponse a_ids e_ids c_ids).

Definition PutTypes (request : PutTypesRequest) : M PutTypesResponse :=
  if negb (pts_all_fields_match request)
  then fail (UnimplementedError "Must match all fields.")
  else
    Execute
      (UpsertTypes (pts_artifact_types request) (pts_execution_types request)
         (pts_context_types request) (pts_can_add_fields request)
         (pts_can_omit_fields request) (mkPutTypesResponse [] [] [])).

(** The response of Put{Artifact,Execution,Context}Type is its type_id. *)
Definition PutArtifactType (request : PutTypeRequest) : M Z :=
  if negb (pt_all_fields_match request)
  then fail (UnimplementedError "Must match all fields.")
  else
    Execute
      (type_id <- UpsertType ARTIFACT_TYPE (pt_type request)
                    (pt_can_add_fields request) (pt_can_omit_fields request) ;;
       ret type_id).

Definition PutExecutionType (request : PutTypeRequest) : M Z :=
  if negb (pt_all_fields_match request)
  then fail (UnimplementedError "Must match all fields.")
  else
    Execute
      (type_id <- UpsertType EXECUTION_TYPE (pt_type request)
                    (pt_can_add_fields request) (pt_can_omit_fields request) ;;
       ret type_id).

Definition PutContextType (request : PutTypeRequest) : M Z :=
  if negb (pt_all_fields_match request)
  then fail (UnimplementedError "Must match all fields.")
  else
    Execute
      (type_id <- UpsertType CONTEXT_TYPE (pt_type request)
                    (pt_can_add_fields request) (pt_can_omit_fields request) ;;
       ret type_id).

(** *** Entity upsert helpers *)

Definition UpsertArtifact (artifact : Artifact.t) : M Z :=
  if Artifact.has_id artifact then
    update_ (UpdateArtifact artifact) ;;; ret (Artifact.id artifact)
  else update (CreateArtifact artifact).

Definition UpsertExecution (execution : Execution.t) : M Z :=
  if Execution.has_id execution then
    update_ (UpdateExecution execution) ;;; ret (Execution.id execution)
  else update (CreateExecution execution).

Definition UpsertContext (context : Context.t) : M Z :=
  if Context.has_id context then
    update_ (UpdateContext context) ;;; ret (Context.id context)
  else update (CreateContext context).

Definition InsertAssociationIfNotExist (context_id execution_id : Z) : M unit :=
  fun s =>
    let association := Association.mk (Some context_id) (Some execution_id) in
    let '(status, dummy_assocation_id, s') := CreateAssociation association s in
    if negb (ok status) && negb (IsAlreadyExists status) then (Failed status, s')
    else (Done tt, s').

Definition InsertAttributionIfNotExist (context_id artifact_id : Z) : M unit :=
  fun s =>
    let attribution := Attribution.mk (Some context_id) (Some artifact_id) in
    let '(status, dummy_attribution_id, s') := CreateAttribution attribution s in
    if negb (ok status) && negb (IsAlreadyExists status) then (Failed status, s')
    else (Done tt, s').

(** [artifact_id] is the value the out-parameter holds on entry; the
    result is the value it holds on return. *)
Definition UpsertArtifactAndEvent (artifact_and_event : ArtifactAndEvent.t)
    (artifact_id : Z) : M Z :=
  let has_artifact := ArtifactAndEvent.has_artifact artifact_and_event in
  let has_event := ArtifactAndEvent.has_event artifact_and_event in
  if negb has_artifact && negb has_event then ret artifact_id
  else
    let maybe_event_artifact_id : option Z :=
      ArtifactAndEvent.opt_event artifact_and_event ≫= Event.opt_artifact_id in
    if negb has_artifact && negb (bool_decide (is_Some maybe_event_artifact_id))
    then fail (InvalidArgumentError
                 ("If no artifact is present, given event must have an artifact_id: "
                  +:+ DebugString_ArtifactAndEvent artifact_and_event))
    else
      let maybe_artifact_id : option Z :=
        ArtifactAndEvent.opt_artifact artifact_and_event ≫= Artifact.opt_id in
      if has_artifact && bool_decide (is_Some maybe_event_artifact_id)
         && bool_decide (maybe_artifact_id ≠ maybe_event_artifact_id)
      then fail (InvalidArgumentError
                   ("Given event.artifact_id is not aligned with the artifact: "
                    +:+ DebugString_ArtifactAndEvent artifact_and_event))
      else
        artifact_id <- match ArtifactAndEvent.opt_artifact artifact_and_event with
                       | Some artifact => UpsertArtifact artifact
                       | None => ret artifact_id
                       end ;;
        match ArtifactAndEvent.opt_event artifact_and_event with
        | None => ret artifact_id
        | Some event =>
            if has_artifact then
              update (CreateEvent (Event.set_artifact_id artifact_id event)) ;;;
              ret artifact_id
            else
              update (CreateEvent event) ;;;
              ret (Event.artifact_id event)
        end.

(** *** Type reads *)

Definition GetRequestTypeVersion (type_request : GetTypeRequest) : option string :=
  match gt_opt_type_version type_request with
  | Some v => if bool_decide (v ≠ "") then Some v else None
  | None => None
  end.

(** The loop of SetBaseType over the types of a response. *)
Fixpoint set_base_types (k : TypeKind) (output_parent_types : gmap Z TypeProto.t)
    (types : list TypeProto.t) : M (list TypeProto.t) :=
  match types with
  | [] => ret []
  | type :: rest =>
      match output_parent_types !! TypeProto.id type with
      | None =>
          rest' <- set_base_types k output_parent_types rest ;;
          ret (type :: rest')
      | Some parent_type =>
          let extension := mkExtension (TypeProto.name parent_type) in
          type_enum <- check (GetSystemTypeEnum k extension) ;;
          rest' <- set_base_types k output_parent_types rest ;;
          ret (TypeProto.set_base_type type_enum type :: rest')
      end
  end.

(** SetBaseType changes the types in place; the model returns them. *)
Definition SetBaseType (k : TypeKind) (types : list TypeProto.t)
    : M (list TypeProto.t) :=
  match types with
  | [] => ret []
  | _ =>
      let type_ids := map TypeProto.id types in
      output_parent_types <- query (FindParentTypesByTypeId k type_ids) ;;
      set_base_types k output_parent_types types
  end.

(** The response of Get{Artifact,Execution,Context}Type is its type. *)
Definition GetArtifactType (request : GetTypeRequest) : M TypeProto.t :=
  Execute
    (type <- query (FindTypeByNameAndVersion ARTIFACT_TYPE (gt_type_name request)
                      (GetRequestTypeVersion request)) ;;
     types <- SetBaseType ARTIFACT_TYPE [type] ;;
     ret (default type (head types))).

Definition GetExecutionType (request : GetTypeRequest) : M TypeProto.t :=
  Execute
    (type <- query (FindTypeByNameAndVersion EXECUTION_TYPE (gt_type_name request)
                      (GetRequestTypeVersion request)) ;;
     types <- SetBaseType EXECUTION_TYPE [type] ;;
     ret (default type (head types))).

Definition GetContextType (request : GetTypeRequest) : M TypeProto.t :=
  Execute
    (query (FindTypeByNameAndVersion CONTEXT_TYPE (gt_type_name request)
              (GetRequestTypeVersion request))).

(** The loop of Get*TypesByID: a type that is found is added to the
    response, NOT_FOUND is passed over, any other status is returned. *)
Fixpoint find_types_by_id (k : TypeKind) (type_ids : list Z)
    (found : list TypeProto.t) : M (list TypeProto.t) :=
  match type_ids with
  | [] => ret found
  | type_id :: rest =>
      fun s =>
        let '(status, type) := FindTypeById k type_id s in
        if ok status then find_types_by_id k rest (found ++ [type]) s
        else if negb (IsNotFound status) then (Failed status, s)
        else find_types_by_id k rest found s
  end.

Definition GetArtifactTypesByID (type_ids : list Z) : M (list TypeProto.t) :=
  Execute
    (types <- find_types_by_id ARTIFACT_TYPE type_ids [] ;;
     SetBaseType ARTIFACT_TYPE types).

Definition GetExecutionTypesByID (type_ids : list Z) : M (list TypeProto.t) :=
  Execute
    (types <- find_types_by_id EXECUTION_TYPE type_ids [] ;;
     SetBaseType EXECUTION_TYPE types).

Definition GetContextTypesByID (type_ids : list Z) : M (list TypeProto.t) :=
  Execute (find_types_by_id CONTEXT_TYPE type_ids []).

(** The predicate handed to absl::c_copy_if in Get*Types. *)
Definition not_simple_type (type : TypeProto.t) : bool :=
  bool_decide (TypeProto.name type ∉ kSimpleTypeNames).

Definition GetArtifactTypes : M (list TypeProto.t) :=
  Execute
    (fun s =>
       let '(status, artifact_types) := FindTypes ARTIFACT_TYPE s in
       if IsNotFound status then (Done [], s)
       else if negb (ok status) then (Failed status, s)
       else SetBaseType ARTIFACT_TYPE (filter not_simple_type artifact_types) s).

Definition GetExecutionTypes : M (list TypeProto.t) :=
  Execute
    (fun s =>
       let '(status, execution_types) := FindTypes EXECUTION_TYPE s in
       if IsNotFound status then (Done [], s)
       else if negb (ok status) then (Failed status, s)
       else SetBaseType EXECUTION_TYPE (filter not_simple_type execution_types) s).

Definition GetContextTypes : M (list TypeProto.t) :=
  Execute
    (fun s =>
       let '(status, context_types) := FindTypes CONTEXT_TYPE s in
       if IsNotFound status then (Done [], s)
       else if negb (ok status) then (Failed status, s)
       else (Done context_types, s)).

(** *** Entity reads by id *)

Definition GetArtifactsByID (artifact_ids : list Z) : M (list Artifact.t) :=
  Execute
    (fun s =>
       let '(status, artifacts) := FindArtifactsById artifact_ids s in
       if negb (ok status) && negb (IsNotFound status) then (Failed status, s)
       else (Done artifacts, s)).

Definition GetExecutionsByID (execution_ids : list Z) : M (list Execution.t) :=
  Execute
    (fun s =>
       let '(status, executions) := FindExecutionsById execution_ids s in
       if negb (ok status) && negb (IsNotFound status) then (Failed status, s)
       else (Done executions, s)).

Definition GetContextsByID (context_ids : list Z) : M (list Context.t) :=
  Execute
    (fun s =>
       let '(status, contexts) := FindContextsById context_ids s in
       if negb (ok status) && negb (IsNotFound status) then (Failed status, s)
       else (Done contexts, s)).

(** *** Link writes *)

Fixpoint put_events (events : list Event.t) : M unit :=
  match events with
  | [] => ret tt
  | event :: rest => update (CreateEvent event) ;;; put_events rest
  end.

Definition PutEvents (events : list Event.t) : M unit :=
  Execute (put_events events).

Fixpoint put_attributions (attributions : list Attribution.t) : M unit :=
  match attributions with
  | [] => ret tt
  | attribution :: rest =>
      InsertAttributionIfNotExist (Attribution.context_id attribution)
        (Attribution.artifact_id attribution) ;;;
      put_attributions rest
  end.

Fixpoint put_associations (associations : list Association.t) : M unit :=
  match associations with
  | [] => ret tt
  | association :: rest =>
      InsertAssociationIfNotExist (Association.context_id association)
        (Association.execution_id association) ;;;
      put_associations rest
  end.

Definition PutAttributionsAndAssociations
    (request : PutAttributionsAndAssociationsRequest) : M unit :=
  Execute
    (put_attributions (paa_attributions request) ;;;
     put_associations (paa_associations request)).

Fixpoint put_parent_contexts (parent_contexts : list ParentContext.t) : M unit :=
  match parent_contexts with
  | [] => ret tt
  | parent_context :: rest =>
      update_ (CreateParentContext parent_context) ;;;
      put_parent_contexts rest
  end.

Definition PutParentContexts (parent_contexts : list ParentContext.t) : M unit :=
  Execute (put_parent_contexts parent_contexts).

(** *** Composite execution writer *)

(** The body of the loop over request.artifact_event_pairs(): the pair is
    a copy whose event, if any, receives the captured execution id; the
    result is the artifact id appended to the response. *)
Definition put_artifact_and_event (request : PutExecutionRequest)
    (execution : Execution.t) (execution_id : Z)
    (artifact_and_event : ArtifactAndEvent.t) : M Z :=
  match ArtifactAndEvent.opt_event artifact_and_event with
  | Some event =>
      if Event.has_execution_id event
         && (negb (Execution.has_id execution)
             || bool_decide (Execution.id execution ≠ Event.execution_id event))
      then fail (InvalidArgumentError
                   ("Request's event.execution_id does not match with the given execution: "
                    +:+ DebugString_PutExecutionRequest request))
      else
        UpsertArtifactAndEvent
          (ArtifactAndEvent.mk (ArtifactAndEvent.opt_artifact artifact_and_event)
             (Some (Event.set_execution_id execution_id event)))
          (-1)
  | None => UpsertArtifactAndEvent artifact_and_event (-1)
  end.

Fixpoint put_artifact_event_pairs (request : PutExecutionRequest)
    (execution : Execution.t) (execution_id : Z)
    (pairs : list ArtifactAndEvent.t) (artifact_ids : list Z) : M (list Z) :=
  match pairs with
  | [] => ret artifact_ids
  | artifact_and_event :: rest =>
      artifact_id <- put_artifact_and_event request execution execution_id
                       artifact_and_event ;;
      put_artifact_event_pairs request execution execution_id rest
        (artifact_ids ++ [artifact_id])
  end.

Fixpoint insert_attributions (context_id : Z) (artifact_ids : list Z) : M unit :=
  match artifact_ids with
  | [] => ret tt
  | artifact_id :: rest =>
      InsertAttributionIfNotExist context_id artifact_id ;;;
      insert_attributions context_id rest
  end.

(** The two steps that settle context_id, which starts at -1. *)
Definition reuse_existing_context (context : Context.t) : M Z :=
  fun s =>
    let '(status, existing_context) :=
      FindContextByTypeIdAndContextName (Context.type_id context)
        (Context.name context) s in
    if negb (IsNotFound status) then
      if ok status then (Done (Context.id existing_context), s)
      else (Failed status, s)
    else (Done (-1), s).

Definition upsert_context_or_abort (request : PutExecutionRequest)
    (context : Context.t) : M Z :=
  fun s =>
    match UpsertContext context s with
    | (Failed status, s') =>
        if pe_reuse_context_if_already_exist request && IsAlreadyExists status
        then (Failed (AbortedError
                        ("Concurrent creation of the same context at the first time. "
                         +:+ "Retry the transaction to reuse the context: "
                         +:+ DebugString_Context context)), s')
        else (Failed status, s')
    | (Done context_id, s') => (Done context_id, s')
    end.

(** The body of the loop over request.contexts(); the result is the
    context id appended to the response. *)
Definition put_context (request : PutExecutionRequest) (execution_id : Z)
    (artifact_ids : list Z) (context : Context.t) : M Z :=
  context_id <-
    (if pe_reuse_context_if_already_exist request && negb (Context.has_id context)
     then reuse_existing_context context
     else ret (-1)) ;;
  context_id <-
    (if context_id =? -1 then upsert_context_or_abort request context
     else ret context_id) ;;
  InsertAssociationIfNotExist context_id execution_id ;;;
  insert_attributions context_id artifact_ids ;;;
  ret context_id.

Fixpoint put_contexts (request : PutExecutionRequest) (execution_id : Z)
    (artifact_ids : list Z) (contexts : list Context.t) (context_ids : list Z)
    : M (list Z) :=
  match contexts with
  | [] => ret context_ids
  | context :: rest =>
      context_id <- put_context request execution_id artifact_ids context ;;
      put_contexts request execution_id artifact_ids rest
        (context_ids ++ [context_id])
  end.

Definition PutExecution (request : PutExecutionRequest) : M PutExecutionResponse :=
  Execute
    (match pe_opt_execution request with
     | None =>
         fail (InvalidArgumentError
                 ("No execution is found: "
                  +:+ DebugString_PutExecutionRequest request))
     | Some execution =>
         execution_id <- UpsertExecution execution ;;
         artifact_ids <- put_artifact_event_pairs request execution execution_id
                           (pe_artifact_event_pairs request) [] ;;
         context_ids <- put_contexts request execution_id artifact_ids
                          (pe_contexts request) [] ;;
         ret (mkPutExecutionResponse execution_id artifact_ids context_ids)
     end).

(** *** Lineage traversal driver *)

Definition kMaxDistance : Z := 20.

(** The part of GetLineageGraph before the transaction: the hop bound
    handed to the traversal, or the status returned at once. *)
Definition lineage_max_num_hops (request : GetLineageGraphRequest) : outcome Z :=
  match opt_artifacts_options request with
  | None => Failed (InvalidArgumentError "Missing query_nodes conditions")
  | Some _ =>
      let max_num_hops := kMaxDistance in
      match opt_max_num_hops (stop_conditions request) with
      | Some requested =>
          if requested <? 0
          then Failed (InvalidArgumentError
                         ("max_num_hops cannot be negative: max_num_hops ="
                          +:+ pretty requested))
          else Done (Z.min max_num_hops requested)
      | None => Done max_num_hops
      end
  end.

(** artifacts.erase(artifacts.begin() + max_node_size, artifacts.end()),
    guarded as in the source. *)
Definition truncate_seeds (request : GetLineageGraphRequest)
    (artifacts : list Artifact.t) : list Artifact.t :=
  if (0 <? max_node_size request)
     && (max_node_size request <? Z.of_nat (length artifacts))
  then take (Z.to_nat (max_node_size request)) artifacts
  else artifacts.

Definition nonempty_string (x : string) : option string :=
  if bool_decide (x ≠ "") then Some x else None.

(** The response of GetLineageGraph is its subgraph. *)
Definition GetLineageGraph (request : GetLineageGraphRequest) : M LineageGraph :=
  match lineage_max_num_hops request with
  | Failed e => fail e
  | Done max_num_hops =>
      Execute
        (listed <- query (ListArtifacts
                            (default (mkListOptions 0 "") (opt_artifacts_options request))) ;;
         let artifacts := listed.1 in
         if bool_decide (artifacts = [])
         then fail (NotFoundError
                      ("The query_nodes condition does not match any nodes to do "
                       +:+ "traversal."))
         else
           query (QueryLineageGraph (truncate_seeds request artifacts) max_num_hops
                    (if 0 <? max_node_size request
                     then Some (max_node_size request) else None)
                    (nonempty_string (boundary_artifacts (stop_conditions request)))
                    (nonempty_string (boundary_executions (stop_conditions request)))))
  end.

End Facade.

Notation "x <- m ;; k" := (bind m (fun x => k))
  (at level 100, m at next level, right associativity).
Notation "m ;;; k" := (bind m (fun _ => k))
  (at level 100, right associativity).

(** ** An in-memory access object

    Modelled from the spec: the Access Object of section 6.2, which is not
    part of the translated file.  Rows are keyed by their numeric id,
    assigned on first insert; a (name, version, variant) triple identifies
    a type; a context is unique by (type_id, name); events, attributions,
    associations and parent contexts are sets whose duplicates are rejected
    with already-exists; a type has at most one parent (more is a
    precondition failure); update-type persists additions only; entity
    reads by id report not-found when an id is missing and still return
    the rows they found.  The list filter and the boundary expressions are
    opaque strings and are not interpreted. *)
Module Mem.

Record TypeRow : Type := mkTypeRow {
  row_kind : TypeKind;
  row_name : string;
  row_version : option string;
  row_properties : gmap string PropertyType
}.

Record Store : Type := mkStore {
  types : gmap Z TypeRow;
  parent_types : list (Z * Z);
  artifacts : gmap Z Artifact.t;
  executions : gmap Z Execution.t;
  contexts : gmap Z Context.t;
  events : list Event.t;
  attributions : list Attribution.t;
  associations : list Association.t;
  parent_contexts : list ParentContext.t
}.

Definition empty : Store := mkStore ∅ [] ∅ ∅ ∅ [] [] [] [].

Definition set_types (f : gmap Z TypeRow -> gmap Z TypeRow) (s : Store) : Store :=
  mkStore (f (types s)) (parent_types s) (artifacts s) (executions s) (contexts s)
    (events s) (attributions s) (associations s) (parent_contexts s).
Definition set_parent_types (f : list (Z * Z) -> list (Z * Z)) (s : Store) : Store :=
  mkStore (types s) (f (parent_types s)) (artifacts s) (executions s) (contexts s)
    (events s) (attributions s) (associations s) (parent_contexts s).
Definition set_artifacts (f : gmap Z Artifact.t -> gmap Z Artifact.t) (s : Store) : Store :=
  mkStore (types s) (parent_types s) (f (artifacts s)) (executions s) (contexts s)
    (events s) (attributions s) (associations s) (parent_contexts s).
Definition set_executions (f : gmap Z Execution.t -> gmap Z Execution.t) (s : Store) : Store :=
  mkStore (types s) (parent_types s) (artifacts s) (f (executions s)) (contexts s)
    (events s) (attributions s) (associations s) (parent_contexts s).
Definition set_contexts (f : gmap Z Context.t -> gmap Z Context.t) (s : Store) : Store :=
  mkStore (types s) (parent_types s) (artifacts s) (executions s) (f (contexts s))
    (events s) (attributions s) (associations s) (parent_contexts s).
Definition set_events (f : list Event.t -> list Event.t) (s : Store) : Store :=
  mkStore (types s) (parent_types s) (artifacts s) (executions s) (contexts s)
    (f (events s)) (attributions s) (associations s) (parent_contexts s).
Definition set_attributions (f : list Attribution.t -> list Attribution.t) (s : Store) : Store :=
  mkStore (types s) (parent_types s) (artifacts s) (executions s) (contexts s)
    (events s) (f (attributions s)) (associations s) (parent_contexts s).
Definition set_associations (f : list Association.t -> list Association.t) (s : Store) : Store :=
  mkStore (types s) (parent_types s) (artifacts s) (executions s) (contexts s)
    (events s) (attributions s) (f (associations s)) (parent_contexts s).
Definition set_parent_contexts (f : list ParentContext.t -> list ParentContext.t)
    (s : Store) : Store :=
  mkStore (types s) (parent_types s) (artifacts s) (executions s) (contexts s)
    (events s) (attributions s) (associations s) (f (parent_contexts s)).

(** The id given to a new row of a table: one more than the largest id
    in use, ids starting at 1. *)
Definition max_id (ids : list Z) : Z := foldr Z.max 0 ids.
Definition next_id {A} (table : gmap Z A) : Z :=
  max_id ((map_to_list table).*1) + 1.

(** The empty string is not a version. *)
Definition norm_version (v : option string) : option string :=
  match v with
  | Some x => if bool_decide (x = "") then None else Some x
  | None => None
  end.

Definition type_of_row (i : Z) (row : TypeRow) : TypeProto.t :=
  TypeProto.mk (Some i) (row_name row) (row_version row) (row_properties row) None.

Definition row_matches (k : TypeKind) (n : string) (v : option string)
    (entry : Z * TypeRow) : bool :=
  bool_decide (row_kind entry.2 = k) && bool_decide (row_name entry.2 = n)
  && bool_decide (norm_version (row_version entry.2) = norm_version v).

Definition lookup_type (k : TypeKind) (n : string) (v : option string)
    (s : Store) : option (Z * TypeRow) :=
  snd <$> list_find (fun entry => row_matches k n v entry = true)
            (map_to_list (types s)).

Definition lookup_type_by_id (k : TypeKind) (i : Z) (s : Store) : option TypeRow :=
  match types s !! i with
  | Some row => if bool_decide (row_kind row = k) then Some row else None
  | None => None
  end.

Definition FindTypeByNameAndVersion (k : TypeKind) (n : string) (v : option string)
    (s : Store) : Status * TypeProto.t :=
  match lookup_type k n v s with
  | Some (i, row) => (OkStatus, type_of_row i row)
  | None => (NotFoundError ("No type found for query, name: " +:+ n), TypeProto.empty)
  end.

Definition FindTypeById (k : TypeKind) (i : Z) (s : Store) : Status * TypeProto.t :=
  match lookup_type_by_id k i s with
  | Some row => (OkStatus, type_of_row i row)
  | None => (NotFoundError ("No type found for query, type_id: " +:+ pretty i),
             TypeProto.empty)
  end.

Definition FindTypes (k : TypeKind) (s : Store) : Status * list TypeProto.t :=
  (OkStatus,
   (fun entry : Z * TypeRow => type_of_row entry.1 entry.2)
     <$> filter (fun entry : Z * TypeRow => row_kind entry.2 = k)
           (map_to_list (types s))).

Definition CreateType (k : TypeKind) (type : TypeProto.t) (s : Store)
    : Status * Z * Store :=
  if bool_decide (TypeProto.name type = "")
  then (InvalidArgumentError "No type name is specified.", 0, s)
  else
    match lookup_type k (TypeProto.name type) (TypeProto.opt_version type) s with
    | Some _ => (AlreadyExistsError "Type already exists.", 0, s)
    | None =>
        let i := next_id (types s) in
        let row := mkTypeRow k (TypeProto.name type)
                     (norm_version (TypeProto.opt_version type))
                     (TypeProto.properties type) in
        (OkStatus, i, set_types (insert i row) s)
    end.

(** Additions only: a property the row has keeps its kind. *)
Definition UpdateType (k : TypeKind) (type : TypeProto.t) (s : Store)
    : Status * Store :=
  match TypeProto.opt_id type with
  | None => (InvalidArgumentError "No type id is specified.", s)
  | Some i =>
      match lookup_type_by_id k i s with
      | None => (InvalidArgumentError "No type is found.", s)
      | Some row =>
          let row' := mkTypeRow (row_kind row) (row_name row) (row_version row)
                        (row_properties row ∪ TypeProto.properties type) in
          (OkStatus, set_types (insert i row') s)
      end
  end.

(** One step of the parent lookup, for one child type id. *)
Definition find_parent_type (k : TypeKind) (s : Store) (type_id : Z)
    (acc : outcome (gmap Z TypeProto.t)) : outcome (gmap Z TypeProto.t) :=
  match acc with
  | Failed e => Failed e
  | Done found =>
      match filter (fun link : Z * Z => link.1 = type_id) (parent_types s) with
      | [] => Done found
      | [link] =>
          match lookup_type_by_id k link.2 s with
          | Some row => Done (<[type_id := type_of_row link.2 row]> found)
          | None => Failed (InternalError "Dangling parent type link.")
          end
      | _ => Failed (FailedPreconditionError "Type has more than one parent type.")
      end
  end.

Definition FindParentTypesByTypeId (k : TypeKind) (type_ids : list Z) (s : Store)
    : Status * gmap Z TypeProto.t :=
  match foldr (find_parent_type k s) (Done ∅) type_ids with
  | Done found => (OkStatus, found)
  | Failed e => (e, ∅)
  end.

Definition CreateParentTypeInheritanceLink (k : TypeKind)
    (type parent_type : TypeProto.t) (s : Store) : Status * Store :=
  match TypeProto.opt_id type, TypeProto.opt_id parent_type with
  | Some i, Some p =>
      match lookup_type_by_id k i s, lookup_type_by_id k p s with
      | Some _, Some _ =>
          if bool_decide ((i, p) ∈ parent_types s)
          then (AlreadyExistsError "The parent type link already exists.", s)
          else (OkStatus, set_parent_types (fun links => (links ++ [(i, p)])%list) s)
      | _, _ => (InvalidArgumentError "Missing type for the inheritance link.", s)
      end
  | _, _ => (InvalidArgumentError "Missing id in parent type or child type.", s)
  end.

Definition has_type (k : TypeKind) (opt_type_id : option Z) (s : Store) : bool :=
  match opt_type_id with
  | Some i => bool_decide (is_Some (lookup_type_by_id k i s))
  | None => false
  end.

Definition CreateArtifact (artifact : Artifact.t) (s : Store) : Status * Z * Store :=
  if negb (has_type ARTIFACT_TYPE (Artifact.opt_type_id artifact) s)
  then (InvalidArgumentError "No artifact type is found.", 0, s)
  else
    let i := next_id (artifacts s) in
    let row := Artifact.mk (Some i) (Artifact.opt_type_id artifact)
                 (Artifact.opt_name artifact) (Artifact.opt_uri artifact) in
    (OkStatus, i, set_artifacts (insert i row) s).

Definition UpdateArtifact (artifact : Artifact.t) (s : Store) : Status * Store :=
  match Artifact.opt_id artifact ≫= (fun i => artifacts s !! i) with
  | None => (InvalidArgumentError "No artifact is found with the given id.", s)
  | Some _ => (OkStatus, set_artifacts (insert (Artifact.id artifact) artifact) s)
  end.

Definition CreateExecution (execution : Execution.t) (s : Store) : Status * Z * Store :=
  if negb (has_type EXECUTION_TYPE (Execution.opt_type_id execution) s)
  then (InvalidArgumentError "No execution type is found.", 0, s)
  else
    let i := next_id (executions s) in
    let row := Execution.mk (Some i) (Execution.opt_type_id execution)
                 (Execution.opt_name execution) in
    (OkStatus, i, set_executions (insert i row) s).

Definition UpdateExecution (execution : Execution.t) (s : Store) : Status * Store :=
  match Execution.opt_id execution ≫= (fun i => executions s !! i) with
  | None => (InvalidArgumentError "No execution is found with the given id.", s)
  | Some _ => (OkStatus, set_executions (insert (Execution.id execution) execution) s)
  end.

Definition same_context_key (type_id : Z) (n : string) (entry : Z * Context.t) : bool :=
  bool_decide (Context.type_id entry.2 = type_id)
  && bool_decide (Context.name entry.2 = n).

Definition lookup_context (type_id : Z) (n : string) (s : Store) : option Context.t :=
  (fun found : nat * (Z * Context.t) => found.2.2)
    <$> list_find (fun entry => same_context_key type_id n entry = true)
          (map_to_list (contexts s)).

Definition FindContextByTypeIdAndContextName (type_id : Z) (n : string) (s : Store)
    : Status * Context.t :=
  match lookup_context type_id n s with
  | Some context => (OkStatus, context)
  | None => (NotFoundError "No context found.", Context.mk None None None)
  end.

Definition CreateContext (context : Context.t) (s : Store) : Status * Z * Store :=
  if negb (has_type CONTEXT_TYPE (Context.opt_type_id context) s)
  then (InvalidArgumentError "No context type is found.", 0, s)
  else if bool_decide (Context.name context = "")
  then (InvalidArgumentError "Context name should not be empty.", 0, s)
  else
    match lookup_context (Context.type_id context) (Context.name context) s with
    | Some _ => (AlreadyExistsError "Given context already exists.", 0, s)
    | None =>
        let i := next_id (contexts s) in
        let row := Context.mk (Some i) (Context.opt_type_id context)
                     (Context.opt_name context) in
        (OkStatus, i, set_contexts (insert i row) s)
    end.

Definition UpdateContext (context : Context.t) (s : Store) : Status * Store :=
  match Context.opt_id context ≫= (fun i => contexts s !! i) with
  | None => (InvalidArgumentError "No context is found with the given id.", s)
  | Some _ => (OkStatus, set_contexts (insert (Context.id context) context) s)
  end.

(** The rows found for the ids, and not-found when one is missing. *)
Definition find_by_id {A} (table : gmap Z A) (ids : list Z) : Status * list A :=
  let found := omap (fun i => table !! i) ids in
  if bool_decide (length found = length ids) then (OkStatus, found)
  else (NotFoundError "Results missing for ids.", found).

Definition FindArtifactsById (ids : list Z) (s : Store) := find_by_id (artifacts s) ids.
Definition FindExecutionsById (ids : list Z) (s : Store) := find_by_id (executions s) ids.
Definition FindContextsById (ids : list Z) (s : Store) := find_by_id (contexts s) ids.

Definition has_row {A} (table : gmap Z A) (opt_i : option Z) : bool :=
  bool_decide (is_Some (opt_i ≫= (fun i => table !! i))).

Definition CreateEvent (event : Event.t) (s : Store) : Status * Z * Store :=
  if negb (has_row (artifacts s) (Event.opt_artifact_id event)
           && has_row (executions s) (Event.opt_execution_id event))
  then (InvalidArgumentError "No artifact or execution is found for the event.", 0, s)
  else if bool_decide (event ∈ events s)
  then (AlreadyExistsError "Given event already exists.", 0, s)
  else (OkStatus, Z.of_nat (length (events s)) + 1,
        set_events (fun rows => (rows ++ [event])%list) s).

Definition CreateAssociation (association : Association.t) (s : Store)
    : Status * Z * Store :=
  if negb (has_row (contexts s) (Association.opt_context_id association)
           && has_row (executions s) (Association.opt_execution_id association))
  then (InvalidArgumentError "No context or execution is found for the association.", 0, s)
  else if bool_decide (association ∈ associations s)
  then (AlreadyExistsError "Given association already exists.", 0, s)
  else (OkStatus, Z.of_nat (length (associations s)) + 1,
        set_associations (fun rows => (rows ++ [association])%list) s).

Definition CreateAttribution (attribution : Attribution.t) (s : Store)
    : Status * Z * Store :=
  if negb (has_row (contexts s) (Attribution.opt_context_id attribution)
           && has_row (artifacts s) (Attribution.opt_artifact_id attribution))
  then (InvalidArgumentError "No context or artifact is found for the attribution.", 0, s)
  else if bool_decide (attribution ∈ attributions s)
  then (AlreadyExistsError "Given attribution already exists.", 0, s)
  else (OkStatus, Z.of_nat (length (attributions s)) + 1,
        set_attributions (fun rows => (rows ++ [attribution])%list) s).

Definition CreateParentContext (parent_context : ParentContext.t) (s : Store)
    : Status * Store :=
  if negb (has_row (contexts s) (ParentContext.opt_child_id parent_context)
           && has_row (contexts s) (ParentContext.opt_parent_id parent_context))
  then (InvalidArgumentError "No context is found for the parent context.", s)
  else if bool_decide (parent_context ∈ parent_contexts s)
  then (AlreadyExistsError "Given parent context already exists.", s)
  else (OkStatus, set_parent_contexts (fun rows => (rows ++ [parent_context])%list) s).

Definition ListArtifacts (options : ListOperationOptions) (s : Store)
    : Status * (list Artifact.t * string) :=
  let rows := (map_to_list (artifacts s)).*2 in
  (OkStatus,
   (if 0 <? max_result_size options
    then take (Z.to_nat (max_result_size options)) rows else rows, "")).

(** One hop of the traversal: the executions that share an event with a
    reached artifact and the artifacts that share an event with a reached
    execution join the reached sets. *)
Definition hop (s : Store) (reached : list Z * list Z) : list Z * list Z :=
  let '(artifact_ids, execution_ids) := reached in
  let near_executions :=
    Event.execution_id
      <$> filter (fun e => Event.artifact_id e ∈ artifact_ids) (events s) in
  let near_artifacts :=
    Event.artifact_id
      <$> filter (fun e => Event.execution_id e ∈ execution_ids) (events s) in
  (list_union artifact_ids near_artifacts, list_union execution_ids near_executions).

Definition QueryLineageGraph (seeds : list Artifact.t) (max_num_hops : Z)
    (max_nodes : option Z) (boundary_artifacts boundary_executions : option string)
    (s : Store) : Status * LineageGraph :=
  let '(artifact_ids, execution_ids) :=
    Nat.iter (Z.to_nat max_num_hops) (hop s)
      (remove_dups (Artifact.id <$> seeds), []) in
  (OkStatus,
   mkLineageGraph
     (omap (fun i => artifacts s !! i) artifact_ids)
     (omap (fun i => executions s !! i) execution_ids)
     (filter (fun e => Event.artifact_id e ∈ artifact_ids
                       ∧ Event.execution_id e ∈ execution_ids) (events s))).

#[global] Instance access_object : MetadataAccessObject Store :=
  Build_MetadataAccessObject Store
    CreateType UpdateType FindTypeByNameAndVersion FindTypeById FindTypes
    FindParentTypesByTypeId CreateParentTypeInheritanceLink
    CreateArtifact UpdateArtifact CreateExecution UpdateExecution
    CreateContext UpdateContext
    FindArtifactsById FindExecutionsById FindContextsById
    FindContextByTypeIdAndContextName
    CreateEvent CreateAssociation CreateAttribution CreateParentContext
    ListArtifacts QueryLineageGraph.

(** Modelled from the spec: the closed mapping between base_type enum
    values and system type names, with the reserved unset value 0, and
    the excluded names of the seeded simple types.  The catalog itself is
    not part of the translated file; these entries are a sample of it. *)
Definition system_types (k : TypeKind) : list (Z * string) :=
  match k with
  | ARTIFACT_TYPE =>
      [(0, "unset_artifact_type"); (1, "mlmd.Dataset"); (2, "mlmd.Model");
       (3, "mlmd.Metrics"); (4, "mlmd.Statistics")]
  | EXECUTION_TYPE =>
      [(0, "unset_execution_type"); (1, "mlmd.Train"); (2, "mlmd.Transform");
       (3, "mlmd.Process"); (4, "mlmd.Evaluate"); (5, "mlmd.Deploy")]
  | CONTEXT_TYPE => [(0, "unset_context_type")]
  end.

Definition GetSystemTypeExtension (k : TypeKind) (type : TypeProto.t)
    : Status * SystemTypeExtension :=
  match TypeProto.opt_base_type type
        ≫= (fun b => list_find (fun entry => entry.1 = b) (system_types k)) with
  | Some (_, (_, n)) => (OkStatus, mkExtension n)
  | None => (InvalidArgumentError "base_type is null or unknown", mkExtension "")
  end.

Definition IsUnsetBaseType (extension : SystemTypeExtension) : bool :=
  bool_decide (ext_type_name extension
               ∈ ["unset_artifact_type"; "unset_execution_type"; "unset_context_type"]).

Definition GetSystemTypeEnum (k : TypeKind) (extension : SystemTypeExtension)
    : Status * Z :=
  match list_find (fun entry => entry.2 = ext_type_name extension) (system_types k) with
  | Some (_, (b, _)) => (OkStatus, b)
  | None => (FailedPreconditionError "unknown system type name", 0)
  end.

Definition kSimpleTypeNames : list string :=
  ["mlmd.Dataset"; "mlmd.Model"; "mlmd.Metrics"; "mlmd.Statistics"; "mlmd.Train";
   "mlmd.Transform"; "mlmd.Process"; "mlmd.Evaluate"; "mlmd.Deploy"].

#[global] Instance simple_types_util : SimpleTypesUtil :=
  Build_SimpleTypesUtil
    GetSystemTypeExtension IsUnsetBaseType GetSystemTypeEnum kSimpleTypeNames.

(** A stand-in for the text format of the messages: the name of a type or
    context; the requests print as their tag. *)
#[global] Instance debug_strings : DebugStrings := {|
  DebugString_Type := fun type => "name: " +:+ TypeProto.name type;
  DebugString_ArtifactAndEvent := fun _ => "artifact_event_pair";
  DebugString_PutExecutionRequest := fun _ => "put_execution_request";
  DebugString_Context := fun context => "name: " +:+ Context.name context
|}.

End Mem.

(** ** Vocabulary of the properties *)

(** No property of the stored type has another kind in the given type. *)
Definition no_kind_conflict (S T : TypeProto.t) : Prop :=
  forall k v v', TypeProto.properties S !! k = Some v ->
                 TypeProto.properties T !! k = Some v' -> v = v'.

(** The given type has a property name the stored type lacks. *)
Definition adds_property (S T : TypeProto.t) : Prop :=
  exists k, is_Some (TypeProto.properties T !! k) /\ TypeProto.properties S !! k = None.

(** The given type lacks a property name of the stored type. *)
Definition omits_property (S T : TypeProto.t) : Prop :=
  exists k, is_Some (TypeProto.properties S !! k) /\ TypeProto.properties T !! k = None.

(** The number of entries whose name the given type lacks, and the entries
    agreeing in kind with the given type wherever it has their name. *)
Definition omitted (T : TypeProto.t) (entries : list (string * PropertyType)) : Z :=
  Z.of_nat (length (filter (fun p : string * PropertyType =>
                              TypeProto.properties T !! p.1 = None) entries)).

Definition agree (T : TypeProto.t) (entries : list (string * PropertyType)) : Prop :=
  Forall (fun p : string * PropertyType =>
            forall v', TypeProto.properties T !! p.1 = Some v' -> v' = p.2) entries.

Section TypeStoreVocabulary.
Context {St : Type} `{MAO : MetadataAccessObject St}
        `{STU : SimpleTypesUtil} `{DBG : DebugStrings}.

(** The property schema the store holds for the type with a given id. *)
Definition stored_schema (k : TypeKind) (i : Z) (s : St)
    : option (gmap string PropertyType) :=
  let '(status, type) := FindTypeById k i s in
  if ok status then Some (TypeProto.properties type) else None.

(** Every stored type is still stored, with every property it had, at the
    kind it had. *)
Definition schema_grows (s s' : St) : Prop :=
  forall k i m, stored_schema k i s = Some m ->
                exists m', stored_schema k i s' = Some m' /\ m ⊆ m'.

(** What the type upsert engine relies on from the access object: a type
    found by name is the type stored under its id; creating a type or a
    parent link leaves the stored schemas in place; update-type leaves them
    in place when the type it is given extends the one stored under its
    id. *)
Record TypeStoreLaws : Prop := {
  find_by_name_has_id :
    forall k n v s status type,
      FindTypeByNameAndVersion k n v s = (status, type) -> ok status = true ->
      exists i status',
        TypeProto.opt_id type = Some i
        /\ FindTypeById k i s = (status', type) /\ ok status' = true;
  create_type_grows :
    forall k type s status i s',
      CreateType k type s = (status, i, s') -> ok status = true -> schema_grows s s';
  update_type_grows :
    forall k type s status s',
      UpdateType k type s = (status, s') -> ok status = true ->
      (forall i m, TypeProto.opt_id type = Some i -> stored_schema k i s = Some m ->
                   m ⊆ TypeProto.properties type) ->
      schema_grows s s';
  create_link_grows :
    forall k type parent_type s status s',
      CreateParentTypeInheritanceLink k type parent_type s = (status, s') ->
      ok status = true -> schema_grows s s'
}.

(** One successful type upsert, of any variant and with any flags. *)
Definition upsert_step (s s' : St) : Prop :=
  exists k type can_add_fields can_omit_fields type_id,
    UpsertType k type can_add_fields can_omit_fields s = (Done type_id, s').

End TypeStoreVocabulary.

(** The stored type and two given types of the widening scenario. *)
Definition img_stored : TypeProto.t :=
  TypeProto.mk (Some 1) "Img" None {[ "u" := STRING ]} None.
Definition img_widened : TypeProto.t :=
  TypeProto.mk None "Img" None (<[ "w" := INT ]> {[ "u" := STRING ]}) None.
Definition img_replaced : TypeProto.t :=
  TypeProto.mk None "Img" None {[ "w" := INT ]} None.

Section UpsertVocabulary.
Context {St : Type} `{MAO : MetadataAccessObject St}
        `{STU : SimpleTypesUtil} `{DBG : DebugStrings}.

(** The single-type endpoint of a variant. *)
Definition PutType (k : TypeKind) : PutTypeRequest -> M Z :=
  match k with
  | ARTIFACT_TYPE => PutArtifactType
  | EXECUTION_TYPE => PutExecutionType
  | CONTEXT_TYPE => PutContextType
  end.

(** The types of a PutTypes request in the order UpsertTypes visits them,
    each with its variant, and the upserts of such a list one after the
    other. *)
Definition types_in_order (request : PutTypesRequest) : list (TypeKind * TypeProto.t) :=
  ((fun type => (ARTIFACT_TYPE, type)) <$> pts_artifact_types request)
  ++ ((fun type => (EXECUTION_TYPE, type)) <$> pts_execution_types request)
  ++ ((fun type => (CONTEXT_TYPE, type)) <$> pts_context_types request).

Fixpoint upsert_in_order (types : list (TypeKind * TypeProto.t))
    (can_add_fields can_omit_fields : bool) : M unit :=
  match types with
  | [] => ret tt
  | (k, type) :: rest =>
      UpsertType k type can_add_fields can_omit_fields ;;;
      upsert_in_order rest can_add_fields can_omit_fields
  end.

(** The status a failed consistency check is turned into. *)
Definition type_already_exists (check_status : Status) : Status :=
  AlreadyExistsError
    ("Type already exists with different properties: " +:+ message check_status).

(** The reasons the checker rejects a given type of the stored name. *)
Definition inconsistent (stored_type type : TypeProto.t)
    (can_add_fields can_omit_fields : bool) : Prop :=
  ~ no_kind_conflict stored_type type
  \/ (omits_property stored_type type /\ can_omit_fields = false)
  \/ (adds_property stored_type type /\ can_add_fields = false).

End UpsertVocabulary.

(** The ParentType rows of a child type in the in-memory store. *)
Definition parent_type_rows (type_id : Z) (s : Mem.Store) : list (Z * Z) :=
  filter (fun link : Z * Z => link.1 = type_id) (Mem.parent_types s).

(** The artifact_event_pairs PutExecution turns down: an event with no
    artifact and no artifact_id; an event whose execution_id is set and is
    not the id of the request's execution; an artifact and an event that
    both carry an id, and the ids differ. *)
Definition event_without_artifact (p : ArtifactAndEvent.t) : Prop :=
  ArtifactAndEvent.opt_artifact p = None
  /\ exists event, ArtifactAndEvent.opt_event p = Some event
                   /\ Event.opt_artifact_id event = None.

Definition execution_mismatch (execution : Execution.t) (p : ArtifactAndEvent.t) : Prop :=
  exists event i, ArtifactAndEvent.opt_event p = Some event
                  /\ Event.opt_execution_id event = Some i
                  /\ Execution.opt_id execution <> Some i.

(** The pair has an artifact, and an event whose artifact_id is set and is
    not the id of the artifact; an artifact without an id is such a one. *)
Definition artifact_mismatch (p : ArtifactAndEvent.t) : Prop :=
  exists artifact event j,
    ArtifactAndEvent.opt_artifact p = Some artifact
    /\ ArtifactAndEvent.opt_event p = Some event
    /\ Event.opt_artifact_id event = Some j
    /\ Artifact.opt_id artifact <> Some j.

(** The narrower case in which the artifact and the event both carry an
    id, and the two differ. *)
Definition ids_disagree (p : ArtifactAndEvent.t) : Prop :=
  exists artifact event i j,
    ArtifactAndEvent.opt_artifact p = Some artifact
    /\ ArtifactAndEvent.opt_event p = Some event
    /\ Artifact.opt_id artifact = Some i
    /\ Event.opt_artifact_id event = Some j
    /\ i <> j.

Definition rejected_pair (execution : Execution.t) (p : ArtifactAndEvent.t) : Prop :=
  event_without_artifact p \/ execution_mismatch execution p \/ artifact_mismatch p.

(** An event that names no execution, or the request's execution; an
    event that names no artifact, or the pair's artifact. *)
Definition execution_agrees (execution : Execution.t) (event : Event.t) : Prop :=
  Event.opt_execution_id event = None
  \/ Event.opt_execution_id event = Execution.opt_id execution.

Definition artifact_agrees (artifact : Artifact.t) (event : Event.t) : Prop :=
  Event.opt_artifact_id event = None
  \/ Event.opt_artifact_id event = Artifact.opt_id artifact.

Section ExecutionVocabulary.
Context {St : Type} `{MAO : MetadataAccessObject St}
        `{STU : SimpleTypesUtil} `{DBG : DebugStrings}.

(** The entry of response.artifact_ids a pair accounts for. *)
Definition pair_contributes (p : ArtifactAndEvent.t) (artifact_id : Z) : Prop :=
  match ArtifactAndEvent.opt_artifact p, ArtifactAndEvent.opt_event p with
  | None, None => artifact_id = -1
  | None, Some event => Event.opt_artifact_id event = Some artifact_id
  | Some artifact, _ =>
      (forall i, Artifact.opt_id artifact = Some i -> artifact_id = i)
      /\ exists s1 s2 : St, UpsertArtifact artifact s1 = (Done artifact_id, s2)
  end.



End ExecutionVocabulary.

Section ReadVocabulary.
Context {St : Type} `{MAO : MetadataAccessObject St}
        `{STU : SimpleTypesUtil} `{DBG : DebugStrings}.

(** The types stored under the ids of a list, in the order of the list,
    without the ids the store has no type for. *)
Definition found_types (k : TypeKind) (type_ids : list Z) (s : St) : list TypeProto.t :=
  omap (fun i => let '(status, type) := FindTypeById k i s in
                 if ok status then Some type else None) type_ids.

(** Every lookup of the list is answered with OK or NOT_FOUND. *)
Definition found_or_missing (k : TypeKind) (type_ids : list Z) (s : St) : Prop :=
  Forall (fun i => ok (FindTypeById k i s).1 = true
                   \/ IsNotFound (FindTypeById k i s).1 = true) type_ids.

(** The status Get*ByID passes over. *)
Definition ok_or_not_found (status : Status) : Prop :=
  ok status = true \/ IsNotFound status = true.

(** The status InsertAttributionIfNotExist and InsertAssociationIfNotExist
    turn into OK. *)
Definition ok_or_already_exists (status : Status) : bool :=
  ok status || IsAlreadyExists status.

End ReadVocabulary.

(** A store with one context type and two contexts, and the link that
    makes the first context the parent of the second. *)
Definition two_contexts : Mem.Store :=
  Mem.mkStore {[ 1 := Mem.mkTypeRow CONTEXT_TYPE "Pipeline" None ∅ ]} [] ∅ ∅
    (<[ 2 := Context.mk (Some 2) (Some 1) (Some "run-42") ]>
       {[ 1 := Context.mk (Some 1) (Some 1) (Some "pipeline") ]})
    [] [] [] [].
Definition run_in_pipeline : ParentContext.t := ParentContext.mk (Some 2) (Some 1).

(** A context type that bears the name of a simple type. *)
Definition model_named_type : TypeProto.t := TypeProto.mk None "mlmd.Model" None ∅ None.

(** The stores a PutContextType and a PutArtifactType of that type leave
    behind, starting from the empty store. *)
Definition context_named_model : Mem.Store :=
  (PutContextType (mkPutTypeRequest model_named_type true true true) Mem.empty).2.
Definition artifact_named_model : Mem.Store :=
  (PutArtifactType (mkPutTypeRequest model_named_type true true true) Mem.empty).2.

(** The store after the parent context link was put once. *)
Definition linked_contexts : Mem.Store :=
  (PutParentContexts [run_in_pipeline] two_contexts).2.

(** ** Sample stores and requests *)

(** A store with the artifact type "Img" of the widening scenario, an
    execution type, a context type and the system type "mlmd.Model", three
    artifacts, the context "run-42", and the attribution of the first
    artifact to it. *)
Definition pipeline : Mem.Store :=
  Mem.mkStore
    (<[ 4 := Mem.mkTypeRow ARTIFACT_TYPE "mlmd.Model" None ∅ ]>
       (<[ 3 := Mem.mkTypeRow CONTEXT_TYPE "Pipeline" None ∅ ]>
          (<[ 2 := Mem.mkTypeRow EXECUTION_TYPE "Trainer" None ∅ ]>
             {[ 1 := Mem.mkTypeRow ARTIFACT_TYPE "Img" None {[ "u" := STRING ]} ]})))
    []
    (<[ 3 := Artifact.mk (Some 3) (Some 1) None (Some "z") ]>
       (<[ 2 := Artifact.mk (Some 2) (Some 1) None (Some "y") ]>
          {[ 1 := Artifact.mk (Some 1) (Some 1) None (Some "x") ]}))
    ∅
    {[ 1 := Context.mk (Some 1) (Some 3) (Some "run-42") ]}
    [] [Attribution.mk (Some 1) (Some 1)] [] [].

(** "Img" with the kind of "u" changed, and with base_type MODEL (2),
    DATASET (1) and the unset value (0). *)
Definition img_retyped : TypeProto.t :=
  TypeProto.mk None "Img" None {[ "u" := INT ]} None.
Definition img_model : TypeProto.t :=
  TypeProto.mk None "Img" None {[ "u" := STRING ]} (Some 2).
Definition img_dataset : TypeProto.t :=
  TypeProto.mk None "Img" None {[ "u" := STRING ]} (Some 1).
Definition img_unset : TypeProto.t :=
  TypeProto.mk None "Img" None {[ "u" := STRING ]} (Some 0).

(** The store after "Img" was linked to its base type "mlmd.Model". *)
Definition pipeline_linked : Mem.Store :=
  (UpsertTypeInheritanceLink ARTIFACT_TYPE img_model 1 pipeline).2.

Definition trainer_run : Execution.t := Execution.mk None (Some 2) None.
Definition new_image : Artifact.t := Artifact.mk None (Some 1) None (Some "w").
Definition output_event : Event.t := Event.mk None None OUTPUT.
Definition input_of_first : Event.t := Event.mk (Some 1) None INPUT.
Definition run_42 : Context.t := Context.mk None (Some 3) (Some "run-42").

(** An execution with a new output artifact, an input event on the first
    artifact and an empty pair. *)
Definition record_run : PutExecutionRequest :=
  mkPutExecutionRequest (Some trainer_run)
    [ArtifactAndEvent.mk (Some new_image) (Some output_event);
     ArtifactAndEvent.mk None (Some input_of_first);
     ArtifactAndEvent.mk None None]
    [] false.

(** The same execution with an event that names no artifact, and in the
    context "run-42" to be reused. *)
Definition record_orphan_event : PutExecutionRequest :=
  mkPutExecutionRequest (Some trainer_run)
    [ArtifactAndEvent.mk None (Some output_event)] [] false.
Definition record_in_run_42 : PutExecutionRequest :=
  mkPutExecutionRequest (Some trainer_run) [] [run_42] true.

(** The same execution with a new artifact and an event that names the
    first artifact of the store. *)
Definition new_image_as_first : ArtifactAndEvent.t :=
  ArtifactAndEvent.mk (Some new_image) (Some input_of_first).
Definition record_new_image_as_first : PutExecutionRequest :=
  mkPutExecutionRequest (Some trainer_run) [new_image_as_first] [] false.


(** A lineage query from every artifact, at most two seeds, 100 hops. *)
Definition wide_lineage : GetLineageGraphRequest :=
  mkGetLineageGraphRequest (Some (mkListOptions 0 ""))
    (mkBoundaryConstraint (Some 100) "" "") 2.

(** ** The rest of the facade

    The methods of MetadataAccessObject that the remaining functions of the
    file call, with the conventions of [MetadataAccessObject] above. *)
Class MetadataAccessObjectRest (St : Type) : Type := {
  InitMetadataSource : St -> Status * St;
  InitMetadataSourceIfNotExists : bool -> St -> Status * St;
  DowngradeMetadataSource : Z -> St -> Status * St;
  FindArtifacts : St -> Status * list Artifact.t;
  FindExecutions : St -> Status * list Execution.t;
  FindContexts : St -> Status * list Context.t;
  ListExecutions : ListOperationOptions -> St -> Status * (list Execution.t * string);
  ListContexts : ListOperationOptions -> St -> Status * (list Context.t * string);
  FindArtifactsByURI : string -> St -> Status * list Artifact.t;
  FindTypeIdByNameAndVersion : string -> option string -> TypeKind -> St -> Status * Z;
  FindArtifactsByTypeId :
    Z -> option ListOperationOptions -> St -> Status * (list Artifact.t * string);
  FindExecutionsByTypeId :
    Z -> option ListOperationOptions -> St -> Status * (list Execution.t * string);
  FindContextsByTypeId :
    Z -> option ListOperationOptions -> St -> Status * (list Context.t * string);
  FindArtifactByTypeIdAndArtifactName : Z -> string -> St -> Status * Artifact.t;
  FindExecutionByTypeIdAndExecutionName : Z -> string -> St -> Status * Execution.t;
  FindEventsByExecutions : list Z -> St -> Status * list Event.t;
  FindEventsByArtifacts : list Z -> St -> Status * list Event.t;
  FindContextsByArtifact : Z -> St -> Status * list Context.t;
  FindContextsByExecution : Z -> St -> Status * list Context.t;
  FindArtifactsByContext :
    Z -> option ListOperationOptions -> St -> Status * (list Artifact.t * string);
  FindExecutionsByContext :
    Z -> option ListOperationOptions -> St -> Status * (list Execution.t * string);
  FindParentContextsByContextId : Z -> St -> Status * list Context.t;
  FindChildContextsByContextId : Z -> St -> Status * list Context.t
}.

Definition CancelledError (m : string) : Status := mkStatus kCancelled m.

(** A response with a repeated field and next_page_token. *)
Record Page (A : Type) : Type := mkPage {
  page_items : list A;
  opt_next_page_token : option string
}.
Arguments mkPage {A} _ _.
Arguments page_items {A} _.
Arguments opt_next_page_token {A} _.

(** Get{Artifacts,Executions,Contexts}ByTypeRequest and
    Get{Artifact,Execution,Context}ByTypeAndNameRequest. *)
Record GetByTypeRequest : Type := mkGetByTypeRequest {
  bt_type_name : string;
  bt_opt_type_version : option string;
  bt_opt_options : option ListOperationOptions
}.

Record GetByTypeAndNameRequest : Type := mkGetByTypeAndNameRequest {
  btn_type_name : string;
  btn_opt_type_version : option string;
  btn_name : string
}.

(** GetArtifactsByURIRequest: the uris, and the numbers of the fields the
    parser did not know, in the order of the unknown field set. *)
Record GetArtifactsByURIRequest : Type := mkGetArtifactsByURIRequest {
  unknown_field_numbers : list Z;
  uris : list string
}.

(** Get{Artifacts,Executions}ByContextRequest. *)
Record GetByContextRequest : Type := mkGetByContextRequest {
  bc_context_id : Z;
  bc_opt_options : option ListOperationOptions
}.

(** The SimpleTypes message and LoadSimpleTypes of simple_types_util.h;
    CreateMetadataAccessObject of metadata_access_object_factory.h, as the
    status it returns for a query config; DebugString() of the one request
    left that is printed in a message. *)
Record SimpleTypes : Type := mkSimpleTypes {
  st_artifact_types : list TypeProto.t;
  st_execution_types : list TypeProto.t;
  st_context_types : list TypeProto.t
}.

Class StoreSetup : Type := {
  LoadSimpleTypes : Status * SimpleTypes;
  MetadataSourceQueryConfig : Type;
  CreateMetadataAccessObject : MetadataSourceQueryConfig -> Status;
  DebugString_GetArtifactsByURIRequest : GetArtifactsByURIRequest -> string
}.

Section FacadeRest.
Context {St : Type} `{MAO : MetadataAccessObject St}
        `{REST : MetadataAccessObjectRest St}
        `{STU : SimpleTypesUtil} `{DBG : DebugStrings} `{SETUP : StoreSetup}.

(** *** Initialisation *)

Definition UpsertSimpleTypes : M unit :=
  simple_types <- check LoadSimpleTypes ;;
  UpsertTypes (st_artifact_types simple_types) (st_execution_types simple_types)
    (st_context_types simple_types) true true (mkPutTypesResponse [] [] []) ;;;
  ret tt.

Definition InitMetadataStore : M unit :=
  Execute (update_ InitMetadataSource) ;;;
  Execute UpsertSimpleTypes.

Definition InitMetadataStoreIfNotExists (enable_upgrade_migration : bool) : M unit :=
  Execute (update_ (InitMetadataSourceIfNotExists enable_upgrade_migration)) ;;;
  Execute UpsertSimpleTypes.

(** MetadataStore::Create; [Done tt] stands for the store handed back in
    *result.  The downgrade runs in a transaction of its own. *)
Definition Create (query_config : MetadataSourceQueryConfig)
    (downgrade_to_schema_version : Z) : M unit :=
  check (CreateMetadataAccessObject query_config, tt) ;;;
  if 0 <=? downgrade_to_schema_version then
    Execute (update_ (DowngradeMetadataSource downgrade_to_schema_version)) ;;;
    fail (CancelledError
            ("Downgrade migration was performed. Connection to the downgraded "
             +:+ "database is Cancelled. Now the database is at schema version "
             +:+ pretty downgrade_to_schema_version
             +:+ ". Please refer to the migration guide and use lower version of the "
             +:+ "library to connect to the metadata store."))
  else ret tt.

(** *** Entity writes *)

Fixpoint put_executions (executions : list Execution.t) (execution_ids : list Z)
    : M (list Z) :=
  match executions with
  | [] => ret execution_ids
  | execution :: rest =>
      execution_id <- UpsertExecution execution ;;
      put_executions rest (execution_ids ++ [execution_id])
  end.

Definition PutExecutions (executions : list Execution.t) : M (list Z) :=
  Execute (put_executions executions []).

Fixpoint put_contexts_only (contexts : list Context.t) (context_ids : list Z)
    : M (list Z) :=
  match contexts with
  | [] => ret context_ids
  | context :: rest =>
      context_id <- UpsertContext context ;;
      put_contexts_only rest (context_ids ++ [context_id])
  end.

Definition PutContexts (contexts : list Context.t) : M (list Z) :=
  Execute (put_contexts_only contexts []).

(** *** Events *)

Definition GetEventsByExecutionIDs (execution_ids : list Z) : M (list Event.t) :=
  Execute
    (fun s =>
       let '(status, events) := FindEventsByExecutions execution_ids s in
       if IsNotFound status then (Done [], s)
       else if negb (ok status) then (Failed status, s)
       else (Done events, s)).

Definition GetEventsByArtifactIDs (artifact_ids : list Z) : M (list Event.t) :=
  Execute
    (fun s =>
       let '(status, events) := FindEventsByArtifacts artifact_ids s in
       if IsNotFound status then (Done [], s)
       else if negb (ok status) then (Failed status, s)
       else (Done events, s)).

(** *** Listing *)





(** *** Artifacts by URI *)

(** The loop over the set of uris: a status other than OK and NOT_FOUND
    stops it, the artifacts of every other lookup join the response. *)
Fixpoint find_artifacts_by_uris (uri_set : list string) (found : list Artifact.t)
    : M (list Artifact.t) :=
  match uri_set with
  | [] => ret found
  | uri :: rest =>
      fun s =>
        let '(status, artifacts) := FindArtifactsByURI uri s in
        if negb (ok status) && negb (IsNotFound status) then (Failed status, s)
        else find_artifacts_by_uris rest (found ++ artifacts) s
  end.

(** The uris go through an absl::flat_hash_set, iterated in the order the
    set yields them; here the set is a gset and the order that of its
    elements. *)
Definition GetArtifactsByURI (request : GetArtifactsByURIRequest)
    : M (list Artifact.t) :=
  if bool_decide (1 ∈ unknown_field_numbers request)
  then fail (InvalidArgumentError
               ("The request contains deprecated field `uri`. Please upgrade the "
                +:+ "client library version above 0.21.0. GetArtifactsByURIRequest: "
                +:+ DebugString_GetArtifactsByURIRequest request))
  else
    Execute
      (find_artifacts_by_uris (elements (list_to_set (uris request) : gset string)) []).

(** *** Entities by type *)

Definition by_type_version (request : GetByTypeRequest) : option string :=
  GetRequestTypeVersion
    (mkGetTypeRequest (bt_type_name request) (bt_opt_type_version request)).

Definition by_type_and_name_version (request : GetByTypeAndNameRequest)
    : option string :=
  GetRequestTypeVersion
    (mkGetTypeRequest (btn_type_name request) (btn_opt_type_version request)).

(** The tail shared by Get{Artifacts,Executions,Contexts}ByType after the
    lookup by type id: next_page_token is set whenever the request has
    options. *)
Definition page_by_type {A} (request : GetByTypeRequest) (status : Status)
    (items : list A) (next_page_token : string) : M (St := St) (Page A) :=
  if IsNotFound status then ret (mkPage [] None)
  else if negb (ok status) then fail status
  else ret (mkPage items
              (match bt_opt_options request with
               | Some _ => Some next_page_token
               | None => None
               end)).

Definition GetArtifactsByType (request : GetByTypeRequest) : M (Page Artifact.t) :=
  Execute
    (fun s =>
       let '(status, artifact_type_id) :=
         FindTypeIdByNameAndVersion (bt_type_name request) (by_type_version request)
           ARTIFACT_TYPE s in
       if IsNotFound status then (Done (mkPage [] None), s)
       else if negb (ok status) then (Failed status, s)
       else
         let '(status, (artifacts, next_page_token)) :=
           FindArtifactsByTypeId artifact_type_id (bt_opt_options request) s in
         page_by_type request status artifacts next_page_token s).

Definition GetExecutionsByType (request : GetByTypeRequest) : M (Page Execution.t) :=
  Execute
    (fun s =>
       let '(status, execution_type_id) :=
         FindTypeIdByNameAndVersion (bt_type_name request) (by_type_version request)
           EXECUTION_TYPE s in
       if IsNotFound status then (Done (mkPage [] None), s)
       else if negb (ok status) then (Failed status, s)
       else
         let '(status, (executions, next_page_token)) :=
           FindExecutionsByTypeId execution_type_id (bt_opt_options request) s in
         page_by_type request status executions next_page_token s).

Definition GetContextsByType (request : GetByTypeRequest) : M (Page Context.t) :=
  Execute
    (fun s =>
       let '(status, context_type_id) :=
         FindTypeIdByNameAndVersion (bt_type_name request) (by_type_version request)
           CONTEXT_TYPE s in
       if IsNotFound status then (Done (mkPage [] None), s)
       else if negb (ok status) then (Failed status, s)
       else
         let '(status, (contexts, next_page_token)) :=
           FindContextsByTypeId context_type_id (bt_opt_options request) s in
         page_by_type request status contexts next_page_token s).

(** The tail shared by Get{Artifact,Execution,Context}ByTypeAndName; the
    response holds the entity, or nothing. *)
Definition one_by_name {A} (status : Status) (item : A) : M (St := St) (option A) :=
  if IsNotFound status then ret None
  else if negb (ok status) then fail status
  else ret (Some item).

Definition GetArtifactByTypeAndName (request : GetByTypeAndNameRequest)
    : M (option Artifact.t) :=
  Execute
    (fun s =>
       let '(status, artifact_type_id) :=
         FindTypeIdByNameAndVersion (btn_type_name request)
           (by_type_and_name_version request) ARTIFACT_TYPE s in
       if IsNotFound status then (Done None, s)
       else if negb (ok status) then (Failed status, s)
       else
         let '(status, artifact) :=
           FindArtifactByTypeIdAndArtifactName artifact_type_id (btn_name request) s in
         one_by_name status artifact s).

Definition GetExecutionByTypeAndName (request : GetByTypeAndNameRequest)
    : M (option Execution.t) :=
  Execute
    (fun s =>
       let '(status, execution_type_id) :=
         FindTypeIdByNameAndVersion (btn_type_name request)
           (by_type_and_name_version request) EXECUTION_TYPE s in
       if IsNotFound status then (Done None, s)
       else if negb (ok status) then (Failed status, s)
       else
         let '(status, execution) :=
           FindExecutionByTypeIdAndExecutionName execution_type_id (btn_name request) s in
         one_by_name status execution s).

Definition GetContextByTypeAndName (request : GetByTypeAndNameRequest)
    : M (option Context.t) :=
  Execute
    (fun s =>
       let '(status, context_type_id) :=
         FindTypeIdByNameAndVersion (btn_type_name request)
           (by_type_and_name_version request) CONTEXT_TYPE s in
       if IsNotFound status then (Done None, s)
       else if negb (ok status) then (Failed status, s)
       else
         let '(status, context) :=
           FindContextByTypeIdAndContextName context_type_id (btn_name request) s in
         one_by_name status context s).

(** *** Contexts and their members *)

Definition GetContextsByArtifact (artifact_id : Z) : M (list Context.t) :=
  Execute (query (FindContextsByArtifact artifact_id)).

Definition GetContextsByExecution (execution_id : Z) : M (list Context.t) :=
  Execute (query (FindContextsByExecution execution_id)).

Definition GetArtifactsByContext (request : GetByContextRequest) : M (Page Artifact.t) :=
  Execute
    (found <- query (FindArtifactsByContext (bc_context_id request)
                       (bc_opt_options request)) ;;
     ret (mkPage found.1 (nonempty_string found.2))).

Definition GetExecutionsByContext (request : GetByContextRequest)
    : M (Page Execution.t) :=
  Execute
    (found <- query (FindExecutionsByContext (bc_context_id request)
                       (bc_opt_options request)) ;;
     ret (mkPage found.1 (nonempty_string found.2))).

Definition GetParentContextsByContext (context_id : Z) : M (list Context.t) :=
  Execute
    (fun s =>
       let '(status, parent_contexts) := FindParentContextsByContextId context_id s in
       if negb (ok status) && negb (IsNotFound status) then (Failed status, s)
       else (Done parent_contexts, s)).

Definition GetChildrenContextsByContext (context_id : Z) : M (list Context.t) :=
  Execute
    (fun s =>
       let '(status, child_contexts) := FindChildContextsByContextId context_id s in
       if negb (ok status) && negb (IsNotFound status) then (Failed status, s)
       else (Done child_contexts, s)).

End FacadeRest.

(** ** The in-memory access object, continued

    Modelled from the spec: the remaining methods over the tables of
    [Mem.Store], for the sample runs.  A query that selects no row reports
    NOT_FOUND; a listing with options returns at most max_result_size rows
    and no token; initialising drops what is stored; the schema version a
    store can be taken down to is at most [kSchemaVersion]. *)
Module MemQueries.

Definition rows {A} (table : gmap Z A) : list A := (map_to_list table).*2.

Definition found_rows {A} (found : list A) : Status * list A :=
  match found with
  | [] => (NotFoundError "No row matches the query.", [])
  | _ => (OkStatus, found)
  end.

Definition found_page {A} (opt_options : option ListOperationOptions) (found : list A)
    : Status * (list A * string) :=
  match found, opt_options with
  | [], _ => (NotFoundError "No row matches the query.", ([], ""))
  | _, Some options =>
      (OkStatus,
       (if 0 <? max_result_size options
        then take (Z.to_nat (max_result_size options)) found else found, ""))
  | _, None => (OkStatus, (found, ""))
  end.

Definition kSchemaVersion : Z := 7.

Definition InitMetadataSource (s : Mem.Store) : Status * Mem.Store :=
  (OkStatus, Mem.empty).
Definition InitMetadataSourceIfNotExists (enable_upgrade_migration : bool)
    (s : Mem.Store) : Status * Mem.Store := (OkStatus, s).
Definition DowngradeMetadataSource (to_schema_version : Z) (s : Mem.Store)
    : Status * Mem.Store :=
  if (to_schema_version <? 0) || (kSchemaVersion <? to_schema_version)
  then (InvalidArgumentError "MLMD cannot be downgraded to that schema_version.", s)
  else (OkStatus, s).

Definition FindArtifacts (s : Mem.Store) := found_rows (rows (Mem.artifacts s)).
Definition FindExecutions (s : Mem.Store) := found_rows (rows (Mem.executions s)).
Definition FindContexts (s : Mem.Store) := found_rows (rows (Mem.contexts s)).
Definition ListExecutions (options : ListOperationOptions) (s : Mem.Store) :=
  found_page (Some options) (rows (Mem.executions s)).
Definition ListContexts (options : ListOperationOptions) (s : Mem.Store) :=
  found_page (Some options) (rows (Mem.contexts s)).

Definition FindArtifactsByURI (uri : string) (s : Mem.Store) :=
  found_rows (filter (fun a => Artifact.opt_uri a = Some uri) (rows (Mem.artifacts s))).

Definition FindTypeIdByNameAndVersion (n : string) (v : option string) (k : TypeKind)
    (s : Mem.Store) : Status * Z :=
  match Mem.lookup_type k n v s with
  | Some (i, _) => (OkStatus, i)
  | None => (NotFoundError ("No type found for query, name: " +:+ n), 0)
  end.

Definition FindArtifactsByTypeId (type_id : Z) (opt_options : option ListOperationOptions)
    (s : Mem.Store) :=
  found_page opt_options
    (filter (fun a => Artifact.opt_type_id a = Some type_id) (rows (Mem.artifacts s))).
Definition FindExecutionsByTypeId (type_id : Z)
    (opt_options : option ListOperationOptions) (s : Mem.Store) :=
  found_page opt_options
    (filter (fun x => Execution.opt_type_id x = Some type_id) (rows (Mem.executions s))).
Definition FindContextsByTypeId (type_id : Z) (opt_options : option ListOperationOptions)
    (s : Mem.Store) :=
  found_page opt_options
    (filter (fun c => Context.opt_type_id c = Some type_id) (rows (Mem.contexts s))).

Definition first_row {A} (absent : A) (found : list A) : Status * A :=
  match found with
  | [] => (NotFoundError "No row matches the query.", absent)
  | row :: _ => (OkStatus, row)
  end.

Definition FindArtifactByTypeIdAndArtifactName (type_id : Z) (n : string)
    (s : Mem.Store) :=
  first_row (Artifact.mk None None None None)
    (filter (fun a => Artifact.opt_type_id a = Some type_id
                      ∧ Artifact.opt_name a = Some n) (rows (Mem.artifacts s))).
Definition FindExecutionByTypeIdAndExecutionName (type_id : Z) (n : string)
    (s : Mem.Store) :=
  first_row (Execution.mk None None None)
    (filter (fun x => Execution.opt_type_id x = Some type_id
                      ∧ Execution.opt_name x = Some n) (rows (Mem.executions s))).

Definition FindEventsByExecutions (execution_ids : list Z) (s : Mem.Store) :=
  found_rows (filter (fun e => Event.execution_id e ∈ execution_ids) (Mem.events s)).
Definition FindEventsByArtifacts (artifact_ids : list Z) (s : Mem.Store) :=
  found_rows (filter (fun e => Event.artifact_id e ∈ artifact_ids) (Mem.events s)).

Definition contexts_of (context_ids : list Z) (s : Mem.Store) : list Context.t :=
  omap (fun i => Mem.contexts s !! i) context_ids.

Definition FindContextsByArtifact (artifact_id : Z) (s : Mem.Store) :=
  found_rows
    (contexts_of
       (Attribution.context_id
          <$> filter (fun a => Attribution.opt_artifact_id a = Some artifact_id)
                (Mem.attributions s)) s).
Definition FindContextsByExecution (execution_id : Z) (s : Mem.Store) :=
  found_rows
    (contexts_of
       (Association.context_id
          <$> filter (fun a => Association.opt_execution_id a = Some execution_id)
                (Mem.associations s)) s).
Definition FindArtifactsByContext (context_id : Z)
    (opt_options : option ListOperationOptions) (s : Mem.Store) :=
  found_page opt_options
    (omap (fun a => Mem.artifacts s !! Attribution.artifact_id a)
       (filter (fun a => Attribution.opt_context_id a = Some context_id)
          (Mem.attributions s))).
Definition FindExecutionsByContext (context_id : Z)
    (opt_options : option ListOperationOptions) (s : Mem.Store) :=
  found_page opt_options
    (omap (fun a => Mem.executions s !! Association.execution_id a)
       (filter (fun a => Association.opt_context_id a = Some context_id)
          (Mem.associations s))).
Definition FindParentContextsByContextId (context_id : Z) (s : Mem.Store) :=
  found_rows
    (omap (fun link => ParentContext.opt_parent_id link ≫= (fun i => Mem.contexts s !! i))
       (filter (fun link => ParentContext.opt_child_id link = Some context_id)
          (Mem.parent_contexts s))).
Definition FindChildContextsByContextId (context_id : Z) (s : Mem.Store) :=
  found_rows
    (omap (fun link => ParentContext.opt_child_id link ≫= (fun i => Mem.contexts s !! i))
       (filter (fun link => ParentContext.opt_parent_id link = Some context_id)
          (Mem.parent_contexts s))).

#[global] Instance queries : MetadataAccessObjectRest Mem.Store :=
  Build_MetadataAccessObjectRest Mem.Store
    InitMetadataSource InitMetadataSourceIfNotExists DowngradeMetadataSource
    FindArtifacts FindExecutions FindContexts ListExecutions ListContexts
    FindArtifactsByURI FindTypeIdByNameAndVersion
    FindArtifactsByTypeId FindExecutionsByTypeId FindContextsByTypeId
    FindArtifactByTypeIdAndArtifactName FindExecutionByTypeIdAndExecutionName
    FindEventsByExecutions FindEventsByArtifacts
    FindContextsByArtifact FindContextsByExecution
    FindArtifactsByContext FindExecutionsByContext
    FindParentContextsByContextId FindChildContextsByContextId.

(** A sample of the catalog of simple types, one per name of
    [Mem.kSimpleTypeNames] that it lists. *)
Definition simple_types : SimpleTypes :=
  mkSimpleTypes
    [TypeProto.mk None "mlmd.Dataset" None ∅ None;
     TypeProto.mk None "mlmd.Model" None ∅ None]
    [TypeProto.mk None "mlmd.Train" None ∅ None]
    [].

#[global] Instance setup : StoreSetup :=
  Build_StoreSetup (OkStatus, simple_types) unit (fun _ => OkStatus)
    (fun _ => "get_artifacts_by_uri_request").

(** A setup whose catalog of simple types cannot be read. *)
Definition unreadable_catalog : StoreSetup :=
  Build_StoreSetup
    (InternalError "Failed to parse simple types.", mkSimpleTypes [] [] [])
    unit (fun _ => OkStatus) (fun _ => "get_artifacts_by_uri_request").

End MemQueries.

(** ** Vocabulary of the further properties *)

(** Whether two types agree on the kinds of their shared properties can be
    decided, the property maps being finite. *)
#[global] Instance no_kind_conflict_dec (S T : TypeProto.t) :
  Decision (no_kind_conflict S T).
Proof.
  refine (cast_if (decide (map_Forall
                             (fun k v => default v (TypeProto.properties T !! k) = v)
                             (TypeProto.properties S)))).
  - intros k v v' Hs Ht. specialize (m k v Hs). simpl in m.
    rewrite Ht in m. simpl in m. done.
  - intros Hno. apply n. intros k v Hs. simpl.
    destruct (TypeProto.properties T !! k) as [v'|] eqn:Ht; simpl; [|done].
    symmetry. by eapply Hno.
Defined.


(** A loop that runs a step on each element of a list and appends what
    the step returns: the steps run one after the other from the store
    [s], each on the store the one before it left; they return [rs], in
    the order of the list, and leave the store [s']. *)
Inductive in_turn {St X R : Type} (step : X -> St -> R -> St -> Prop)
    : list X -> St -> list R -> St -> Prop :=
  | in_turn_nil (s : St) : in_turn step [] s [] s
  | in_turn_cons (x : X) (rest : list X) (s s1 s' : St) (r : R) (rs : list R) :
      step x s r s1 ->
      in_turn step rest s1 rs s' ->
      in_turn step (x :: rest) s (r :: rs) s'.

Section MoreVocabulary.
Context {St : Type} `{MAO : MetadataAccessObject St}
        `{STU : SimpleTypesUtil} `{DBG : DebugStrings}.

(** The steps of the loops.  Each says what the body of the loop returned
    on the store [s] it met, and which store it left. *)

(** UpsertType returned [type_id]. *)
Definition type_upserted (k : TypeKind) (can_add_fields can_omit_fields : bool)
    (type : TypeProto.t) (s : St) (type_id : Z) (s1 : St) : Prop :=
  UpsertType k type can_add_fields can_omit_fields s = (Done type_id, s1).

(** UpsertExecution, UpsertContext returned the id: for an entity that
    carries an id, its own. *)
Definition execution_upserted (execution : Execution.t) (s : St)
    (execution_id : Z) (s1 : St) : Prop :=
  UpsertExecution execution s = (Done execution_id, s1)
  /\ forall i, Execution.opt_id execution = Some i -> execution_id = i.

Definition context_upserted (context : Context.t) (s : St)
    (context_id : Z) (s1 : St) : Prop :=
  UpsertContext context s = (Done context_id, s1)
  /\ forall i, Context.opt_id context = Some i -> context_id = i.

(** The body of the loop over the pairs of PutExecution returned
    [artifact_id]: -1 for the empty pair, which leaves the store as it is;
    the event's artifact_id for a pair with only an event; and for a pair
    with an artifact the id UpsertArtifact returned on [s], its own id when
    it carries one. *)
Definition pair_written (request : PutExecutionRequest) (execution : Execution.t)
    (execution_id : Z) (p : ArtifactAndEvent.t) (s : St) (artifact_id : Z) (s1 : St)
    : Prop :=
  put_artifact_and_event request execution execution_id p s = (Done artifact_id, s1)
  /\ match ArtifactAndEvent.opt_artifact p, ArtifactAndEvent.opt_event p with
     | None, None => artifact_id = -1 /\ s1 = s
     | None, Some event => Event.opt_artifact_id event = Some artifact_id
     | Some artifact, _ =>
         (forall i, Artifact.opt_id artifact = Some i -> artifact_id = i)
         /\ exists s2, UpsertArtifact artifact s = (Done artifact_id, s2)
     end.

(** The reuse step of PutExecution leaves the context id at -1 on [s]:
    contexts are not reused, or the lookup by type and name reports
    not-found, or the context it finds has the id -1. *)
Definition reuse_leaves_unset (request : PutExecutionRequest) (context : Context.t)
    (s : St) : Prop :=
  pe_reuse_context_if_already_exist request = false
  \/ exists status existing_context,
       FindContextByTypeIdAndContextName (Context.type_id context)
         (Context.name context) s = (status, existing_context)
       /\ (IsNotFound status = true \/ Context.id existing_context = -1).

(** The body of the loop over the contexts of PutExecution returned
    [context_id]: for a context with an id, that id, under which
    UpsertContext updated it on [s]; for a context without one, the id of
    the context found on [s] under its type and name when contexts are
    reused, and the id UpsertContext returned on [s] when the reuse step
    left the id unset. *)
Definition context_settled (request : PutExecutionRequest) (execution_id : Z)
    (artifact_ids : list Z) (context : Context.t) (s : St) (context_id : Z) (s1 : St)
    : Prop :=
  put_context request execution_id artifact_ids context s = (Done context_id, s1)
  /\ match Context.opt_id context with
     | Some i =>
         context_id = i /\ exists s2, UpsertContext context s = (Done context_id, s2)
     | None =>
         (pe_reuse_context_if_already_exist request = true
          /\ exists status existing_context,
               FindContextByTypeIdAndContextName (Context.type_id context)
                 (Context.name context) s = (status, existing_context)
               /\ ok status = true
               /\ Context.id existing_context <> -1
               /\ context_id = Context.id existing_context)
         \/ (reuse_leaves_unset request context s
             /\ exists s2, UpsertContext context s = (Done context_id, s2))
     end.

(** The access object turns down an attribution to the artifact id -1,
    with a status other than already-exists. *)
Definition rejects_unset_artifact : Prop :=
  forall context_id (s : St),
    ok_or_already_exists
      (CreateAttribution (Attribution.mk (Some context_id) (Some (-1))) s).1.1 = false.

End MoreVocabulary.

(** Two artifact types and a context type put at once, an execution of
    the sample store with its id, and an execution recorded in a context
    together with an empty pair. *)
Definition img_and_pipeline : PutTypesRequest :=
  mkPutTypesRequest [img_stored; model_named_type] []
    [TypeProto.mk None "Pipeline" None ∅ None] true false true.
Definition first_run : Execution.t := Execution.mk (Some 1) (Some 2) None.
Definition pipeline_with_run : Mem.Store :=
  (PutExecution record_run pipeline).2.
Definition record_empty_pair_in_run_42 : PutExecutionRequest :=
  mkPutExecutionRequest (Some trainer_run) [ArtifactAndEvent.mk None None]
    [run_42] true.

(** Modelled from the spec: the in-memory access object over a database
    whose ids start at 1: an attribution to an artifact id below 1, and
    the lookup of a type by an id below 1, are refused before the tables
    are read. *)
Definition ids_from_one : MetadataAccessObject Mem.Store :=
  Build_MetadataAccessObject Mem.Store
    Mem.CreateType Mem.UpdateType Mem.FindTypeByNameAndVersion
    (fun k type_id s =>
       if type_id <? 1
       then (InvalidArgumentError "A type id is at least 1.", TypeProto.empty)
       else Mem.FindTypeById k type_id s)
    Mem.FindTypes Mem.FindParentTypesByTypeId Mem.CreateParentTypeInheritanceLink
    Mem.CreateArtifact Mem.UpdateArtifact Mem.CreateExecution Mem.UpdateExecution
    Mem.CreateContext Mem.UpdateContext
    Mem.FindArtifactsById Mem.FindExecutionsById Mem.FindContextsById
    Mem.FindContextByTypeIdAndContextName
    Mem.CreateEvent Mem.CreateAssociation
    (fun attribution s =>
       if Attribution.artifact_id attribution <? 1
       then (InvalidArgumentError "No artifact is found for the attribution.", 0, s)
       else Mem.CreateAttribution attribution s)
    Mem.CreateParentContext
    Mem.ListArtifacts Mem.QueryLineageGraph.
Definition run_in_2042 : Context.t := Context.mk None (Some 3) (Some "run-2042").

(** What a caller sees of a listing: never NOT_FOUND; a next_page_token
    that is not the empty string, and none without options. *)
Definition listed {A : Type} (opt_options : option ListOperationOptions)
    (result : outcome (Page A)) : Prop :=
  outcome_code result <> kNotFound
  /\ forall page, result = Done page ->
       opt_next_page_token page <> Some ""
       /\ (opt_options = None -> opt_next_page_token page = None).

(** What a caller sees of a listing by type: never NOT_FOUND; no token
    without options; with entities in the response, a token exactly when
    the request has options, the empty token included. *)
Definition listed_by_type {A : Type} (request : GetByTypeRequest)
    (result : outcome (Page A)) : Prop :=
  outcome_code result <> kNotFound
  /\ forall page, result = Done page ->
       (bt_opt_options request = None -> opt_next_page_token page = None)
       /\ (page_items page <> [] ->
           is_Some (bt_opt_options request) -> is_Some (opt_next_page_token page)).

Section UriVocabulary.
Context {St : Type} `{REST : MetadataAccessObjectRest St}.

(** The artifacts the access object reports for the uris, one lookup
    after the other. *)
Definition artifacts_of_uris (uri_set : list string) (s : St) : list Artifact.t :=
  concat ((fun uri => (FindArtifactsByURI uri s).2) <$> uri_set).

(** The lookup of a uri stops GetArtifactsByURI with the status [e]. *)
Definition uri_lookup_fails (uri : string) (e : Status) (s : St) : Prop :=
  (FindArtifactsByURI uri s).1 = e /\ ok e = false /\ IsNotFound e = false.

End UriVocabulary.

(** The first artifact of the sample store asked for twice, with a uri
    that no artifact has. *)
Definition x_twice : GetArtifactsByURIRequest :=
  mkGetArtifactsByURIRequest [] ["x"; "nowhere"; "x"].

Section TypeReadVocabulary.
Context `{STU : SimpleTypesUtil}.

(** Two types that differ in base_type at most. *)
Definition same_but_base_type (type type' : TypeProto.t) : Prop :=
  TypeProto.opt_id type' = TypeProto.opt_id type
  /\ TypeProto.name type' = TypeProto.name type
  /\ TypeProto.opt_version type' = TypeProto.opt_version type
  /\ TypeProto.properties type' = TypeProto.properties type.

(** What SetBaseType makes of a type, given the parent types found: the
    type as it is when it has no parent, and with base_type set to the
    enum value of the parent's name otherwise. *)
Definition with_base_type (k : TypeKind) (output_parent_types : gmap Z TypeProto.t)
    (type type' : TypeProto.t) : Prop :=
  match output_parent_types !! TypeProto.id type with
  | None => type' = type
  | Some parent_type =>
      exists status type_enum,
        GetSystemTypeEnum k (mkExtension (TypeProto.name parent_type))
        = (status, type_enum)
        /\ ok status = true
        /\ type' = TypeProto.set_base_type type_enum type
  end.

End TypeReadVocabulary.

Section SetupVocabulary.
Context {St : Type} `{MAO : MetadataAccessObject St}
        `{STU : SimpleTypesUtil} `{DBG : DebugStrings} `{SETUP : StoreSetup}.

(** The types of the catalog in the order they are seeded. *)
Definition catalog_in_order (simple_types : SimpleTypes)
    : list (TypeKind * TypeProto.t) :=
  types_in_order
    (mkPutTypesRequest (st_artifact_types simple_types)
       (st_execution_types simple_types) (st_context_types simple_types)
       true true true).

(** [call] initialises the source with [init] in one transaction and seeds
    the simple types in a second one: a failed initialisation leaves the
    store as it was, a failed seeding leaves it initialised. *)
Definition seeded_after (init : St -> Status * St) (call : M unit) (s : St) : Prop :=
  forall status s1,
    init s = (status, s1) ->
    (ok status = false -> call s = (Failed status, s))
    /\ (ok status = true ->
        (ok LoadSimpleTypes.1 = false -> call s = (Failed LoadSimpleTypes.1, s1))
        /\ (ok LoadSimpleTypes.1 = true ->
            match upsert_in_order (catalog_in_order LoadSimpleTypes.2) true true s1 with
            | (Done _, s2) => call s = (Done tt, s2)
            | (Failed e, _) => call s = (Failed e, s1)
            end)).

End SetupVocabulary.

(** * Properties *)

(** ** The consistency checker *)

Section CheckerFacts.
Variable DebugString : TypeProto.t -> string.
Variables stored_type other_type : TypeProto.t.

Lemma omitted_nonneg entries : 0 <= omitted other_type entries.
Proof. unfold omitted. lia. Qed.

Lemma omitted_cons p entries :
  omitted other_type (p :: entries)
  = (if decide (TypeProto.properties other_type !! p.1 = None) then 1 else 0)
    + omitted other_type entries.
Proof.
  unfold omitted. rewrite filter_cons.
  destruct (decide (TypeProto.properties other_type !! p.1 = None)); simpl; lia.
Qed.

Lemma check_stored_properties_done can_omit_fields entries acc n :
  0 <= acc ->
  check_stored_properties DebugString stored_type other_type can_omit_fields entries acc
  = Done n ->
  agree other_type entries /\ n = acc + omitted other_type entries
  /\ (can_omit_fields = false -> entries <> [] -> n = 0).
Proof.
  revert acc. induction entries as [|[key value] rest IH]; intros acc Hacc Hrun.
  - simpl in Hrun. injection Hrun as <-. unfold omitted. simpl.
    split; [constructor|]. split; [lia|]. intros _ Hne. by destruct Hne.
  - simpl in Hrun. rewrite omitted_cons. simpl.
    destruct (TypeProto.properties other_type !! key) as [other_value|] eqn:Hlook.
    + case_bool_decide as Hv; [discriminate|].
      destruct ((0 <? acc) && negb can_omit_fields) eqn:Hguard; [discriminate|].
      destruct (IH acc Hacc Hrun) as (Hagree & Hn & Hzero).
      split.
      { constructor; [|done]. simpl. intros v' Hv'. rewrite Hlook in Hv'.
        injection Hv' as <-. destruct (decide (other_value = value)); [done|].
        by destruct Hv. }
      destruct (decide (Some other_value = None)); [discriminate|].
      split; [lia|]. intros Hno _.
      rewrite Hno in Hguard. simpl in Hguard. rewrite andb_true_r in Hguard.
      apply Z.ltb_ge in Hguard. pose proof (omitted_nonneg rest).
      destruct rest as [|p rest']; [unfold omitted in Hn; simpl in Hn; lia|].
      by apply Hzero.
    + destruct ((0 <? acc + 1) && negb can_omit_fields) eqn:Hguard; [discriminate|].
      assert (0 <= acc + 1) as Hacc' by lia.
      destruct (IH (acc + 1) Hacc' Hrun) as (Hagree & Hn & Hzero).
      split.
      { constructor; [|done]. simpl. intros v' Hv'. rewrite Hlook in Hv'. discriminate. }
      destruct (decide (@None PropertyType = None)); [|done].
      split; [lia|]. intros Hno _.
      rewrite Hno in Hguard. simpl in Hguard. rewrite andb_true_r in Hguard.
      apply Z.ltb_ge in Hguard. lia.
Qed.

Lemma check_stored_properties_run can_omit_fields entries acc :
  0 <= acc ->
  agree other_type entries ->
  can_omit_fields = true \/ (acc = 0 /\ omitted other_type entries = 0) ->
  check_stored_properties DebugString stored_type other_type can_omit_fields entries acc
  = Done (acc + omitted other_type entries).
Proof.
  revert acc. induction entries as [|[key value] rest IH]; intros acc Hacc Hagree Hside.
  - simpl. unfold omitted. simpl. f_equal. lia.
  - inversion Hagree as [|p l Hhead Htail]; subst. simpl in Hhead.
    rewrite omitted_cons in *. simpl in *. pose proof (omitted_nonneg rest) as Hnn.
    destruct (TypeProto.properties other_type !! key) as [other_value|] eqn:Hlook.
    + rewrite (Hhead other_value eq_refl).
      rewrite bool_decide_eq_false_2 by (intros Hne; by apply Hne).
      destruct (decide (Some other_value = None)); [discriminate|].
      replace ((0 <? acc) && negb can_omit_fields) with false.
      * rewrite IH; [f_equal; lia|lia|done|].
        destruct Hside as [?|[? ?]]; [by left|right; split; lia].
      * symmetry. destruct Hside as [->|[-> _]]; [apply andb_false_r|done].
    + destruct (decide (@None PropertyType = None)); [|done].
      destruct Hside as [->|[_ Hzero]]; [|lia].
      rewrite andb_false_r. rewrite IH; [f_equal; lia|lia|done|by left].
Qed.

Lemma check_stored_properties_failed can_omit_fields entries acc e :
  check_stored_properties DebugString stored_type other_type can_omit_fields entries acc
  = Failed e ->
  e = value_conflict_error DebugString stored_type other_type
  \/ e = omit_fields_error DebugString stored_type other_type.
Proof.
  revert acc. induction entries as [|[key value] rest IH]; intros acc Hrun.
  - discriminate.
  - simpl in Hrun.
    destruct (TypeProto.properties other_type !! key) as [other_value|].
    + case_bool_decide; [injection Hrun as <-; by left|].
      destruct ((0 <? acc) && negb can_omit_fields);
        [injection Hrun as <-; by right|by eapply IH].
    + destruct ((0 <? acc + 1) && negb can_omit_fields);
        [injection Hrun as <-; by right|by eapply IH].
Qed.

(** The names counted as present are those the two types share. *)
Lemma length_filter_split {A} (P : A -> Prop) `{forall x, Decision (P x)} (l : list A) :
  (length (filter P l) + length (filter (fun x => ~ P x) l) = length l)%nat.
Proof.
  induction l as [|x l IH]; [done|].
  rewrite !filter_cons. destruct (decide (P x)), (decide (~ P x)); simpl; try lia; tauto.
Qed.

Lemma present_size :
  TypeProto.properties_size stored_type
  - omitted other_type (map_to_list (TypeProto.properties stored_type))
  = Z.of_nat (size (dom (TypeProto.properties stored_type)
                    ∩ dom (TypeProto.properties other_type))).
Proof.
  unfold TypeProto.properties_size, omitted.
  set (sp := TypeProto.properties stored_type).
  set (tp := TypeProto.properties other_type).
  set (absent := fun p : string * PropertyType => tp !! p.1 = None).
  pose proof (length_filter_split absent (map_to_list sp)) as Hsplit.
  rewrite length_map_to_list in Hsplit.
  assert (size (dom sp ∩ dom tp)
          = length (filter (fun x => ~ absent x) (map_to_list sp))) as ->; [|lia].
  rewrite <- (length_fmap fst).
  rewrite <- (size_list_to_set (C := gset string)).
  - f_equal. apply set_eq. intros k.
    rewrite elem_of_intersection, !elem_of_dom, elem_of_list_to_set, list_elem_of_fmap.
    split.
    + intros [[v Hv] Hk]. exists (k, v). split; [done|].
      apply list_elem_of_filter. split.
      * unfold absent. simpl. intros Hnone. rewrite Hnone in Hk. by destruct Hk.
      * by apply elem_of_map_to_list.
    + intros [[k' v] [-> Hin]]. apply list_elem_of_filter in Hin as [Hpresent Hin].
      apply elem_of_map_to_list in Hin. simpl. split; [by exists v|].
      unfold absent in Hpresent. simpl in Hpresent.
      destruct (tp !! k') eqn:E; [by eexists|done].
  - eapply sublist_NoDup; [apply (NoDup_fst_map_to_list sp)|].
    apply fmap_sublist, sublist_filter.
Qed.

Lemma sizes_match_iff :
  (TypeProto.properties_size stored_type
   - omitted other_type (map_to_list (TypeProto.properties stored_type))
   =? TypeProto.properties_size other_type) = true
  <-> dom (TypeProto.properties other_type) ⊆ dom (TypeProto.properties stored_type).
Proof.
  rewrite present_size. unfold TypeProto.properties_size.
  rewrite Z.eqb_eq, Nat2Z.inj_iff.
  rewrite <- (size_dom (D := gset string) (TypeProto.properties other_type)).
  set (X := dom (TypeProto.properties stored_type)).
  set (Y := dom (TypeProto.properties other_type)).
  split.
  - intros Hsize.
    assert (X ∩ Y = Y) as Heq; [|set_solver].
    apply set_subseteq_size_eq; [set_solver|lia].
  - intros Hsub. assert (X ∩ Y = Y) as -> by set_solver. done.
Qed.

Lemma agree_iff :
  agree other_type (map_to_list (TypeProto.properties stored_type))
  <-> no_kind_conflict stored_type other_type.
Proof.
  unfold agree, no_kind_conflict. rewrite Forall_forall. split.
  - intros Hall k v v' Hs Ht.
    symmetry. apply (Hall (k, v)); [by apply elem_of_map_to_list|done].
  - intros Hno [k v] Hin v' Ht. apply elem_of_map_to_list in Hin.
    symmetry. by eapply Hno.
Qed.

Lemma omitted_zero_iff :
  omitted other_type (map_to_list (TypeProto.properties stored_type)) = 0
  <-> dom (TypeProto.properties stored_type) ⊆ dom (TypeProto.properties other_type).
Proof.
  unfold omitted. split.
  - intros Hzero k Hk. apply elem_of_dom in Hk as [v Hv]. apply elem_of_dom.
    destruct (TypeProto.properties other_type !! k) eqn:E; [by eexists|].
    assert ((k, v) ∈ filter (fun p : string * PropertyType =>
                               TypeProto.properties other_type !! p.1 = None)
                       (map_to_list (TypeProto.properties stored_type))) as Hin.
    { apply list_elem_of_filter. split; [done|by apply elem_of_map_to_list]. }
    destruct (filter _ _); [by apply elem_of_nil in Hin|simpl in Hzero; lia].
  - intros Hsub.
    destruct (filter _ _) as [|[k v] rest] eqn:E; [done|].
    assert ((k, v) ∈ filter (fun p : string * PropertyType =>
                               TypeProto.properties other_type !! p.1 = None)
                       (map_to_list (TypeProto.properties stored_type))) as Hin.
    { rewrite E. apply list_elem_of_here. }
    apply list_elem_of_filter in Hin as [Hnone Hin]. simpl in Hnone.
    apply elem_of_map_to_list in Hin.
    assert (k ∈ dom (TypeProto.properties other_type)) as Hk.
    { apply Hsub, elem_of_dom. by eexists. }
    apply elem_of_dom in Hk as [? Hk]. congruence.
Qed.

Lemma add_new_properties_step (entries : list (string * PropertyType))
    (acc : gmap string PropertyType) :
  NoDup entries.*1 ->
  (forall k, k ∈ entries.*1 -> TypeProto.properties stored_type !! k = None ->
             acc !! k = None) ->
  (forall k, is_Some (TypeProto.properties stored_type !! k) -> is_Some (acc !! k)) ->
  add_new_properties stored_type entries acc = acc ∪ list_to_map entries.
Proof.
  revert acc. induction entries as [|[k v] rest IH]; intros acc Hdup Hfresh Hkeep.
  - simpl. by rewrite (right_id_L ∅ (∪)).
  - simpl in *. apply NoDup_cons in Hdup as [Hk Hdup].
    unfold add_new_properties in *. simpl.
    destruct (TypeProto.properties stored_type !! k) as [x|] eqn:Hs.
    + rewrite IH; [|done| |done].
      * destruct (Hkeep k) as [y Hy]; [by eexists|].
        apply map_eq. intros j. rewrite !lookup_union.
        destruct (decide (j = k)) as [->|Hne].
        -- rewrite Hy, lookup_insert_eq. by destruct (list_to_map rest !! k).
        -- by rewrite lookup_insert_ne.
      * intros j Hj. apply Hfresh. by right.
    + rewrite IH; [|done| |].
      * rewrite <- insert_union_l, insert_union_r; [done|].
        apply Hfresh; [by left|done].
      * intros j Hj Hnone. rewrite lookup_insert_ne; [|intros ->; done].
        apply Hfresh; [by right|done].
      * intros j Hj. destruct (decide (j = k)) as [->|Hne].
        -- rewrite lookup_insert_eq. by eexists.
        -- rewrite lookup_insert_ne; [by apply Hkeep|done].
Qed.

Lemma add_new_properties_union :
  add_new_properties stored_type (map_to_list (TypeProto.properties other_type))
    (TypeProto.properties stored_type)
  = TypeProto.properties stored_type ∪ TypeProto.properties other_type.
Proof.
  rewrite add_new_properties_step.
  - by rewrite list_to_map_to_list.
  - apply NoDup_fst_map_to_list.
  - done.
  - done.
Qed.

Lemma union_absorbs :
  dom (TypeProto.properties other_type) ⊆ dom (TypeProto.properties stored_type) ->
  TypeProto.properties stored_type ∪ TypeProto.properties other_type
  = TypeProto.properties stored_type.
Proof.
  intros Hsub. apply map_eq. intros k. rewrite lookup_union.
  destruct (TypeProto.properties stored_type !! k) eqn:Hs;
    [by destruct (TypeProto.properties other_type !! k)|].
  destruct (TypeProto.properties other_type !! k) eqn:Ht; [|done].
  assert (k ∈ dom (TypeProto.properties stored_type)) as Hk.
  { apply Hsub, elem_of_dom. by eexists. }
  apply elem_of_dom in Hk as [? Hk]. congruence.
Qed.

(** When the checker accepts, and what it returns. *)
Lemma CheckFieldsConsistent_Done can_add_fields can_omit_fields output_type :
  CheckFieldsConsistent DebugString stored_type other_type can_add_fields can_omit_fields
  = Done output_type
  <-> TypeProto.name stored_type = TypeProto.name other_type
      /\ no_kind_conflict stored_type other_type
      /\ (can_omit_fields = true
          \/ dom (TypeProto.properties stored_type) ⊆ dom (TypeProto.properties other_type))
      /\ (can_add_fields = true
          \/ dom (TypeProto.properties other_type) ⊆ dom (TypeProto.properties stored_type))
      /\ output_type
         = TypeProto.set_properties
             (TypeProto.properties stored_type ∪ TypeProto.properties other_type)
             stored_type.
Proof.
  unfold CheckFieldsConsistent. split.
  - case_bool_decide as Hname; [discriminate|].
    destruct (check_stored_properties _ _ _ _ _ _) as [n|e] eqn:Hloop; [|discriminate].
    apply check_stored_properties_done in Hloop as (Hagree & Hn & Hzero); [|lia].
    apply agree_iff in Hagree. rewrite Z.add_0_l in Hn. subst n.
    assert (can_omit_fields = true
            \/ dom (TypeProto.properties stored_type)
               ⊆ dom (TypeProto.properties other_type)) as Homit.
    { destruct can_omit_fields; [by left|right].
      destruct (map_to_list (TypeProto.properties stored_type)) eqn:E.
      - apply map_to_list_empty_iff in E. rewrite E. set_solver.
      - apply omitted_zero_iff. rewrite E. by apply Hzero. }
    intros Hrun. split; [by destruct (decide (TypeProto.name stored_type = TypeProto.name other_type)); [|destruct Hname]|].
    split; [done|]. split; [done|].
    destruct (_ =? _) eqn:Hsize.
    + apply sizes_match_iff in Hsize. injection Hrun as <-.
      split; [by right|]. rewrite union_absorbs by done. by destruct stored_type.
    + destruct can_add_fields; [|discriminate]. simpl in Hrun. injection Hrun as <-.
      split; [by left|]. by rewrite add_new_properties_union.
  - intros (Hname & Hno & Homit & Hadd & ->).
    rewrite bool_decide_eq_false_2 by (intros Hne; by apply Hne).
    rewrite check_stored_properties_run; [|lia|by apply agree_iff|].
    + rewrite Z.add_0_l.
      destruct (_ =? _) eqn:Hsize.
      * apply sizes_match_iff in Hsize. rewrite union_absorbs by done.
        by destruct stored_type.
      * destruct Hadd as [->|Hsub].
        -- simpl. by rewrite add_new_properties_union.
        -- apply sizes_match_iff in Hsub. congruence.
    + destruct Homit as [?|Hsub]; [by left|right]. split; [done|].
      by apply omitted_zero_iff.
Qed.

Lemma CheckFieldsConsistent_Failed can_add_fields can_omit_fields e :
  CheckFieldsConsistent DebugString stored_type other_type can_add_fields can_omit_fields
  = Failed e ->
  code e = kFailedPrecondition.
Proof.
  unfold CheckFieldsConsistent.
  case_bool_decide; [by intros [= <-]|].
  destruct (check_stored_properties _ _ _ _ _ _) as [n|e'] eqn:Hloop.
  - destruct (_ =? _); [discriminate|].
    destruct can_add_fields; [discriminate|]. by intros [= <-].
  - intros [= <-]. by apply check_stored_properties_failed in Hloop as [->| ->].
Qed.
End CheckerFacts.

(** ** The store monad *)

Ltac monad_unfold :=
  unfold bind, ret, fail, query, update, update_, check, Execute in *.

Lemma ok_not_IsNotFound status : ok status = true -> IsNotFound status = false.
Proof.
  unfold ok, IsNotFound. intros Hok. apply bool_decide_eq_true in Hok.
  apply bool_decide_eq_false. congruence.
Qed.

Section TypeStoreFacts.
Context {St : Type} `{MAO : MetadataAccessObject St}
        `{STU : SimpleTypesUtil} `{DBG : DebugStrings}.

Lemma schema_grows_refl (s : St) : schema_grows s s.
Proof. intros k i m Hm. by exists m. Qed.

Lemma schema_grows_trans (s1 s2 s3 : St) :
  schema_grows s1 s2 -> schema_grows s2 s3 -> schema_grows s1 s3.
Proof.
  intros H12 H23 k i m Hm.
  destruct (H12 k i m Hm) as (m2 & Hm2 & Hsub2).
  destruct (H23 k i m2 Hm2) as (m3 & Hm3 & Hsub3).
  exists m3. split; [done|]. by etrans.
Qed.

Lemma UpsertTypeInheritanceLink_grows k type type_id (s s' : St) r :
  TypeStoreLaws ->
  UpsertTypeInheritanceLink k type type_id s = (Done r, s') ->
  schema_grows s s'.
Proof.
  intros Hlaws. unfold UpsertTypeInheritanceLink. monad_unfold.
  destruct (TypeProto.has_base_type type); simpl;
    [|intros [= _ <-]; apply schema_grows_refl].
  destruct (GetSystemTypeExtension k type) as [st ext].
  destruct (ok st); [|discriminate].
  destruct (IsUnsetBaseType ext); [discriminate|].
  destruct (FindParentTypesByTypeId k [type_id] s) as [st1 parents].
  destruct (ok st1); [|discriminate].
  destruct (bool_decide (is_Some (parents !! type_id))); simpl.
  - case_bool_decide; [discriminate|]. intros [= _ <-]. apply schema_grows_refl.
  - destruct (FindTypeByNameAndVersion k (ext_type_name ext) None s) as [st2 base].
    destruct (ok st2); [|discriminate].
    destruct (CreateParentTypeInheritanceLink k _ base s) as [st3 s3] eqn:Hlink.
    destruct (ok st3) eqn:Hok; [|discriminate].
    intros [= _ <-]. by eapply create_link_grows.
Qed.

Lemma UpsertType_grows k type can_add_fields can_omit_fields (s s' : St) type_id :
  TypeStoreLaws ->
  UpsertType k type can_add_fields can_omit_fields s = (Done type_id, s') ->
  schema_grows s s'.
Proof.
  intros Hlaws. unfold UpsertType.
  destruct (FindTypeByNameAndVersion k _ _ s) as [status stored_type] eqn:Hfind.
  destruct (negb (ok status) && negb (IsNotFound status)) eqn:Herr; [discriminate|].
  destruct (IsNotFound status) eqn:Hnf.
  - monad_unfold.
    destruct (CreateType k type s) as [[st1 i] s1] eqn:Hcreate.
    destruct (ok st1) eqn:Hok1; [|discriminate].
    destruct (UpsertTypeInheritanceLink k type i s1) as [[r|e] s2] eqn:Hlink;
      [|discriminate].
    intros [= _ <-].
    eapply schema_grows_trans; [by eapply create_type_grows|].
    by eapply UpsertTypeInheritanceLink_grows.
  - simpl in Herr. rewrite andb_true_r in Herr. apply negb_false_iff in Herr.
    destruct (CheckFieldsConsistent _ _ _ _ _) as [output_type|e] eqn:Hcheck;
      [|discriminate].
    apply CheckFieldsConsistent_Done in Hcheck as (_ & _ & _ & _ & ->).
    monad_unfold.
    destruct (UpdateType k _ s) as [st1 s1] eqn:Hupdate.
    destruct (ok st1) eqn:Hok1; [|discriminate].
    destruct (UpsertTypeInheritanceLink k type _ s1) as [[r|e] s2] eqn:Hlink;
      [|discriminate].
    intros [= _ <-].
    eapply schema_grows_trans; [|by eapply UpsertTypeInheritanceLink_grows].
    eapply update_type_grows; [done|exact Hupdate|done|].
    intros i m Hid Hm. simpl in *.
    destruct (find_by_name_has_id Hlaws _ _ _ _ _ _ Hfind Herr)
      as (i0 & st' & Hid0 & Hbyid & Hok').
    assert (i = i0) as -> by congruence.
    unfold stored_schema in Hm. rewrite Hbyid, Hok' in Hm. injection Hm as <-.
    apply map_union_subseteq_l.
Qed.

Lemma upsert_steps_grow (s s' : St) :
  TypeStoreLaws -> rtc upsert_step s s' -> schema_grows s s'.
Proof.
  intros Hlaws Hsteps. induction Hsteps as [s|s1 s2 s3 Hstep _ IH].
  - apply schema_grows_refl.
  - destruct Hstep as (k & type & a & o & i & Hrun).
    eapply schema_grows_trans; [by eapply UpsertType_grows|done].
Qed.

End TypeStoreFacts.

(** ** The in-memory access object *)

Section MemFacts.

Lemma max_id_bound (ids : list Z) (i : Z) : i ∈ ids -> i <= Mem.max_id ids.
Proof.
  induction ids as [|j ids IH]; intros Hin.
  - by apply elem_of_nil in Hin.
  - apply elem_of_cons in Hin as [->|Hin]; simpl; [lia|].
    specialize (IH Hin). lia.
Qed.

Lemma next_id_fresh {A} (table : gmap Z A) : table !! Mem.next_id table = None.
Proof.
  destruct (table !! Mem.next_id table) as [x|] eqn:Hlook; [|done].
  apply elem_of_map_to_list in Hlook.
  assert (Mem.next_id table ∈ (map_to_list table).*1) as Hin.
  { apply list_elem_of_fmap. by exists (Mem.next_id table, x). }
  apply max_id_bound in Hin. unfold Mem.next_id in Hin. lia.
Qed.

Lemma mem_stored_schema (k : TypeKind) (i : Z) (s : Mem.Store) :
  stored_schema k i s = Mem.row_properties <$> Mem.lookup_type_by_id k i s.
Proof.
  unfold stored_schema. simpl. unfold Mem.FindTypeById.
  by destruct (Mem.lookup_type_by_id k i s).
Qed.

Lemma mem_lookup_type_by_id_set k i (s : Mem.Store) f :
  Mem.lookup_type_by_id k i (Mem.set_types f s)
  = match f (Mem.types s) !! i with
    | Some row => if bool_decide (Mem.row_kind row = k) then Some row else None
    | None => None
    end.
Proof. done. Qed.

Lemma mem_lookup_type (k : TypeKind) (n : string) (v : option string)
    (s : Mem.Store) (i : Z) (row : Mem.TypeRow) :
  Mem.lookup_type k n v s = Some (i, row) ->
  Mem.lookup_type_by_id k i s = Some row /\ Mem.row_name row = n.
Proof.
  unfold Mem.lookup_type, Mem.lookup_type_by_id.
  destruct (list_find _ _) as [[pos [j r]]|] eqn:Hfind; [|discriminate].
  simpl. intros [= -> ->].
  apply list_find_Some in Hfind as (Hpos & Hmatch & _).
  apply list_elem_of_lookup_2, elem_of_map_to_list in Hpos. rewrite Hpos.
  unfold Mem.row_matches in Hmatch. simpl in Hmatch.
  apply andb_true_iff in Hmatch as [Hmatch _].
  apply andb_true_iff in Hmatch as [Hkind Hname].
  rewrite Hkind. split; [done|]. by apply bool_decide_eq_true in Hname.
Qed.

Lemma mem_type_store_laws : TypeStoreLaws (St := Mem.Store).
Proof.
  split.
  - intros k n v s status type. simpl. unfold Mem.FindTypeByNameAndVersion.
    destruct (Mem.lookup_type k n v s) as [[i row]|] eqn:Hlook; [|by intros [= <- _]].
    intros [= <- <-] _. apply mem_lookup_type in Hlook as [Hrow _].
    exists i, OkStatus. split; [done|]. split; [|done].
    unfold Mem.FindTypeById. by rewrite Hrow.
  - intros k type s status i s'. simpl. unfold Mem.CreateType.
    case_bool_decide; [by intros [= <- _ _]|].
    destruct (Mem.lookup_type _ _ _ _); [by intros [= <- _ _]|].
    intros [= _ _ <-] _ k' j m. rewrite !mem_stored_schema.
    rewrite mem_lookup_type_by_id_set. unfold Mem.lookup_type_by_id.
    destruct (Mem.types s !! j) as [row|] eqn:Hj; [|discriminate].
    rewrite lookup_insert_ne, Hj.
    + intros Hm. by exists m.
    + intros <-. by rewrite next_id_fresh in Hj.
  - intros k type s status s'. simpl. unfold Mem.UpdateType.
    destruct (TypeProto.opt_id type) as [i|]; [|by intros [= <- _]].
    destruct (Mem.lookup_type_by_id k i s) as [row|] eqn:Hrow; [|by intros [= <- _]].
    intros [= _ <-] _ _ k' j m. rewrite !mem_stored_schema.
    rewrite mem_lookup_type_by_id_set.
    destruct (decide (j = i)) as [->|Hne].
    + rewrite lookup_insert_eq. simpl.
      unfold Mem.lookup_type_by_id in *.
      destruct (Mem.types s !! i) as [row0|]; [|discriminate].
      case_bool_decide; [|discriminate]. injection Hrow as ->.
      case_bool_decide; [|discriminate]. simpl. intros [= <-].
      eexists. split; [done|]. apply map_union_subseteq_l.
    + rewrite lookup_insert_ne by done. intros Hm. by exists m.
  - intros k type parent_type s status s'. simpl.
    unfold Mem.CreateParentTypeInheritanceLink.
    intros Hrun Hok. assert (Mem.types s' = Mem.types s) as Htypes.
    { destruct (TypeProto.opt_id type) as [i|], (TypeProto.opt_id parent_type) as [p|];
        try (by injection Hrun as _ <-).
      destruct (Mem.lookup_type_by_id k i s); [|by injection Hrun as _ <-].
      destruct (Mem.lookup_type_by_id k p s); [|by injection Hrun as _ <-].
      case_bool_decide; by injection Hrun as _ <-. }
    intros k' j m. rewrite !mem_stored_schema. unfold Mem.lookup_type_by_id.
    rewrite Htypes. intros Hm. by exists m.
Qed.

End MemFacts.

(** ** Type schema evolution *)

Lemma not_omits_property (S T : TypeProto.t) :
  ~ omits_property S T ->
  dom (TypeProto.properties S) ⊆ dom (TypeProto.properties T).
Proof.
  intros Hno k Hk. apply elem_of_dom in Hk. apply elem_of_dom.
  destruct (TypeProto.properties T !! k) eqn:Ht; [by eexists|].
  destruct Hno. by exists k.
Qed.

Lemma adds_property_not_subset (S T : TypeProto.t) :
  adds_property S T ->
  ~ dom (TypeProto.properties T) ⊆ dom (TypeProto.properties S).
Proof.
  intros (k & Ht & Hs) Hsub.
  assert (k ∈ dom (TypeProto.properties S)) as Hk by by apply Hsub, elem_of_dom.
  apply elem_of_dom in Hk as [? Hk]. congruence.
Qed.

(** C1, as amended.  For a stored type S and a given type T with equal
    names and no property-kind conflict, when T introduces new property
    names, can_add_fields is true, and either can_omit_fields is true or T
    omits no property of S, the consistency check succeeds and its output is
    S with the properties S ∪ T: S's kind for every name S has, T's kind
    for the names only T has.  Over any access object that keeps the type
    store laws, any sequence of successful type upserts leaves every stored
    type in place with all its properties at their kinds. *)
Theorem check_adds_properties_and_schema_grows
    {St : Type} `{MAO : MetadataAccessObject St}
    `{STU : SimpleTypesUtil} `{DBG : DebugStrings}
    (stored_type other_type : TypeProto.t) (can_omit_fields : bool) :
  TypeProto.name stored_type = TypeProto.name other_type ->
  no_kind_conflict stored_type other_type ->
  adds_property stored_type other_type ->
  can_omit_fields = true \/ ~ omits_property stored_type other_type ->
  TypeStoreLaws (St := St) ->
  CheckFieldsConsistent DebugString_Type stored_type other_type true can_omit_fields
  = Done (TypeProto.set_properties
            (TypeProto.properties stored_type ∪ TypeProto.properties other_type)
            stored_type)
  /\ (forall k,
        (TypeProto.properties stored_type ∪ TypeProto.properties other_type) !! k
        = match TypeProto.properties stored_type !! k with
          | Some v => Some v
          | None => TypeProto.properties other_type !! k
          end)
  /\ (forall s s' : St, rtc upsert_step s s' -> schema_grows s s').
Proof.
  intros Hname Hno Hadds Homit Hlaws. split; [|split].
  - apply CheckFieldsConsistent_Done. split; [done|]. split; [done|].
    split; [|split; [by left|done]].
    destruct Homit as [?|Homit]; [by left|right]. by apply not_omits_property.
  - intros k. rewrite lookup_union.
    destruct (TypeProto.properties stored_type !! k);
      by destruct (TypeProto.properties other_type !! k).
  - intros s s'. by apply upsert_steps_grow.
Qed.

Lemma img_widened_no_conflict : no_kind_conflict img_stored img_widened.
Proof.
  intros k v v'. simpl. intros Hs Ht.
  apply lookup_singleton_Some in Hs as [<- <-].
  rewrite lookup_insert_ne in Ht by done.
  by apply lookup_singleton_Some in Ht as [_ <-].
Qed.

Lemma img_widened_adds : adds_property img_stored img_widened.
Proof. exists "w". split; [by eexists|done]. Qed.

Lemma img_widened_omits_nothing : ~ omits_property img_stored img_widened.
Proof.
  intros (k & [v Hs] & Ht). simpl in *.
  apply lookup_singleton_Some in Hs as [<- _]. discriminate.
Qed.

Lemma check_adds_properties_and_schema_grows_witness :
  CheckFieldsConsistent (DebugString_Type (DebugStrings := Mem.debug_strings))
    img_stored img_widened true false
  = Done (TypeProto.set_properties
            (TypeProto.properties img_stored ∪ TypeProto.properties img_widened)
            img_stored)
  /\ (forall k,
        (TypeProto.properties img_stored ∪ TypeProto.properties img_widened) !! k
        = match TypeProto.properties img_stored !! k with
          | Some v => Some v
          | None => TypeProto.properties img_widened !! k
          end)
  /\ (forall s s' : Mem.Store, rtc upsert_step s s' -> schema_grows s s').
Proof.
  apply (check_adds_properties_and_schema_grows img_stored img_widened false).
  - reflexivity.
  - exact img_widened_no_conflict.
  - exact img_widened_adds.
  - right. exact img_widened_omits_nothing.
  - exact mem_type_store_laws.
Defined.

(** C1 as stated fails: with can_add_fields true and can_omit_fields false,
    a given type that adds "w" and leaves out the stored "u" has the stored
    name, no kind conflict and a new property, and the check rejects it. *)
Lemma check_rejects_omission_when_adding :
  TypeProto.name img_stored = TypeProto.name img_replaced
  /\ no_kind_conflict img_stored img_replaced
  /\ adds_property img_stored img_replaced
  /\ CheckFieldsConsistent (DebugString_Type (DebugStrings := Mem.debug_strings))
       img_stored img_replaced true false
     = Failed (omit_fields_error DebugString_Type img_stored img_replaced).
Proof.
  split; [done|]. split; [|split].
  - intros k v v'. simpl. intros Hs Ht.
    apply lookup_singleton_Some in Hs as [<- _].
    by apply lookup_singleton_Some in Ht as [? _].
  - exists "w". split; [by eexists|done].
  - vm_compute. reflexivity.
Qed.

(** ** The type upsert engine *)

Section UpsertFacts.
Context {St : Type} `{MAO : MetadataAccessObject St}
        `{STU : SimpleTypesUtil} `{DBG : DebugStrings}.

Lemma inconsistent_fails (stored_type type : TypeProto.t)
    (can_add_fields can_omit_fields : bool) :
  inconsistent stored_type type can_add_fields can_omit_fields ->
  exists e,
    CheckFieldsConsistent DebugString_Type stored_type type can_add_fields can_omit_fields
    = Failed e.
Proof.
  intros Hbad.
  destruct (CheckFieldsConsistent _ _ _ _ _) as [output_type|e] eqn:Hcheck;
    [|by exists e].
  apply CheckFieldsConsistent_Done in Hcheck as (_ & Hno & Homit & Hadd & _).
  destruct Hbad as [Hconflict|[[Homits ->]|[Hadds ->]]].
  - by destruct Hconflict.
  - destruct Homit as [?|Hsub]; [done|].
    destruct Homits as (k & Hs & Ht).
    assert (k ∈ dom (TypeProto.properties type)) as Hk by by apply Hsub, elem_of_dom.
    apply elem_of_dom in Hk as [? Hk]. congruence.
  - destruct Hadd as [?|Hsub]; [done|].
    by apply adds_property_not_subset in Hadds.
Qed.

Lemma upsert_in_order_app (pre post : list (TypeKind * TypeProto.t))
    (can_add_fields can_omit_fields : bool) (s : St) :
  upsert_in_order (pre ++ post) can_add_fields can_omit_fields s
  = (upsert_in_order pre can_add_fields can_omit_fields ;;;
     upsert_in_order post can_add_fields can_omit_fields) s.
Proof.
  revert s. induction pre as [|[k type] pre IH]; intros s; [done|].
  simpl. unfold bind in *.
  destruct (UpsertType k type can_add_fields can_omit_fields s) as [[i|e] s1]; [|done].
  apply IH.
Qed.

Lemma upsert_type_list_in_order (k : TypeKind) (types : list TypeProto.t)
    (can_add_fields can_omit_fields : bool) (ids : list Z) (s : St) :
  match upsert_in_order ((fun type => (k, type)) <$> types)
          can_add_fields can_omit_fields s with
  | (Done _, s') =>
      exists ids', upsert_type_list k types can_add_fields can_omit_fields ids s
                   = (Done ids', s')
  | (Failed e, s') =>
      upsert_type_list k types can_add_fields can_omit_fields ids s = (Failed e, s')
  end.
Proof.
  revert ids s. induction types as [|type rest IH]; intros ids s; simpl.
  - by exists ids.
  - unfold bind.
    destruct (UpsertType k type can_add_fields can_omit_fields s) as [[i|e] s1]; [|done].
    apply IH.
Qed.

Lemma UpsertTypes_fails (artifact_types execution_types context_types : list TypeProto.t)
    (can_add_fields can_omit_fields : bool) (response : PutTypesResponse)
    (s s' : St) (e : Status) :
  upsert_in_order
    (types_in_order (mkPutTypesRequest artifact_types execution_types context_types
                       can_add_fields can_omit_fields true))
    can_add_fields can_omit_fields s = (Failed e, s') ->
  exists s'',
    UpsertTypes artifact_types execution_types context_types
      can_add_fields can_omit_fields response s = (Failed e, s'').
Proof.
  unfold types_in_order, UpsertTypes. simpl.
  rewrite upsert_in_order_app. unfold bind.
  pose proof (upsert_type_list_in_order ARTIFACT_TYPE artifact_types
                can_add_fields can_omit_fields (artifact_type_ids response) s) as Ha.
  destruct (upsert_in_order (_ <$> artifact_types) _ _ s) as [[[]|ea] s1];
    [|rewrite Ha; intros [= <- <-]; by eexists].
  destruct Ha as [a_ids ->].
  rewrite upsert_in_order_app. unfold bind.
  pose proof (upsert_type_list_in_order EXECUTION_TYPE execution_types
                can_add_fields can_omit_fields (execution_type_ids response) s1) as He.
  destruct (upsert_in_order (_ <$> execution_types) _ _ s1) as [[[]|ee] s2];
    [|rewrite He; intros [= <- <-]; by eexists].
  destruct He as [e_ids ->].
  pose proof (upsert_type_list_in_order CONTEXT_TYPE context_types
                can_add_fields can_omit_fields (context_type_ids response) s2) as Hc.
  destruct (upsert_in_order (_ <$> context_types) _ _ s2) as [[[]|ec] s3];
    [intros Hrun; discriminate Hrun|].
  rewrite Hc. intros [= <- <-]. by eexists.
Qed.

Lemma UpsertType_conflict (k : TypeKind) (type stored_type : TypeProto.t)
    (can_add_fields can_omit_fields : bool) (s : St) (status e : Status) :
  FindTypeByNameAndVersion k (TypeProto.name type) (Some (TypeProto.version type)) s
  = (status, stored_type) ->
  ok status = true ->
  CheckFieldsConsistent DebugString_Type stored_type type can_add_fields can_omit_fields
  = Failed e ->
  UpsertType k type can_add_fields can_omit_fields s = (Failed (type_already_exists e), s).
Proof.
  intros Hfind Hok Hcheck. unfold UpsertType. rewrite Hfind, Hok. simpl.
  assert (IsNotFound status = false) as ->.
  { unfold ok, IsNotFound in *. apply bool_decide_eq_true in Hok.
    apply bool_decide_eq_false. congruence. }
  by rewrite Hcheck.
Qed.

Lemma UpsertTypes_in_order (artifact_types execution_types context_types :
    list TypeProto.t) (can_add_fields can_omit_fields : bool)
    (response : PutTypesResponse) (s : St) :
  match upsert_in_order
          (types_in_order
             (mkPutTypesRequest artifact_types execution_types context_types
                can_add_fields can_omit_fields true))
          can_add_fields can_omit_fields s with
  | (Done _, s') =>
      exists ids, UpsertTypes artifact_types execution_types context_types
                    can_add_fields can_omit_fields response s = (Done ids, s')
  | (Failed e, s') =>
      UpsertTypes artifact_types execution_types context_types
        can_add_fields can_omit_fields response s = (Failed e, s')
  end.
Proof.
  unfold types_in_order, UpsertTypes. simpl.
  rewrite upsert_in_order_app. unfold bind.
  pose proof (upsert_type_list_in_order ARTIFACT_TYPE artifact_types can_add_fields
                can_omit_fields (artifact_type_ids response) s) as Ha.
  destruct (upsert_in_order (_ <$> artifact_types) _ _ s) as [[[]|e] s1];
    [destruct Ha as [a_ids ->]|by rewrite Ha].
  rewrite upsert_in_order_app. unfold bind.
  pose proof (upsert_type_list_in_order EXECUTION_TYPE execution_types can_add_fields
                can_omit_fields (execution_type_ids response) s1) as He.
  destruct (upsert_in_order (_ <$> execution_types) _ _ s1) as [[[]|e] s2];
    [destruct He as [e_ids ->]|by rewrite He].
  pose proof (upsert_type_list_in_order CONTEXT_TYPE context_types can_add_fields
                can_omit_fields (context_type_ids response) s2) as Hc.
  destruct (upsert_in_order (_ <$> context_types) _ _ s2) as [[[]|e] s3];
    [destruct Hc as [c_ids ->]; by eexists|by rewrite Hc].
Qed.

Lemma PutTypes_in_order (request : PutTypesRequest) (s : St) :
  pts_all_fields_match request = true ->
  match upsert_in_order (types_in_order request) (pts_can_add_fields request)
          (pts_can_omit_fields request) s with
  | (Done _, s') => exists response, PutTypes request s = (Done response, s')
  | (Failed e, _) => PutTypes request s = (Failed e, s)
  end.
Proof.
  destruct request as [arts execs ctxs a o m]. simpl. intros ->.
  unfold PutTypes, Execute. simpl.
  pose proof (UpsertTypes_in_order arts execs ctxs a o (mkPutTypesResponse [] [] []) s)
    as Hrun.
  destruct (upsert_in_order _ a o s) as [[[]|e] s1].
  - destruct Hrun as [ids ->]. by exists ids.
  - by rewrite Hrun.
Qed.

Lemma PutType_Execute (k : TypeKind) (type : TypeProto.t)
    (can_add_fields can_omit_fields : bool) (s : St) :
  PutType k (mkPutTypeRequest type can_add_fields can_omit_fields true) s
  = Execute (UpsertType k type can_add_fields can_omit_fields) s.
Proof.
  destruct k; simpl; unfold PutArtifactType, PutExecutionType, PutContextType; simpl;
    unfold Execute, bind, ret;
    by destruct (UpsertType _ type can_add_fields can_omit_fields s) as [[i|e] s1].
Qed.

End UpsertFacts.

(** C2.  Each type of a Put{Artifact,Execution,Context}Type or PutTypes
    request goes through UpsertType, which looks the type up by name and
    version.  Not found: the type is created and the base-type link
    applied, whatever the two flags are.  Found, and the check fails (as it
    does on a kind conflict, on an omitted property with can_omit_fields
    false, on an added property with can_add_fields false): the endpoint
    returns ALREADY_EXISTS whose message is the fixed prefix followed by
    the checker's message, and the store is as before.  Found, and the
    check succeeds: its output goes to UpdateType, and the base-type link
    is applied next.  The single-type endpoints are the creation, or the
    update, run in a transaction; PutTypes runs the upsert of the type on
    the store the types before it left, then the types after it, and
    commits what they wrote when all succeed. *)
Theorem upsert_type_creates_rejects_or_updates
    {St : Type} `{MAO : MetadataAccessObject St}
    `{STU : SimpleTypesUtil} `{DBG : DebugStrings}
    (k : TypeKind) (type : TypeProto.t) (can_add_fields can_omit_fields : bool)
    (s : St) (status : Status) (stored_type : TypeProto.t) :
  FindTypeByNameAndVersion k (TypeProto.name type) (Some (TypeProto.version type)) s
  = (status, stored_type) ->
  (IsNotFound status = true ->
   forall a o,
     UpsertType k type a o s
     = (type_id <- update (CreateType k type) ;;
        UpsertTypeInheritanceLink k type type_id ;;;
        ret type_id) s)
  /\ (ok status = true ->
      inconsistent stored_type type can_add_fields can_omit_fields ->
      exists e,
        CheckFieldsConsistent DebugString_Type stored_type type
          can_add_fields can_omit_fields = Failed e)
  /\ (ok status = true ->
      forall e,
        CheckFieldsConsistent DebugString_Type stored_type type
          can_add_fields can_omit_fields = Failed e ->
        code (type_already_exists e) = kAlreadyExists
        /\ UpsertType k type can_add_fields can_omit_fields s
           = (Failed (type_already_exists e), s)
        /\ PutType k (mkPutTypeRequest type can_add_fields can_omit_fields true) s
           = (Failed (type_already_exists e), s)
        /\ (forall request pre post s0,
              pts_all_fields_match request = true ->
              pts_can_add_fields request = can_add_fields ->
              pts_can_omit_fields request = can_omit_fields ->
              types_in_order request = (pre ++ (k, type) :: post)%list ->
              upsert_in_order pre can_add_fields can_omit_fields s0 = (Done tt, s) ->
              PutTypes request s0 = (Failed (type_already_exists e), s0)))
  /\ (ok status = true ->
      forall output_type,
        CheckFieldsConsistent DebugString_Type stored_type type
          can_add_fields can_omit_fields = Done output_type ->
        UpsertType k type can_add_fields can_omit_fields s
        = (update_ (UpdateType k output_type) ;;;
           UpsertTypeInheritanceLink k type (TypeProto.id stored_type) ;;;
           ret (TypeProto.id stored_type)) s)
  /\ (IsNotFound status = true ->
      forall a o,
        PutType k (mkPutTypeRequest type a o true) s
        = Execute (type_id <- update (CreateType k type) ;;
                   UpsertTypeInheritanceLink k type type_id ;;;
                   ret type_id) s)
  /\ (ok status = true ->
      forall output_type,
        CheckFieldsConsistent DebugString_Type stored_type type
          can_add_fields can_omit_fields = Done output_type ->
        PutType k (mkPutTypeRequest type can_add_fields can_omit_fields true) s
        = Execute (update_ (UpdateType k output_type) ;;;
                   UpsertTypeInheritanceLink k type (TypeProto.id stored_type) ;;;
                   ret (TypeProto.id stored_type)) s)
  /\ (forall request pre post s0,
        pts_all_fields_match request = true ->
        pts_can_add_fields request = can_add_fields ->
        pts_can_omit_fields request = can_omit_fields ->
        types_in_order request = (pre ++ (k, type) :: post)%list ->
        upsert_in_order pre can_add_fields can_omit_fields s0 = (Done tt, s) ->
        match (UpsertType k type can_add_fields can_omit_fields ;;;
               upsert_in_order post can_add_fields can_omit_fields) s with
        | (Done _, s') => exists response, PutTypes request s0 = (Done response, s')
        | (Failed e, _) => PutTypes request s0 = (Failed e, s0)
        end).
Proof.
  assert (ok status = true -> IsNotFound status = false) as Hfound
    by apply ok_not_IsNotFound.
  intros Hfind. split; [|split; [|split; [|split; [|split; [|split]]]]];
    [| | | |
     intros Hnf a o; rewrite PutType_Execute; unfold Execute, UpsertType;
       by rewrite Hfind, Hnf, andb_false_r
     |intros Hok output_type Hcheck; rewrite PutType_Execute;
       unfold Execute, UpsertType; by rewrite Hfind, Hok, (Hfound Hok), Hcheck
     |intros request pre post s0 Hmatch Ha Ho Horder Hpre;
       pose proof (PutTypes_in_order request s0 Hmatch) as Hrun;
       rewrite Ha, Ho, Horder, upsert_in_order_app in Hrun;
       unfold bind at 1 in Hrun; rewrite Hpre in Hrun; simpl in Hrun;
       exact Hrun].
  - intros Hnf a o. unfold UpsertType. rewrite Hfind, Hnf. simpl.
    by rewrite andb_false_r.
  - intros _. apply inconsistent_fails.
  - intros Hok e Hcheck.
    pose proof (UpsertType_conflict _ _ _ _ _ _ _ _ Hfind Hok Hcheck) as Hupsert.
    split; [done|]. split; [done|]. split.
    + destruct k; simpl;
        unfold PutArtifactType, PutExecutionType, PutContextType; simpl;
        unfold Execute, bind; by rewrite Hupsert.
    + intros [arts execs ctxs a o m] pre post s0. simpl.
      intros -> <- <- Horder Hpre. unfold PutTypes. simpl. unfold Execute.
      destruct (UpsertTypes_fails arts execs ctxs a o
                  (mkPutTypesResponse [] [] []) s0 s (type_already_exists e))
        as [s'' ->]; [|done].
      rewrite Horder, upsert_in_order_app. unfold bind. rewrite Hpre. simpl.
      unfold bind. by rewrite Hupsert.
  - intros Hok output_type Hcheck. unfold UpsertType. rewrite Hfind, Hok. simpl.
    assert (IsNotFound status = false) as ->.
    { unfold ok, IsNotFound in *. apply bool_decide_eq_true in Hok.
      apply bool_decide_eq_false. congruence. }
    by rewrite Hcheck.
Qed.

(** ** The base-type link *)

Lemma mem_find_parent_none (k : TypeKind) (type_id : Z) (s : Mem.Store) :
  parent_type_rows type_id s = [] ->
  Mem.FindParentTypesByTypeId k [type_id] s = (OkStatus, ∅).
Proof.
  unfold parent_type_rows, Mem.FindParentTypesByTypeId. simpl. by intros ->.
Qed.

Lemma mem_find_parent_one (k : TypeKind) (type_id p : Z) (row : Mem.TypeRow)
    (s : Mem.Store) :
  parent_type_rows type_id s = [(type_id, p)] ->
  Mem.lookup_type_by_id k p s = Some row ->
  Mem.FindParentTypesByTypeId k [type_id] s
  = (OkStatus, {[ type_id := Mem.type_of_row p row ]}).
Proof.
  unfold parent_type_rows, Mem.FindParentTypesByTypeId. simpl.
  intros -> Hrow. simpl. by rewrite Hrow.
Qed.

Section LinkFacts.
Context {St : Type} `{MAO : MetadataAccessObject St}
        `{STU : SimpleTypesUtil} `{DBG : DebugStrings}.

Lemma link_without_base_type k type type_id (s : St) :
  TypeProto.has_base_type type = false ->
  UpsertTypeInheritanceLink k type type_id s = (Done tt, s).
Proof. intros Hbase. unfold UpsertTypeInheritanceLink. by rewrite Hbase. Qed.

Lemma link_unset k type type_id (s : St) st extension :
  TypeProto.has_base_type type = true ->
  GetSystemTypeExtension k type = (st, extension) -> ok st = true ->
  IsUnsetBaseType extension = true ->
  UpsertTypeInheritanceLink k type type_id s
  = (Failed (UnimplementedError "base_type deletion is not supported yet"), s).
Proof.
  intros Hbase Hext Hok Hunset. unfold UpsertTypeInheritanceLink.
  rewrite Hbase. simpl. unfold bind, check. by rewrite Hext, Hok, Hunset.
Qed.

Lemma link_with_parents k type type_id (s : St) st extension st1 parents :
  TypeProto.has_base_type type = true ->
  GetSystemTypeExtension k type = (st, extension) -> ok st = true ->
  IsUnsetBaseType extension = false ->
  FindParentTypesByTypeId k [type_id] s = (st1, parents) -> ok st1 = true ->
  UpsertTypeInheritanceLink k type type_id s
  = match parents !! type_id with
    | None =>
        (base_type <- query (FindTypeByNameAndVersion k (ext_type_name extension) None) ;;
         update_ (CreateParentTypeInheritanceLink k
                    (TypeProto.set_id type_id type) base_type)) s
    | Some parent =>
        if bool_decide (TypeProto.name parent = ext_type_name extension)
        then (Done tt, s)
        else (Failed (UnimplementedError "base_type update is not supported yet"), s)
    end.
Proof.
  intros Hbase Hext Hok Hunset Hparents Hok1. unfold UpsertTypeInheritanceLink.
  rewrite Hbase. simpl. unfold bind at 1. unfold check. rewrite Hext, Hok, Hunset.
  unfold bind at 1. unfold query at 1. rewrite Hparents, Hok1.
  destruct (parents !! type_id) as [parent|] eqn:Hparent; simpl.
  - destruct (decide (TypeProto.name parent = ext_type_name extension)) as [Heq|Hne].
    + rewrite bool_decide_eq_false_2 by (intros Hne; by apply Hne).
      by rewrite bool_decide_eq_true_2.
    + rewrite bool_decide_eq_true_2 by done.
      by rewrite bool_decide_eq_false_2.
  - done.
Qed.

(** A call that succeeds on a type with base_type found its extension, not
    the unset one, and the parents of the type id. *)
Lemma link_done_inv k type type_id (s s1 : St) :
  TypeProto.has_base_type type = true ->
  UpsertTypeInheritanceLink k type type_id s = (Done tt, s1) ->
  exists st extension st1 parents,
    GetSystemTypeExtension k type = (st, extension) /\ ok st = true
    /\ IsUnsetBaseType extension = false
    /\ FindParentTypesByTypeId k [type_id] s = (st1, parents) /\ ok st1 = true.
Proof.
  intros Hbase. unfold UpsertTypeInheritanceLink. rewrite Hbase. simpl.
  unfold bind at 1. unfold check.
  destruct (GetSystemTypeExtension k type) as [st extension].
  destruct (ok st) eqn:Hok; [|discriminate].
  destruct (IsUnsetBaseType extension) eqn:Hunset; [discriminate|].
  unfold bind at 1. unfold query at 1.
  destruct (FindParentTypesByTypeId k [type_id] s) as [st1 parents] eqn:Hparents.
  destruct (ok st1) eqn:Hok1; [|discriminate].
  intros _. by exists st, extension, st1, parents.
Qed.

End LinkFacts.

Lemma mem_link_twice `{STU : SimpleTypesUtil} (k : TypeKind) (type : TypeProto.t)
    (type_id : Z) (s s1 : Mem.Store) :
  TypeProto.has_base_type type = true ->
  parent_type_rows type_id s = [] ->
  UpsertTypeInheritanceLink k type type_id s = (Done tt, s1) ->
  UpsertTypeInheritanceLink k type type_id s1 = (Done tt, s1)
  /\ length (parent_type_rows type_id s1) = 1%nat.
Proof.
  intros Hbase Hnone Hfirst.
  destruct (link_done_inv _ _ _ _ _ Hbase Hfirst)
    as (st & ext & st1 & parents & Hext & Hok & Hunset & Hparents & Hok1).
  rewrite (link_with_parents _ _ _ _ _ _ _ _ Hbase Hext Hok Hunset Hparents Hok1) in Hfirst.
  simpl in Hparents. rewrite (mem_find_parent_none k type_id s Hnone) in Hparents.
  injection Hparents as <- <-. rewrite lookup_empty in Hfirst.
  unfold bind, query, update_ in Hfirst. simpl in Hfirst.
  unfold Mem.FindTypeByNameAndVersion in Hfirst.
  destruct (Mem.lookup_type k (ext_type_name ext) None s) as [[p row]|] eqn:Hbase_type;
    [|discriminate].
  apply mem_lookup_type in Hbase_type as [Hrow Hname].
  simpl in Hfirst. unfold Mem.CreateParentTypeInheritanceLink in Hfirst. simpl in Hfirst.
  destruct (Mem.lookup_type_by_id k type_id s) as [child|] eqn:Hchild; [|discriminate].
  rewrite Hrow in Hfirst. case_bool_decide as Hdup; [discriminate|]. simpl in Hfirst.
  injection Hfirst as <-.
  assert (parent_type_rows type_id
            (Mem.set_parent_types (fun links => (links ++ [(type_id, p)])%list) s)
          = [(type_id, p)]) as Hrows.
  { unfold parent_type_rows in *. simpl. rewrite filter_app, Hnone. simpl.
    rewrite filter_cons. simpl. by destruct (decide (type_id = type_id)). }
  split; [|by rewrite Hrows].
  erewrite link_with_parents; [|done|exact Hext|done|done| |done].
  2:{ simpl. by apply (mem_find_parent_one k type_id p row). }
  rewrite lookup_singleton_eq. simpl. by rewrite bool_decide_eq_true_2.
Qed.

(** C7.  A request type without base_type leaves the store alone.  With
    base_type: the reserved unset value is UNIMPLEMENTED; with no parent
    recorded for the type id, the base type is looked up by name with no
    version and the parent link created; with a parent of the requested
    name the call changes nothing; with a parent of another name it is
    UNIMPLEMENTED.  In the in-memory store, a second upsert of the same
    base after a first one that created the link changes nothing and
    leaves exactly one ParentType row for the type. *)
Theorem base_type_link_cases
    {St : Type} `{MAO : MetadataAccessObject St}
    `{STU : SimpleTypesUtil} `{DBG : DebugStrings}
    (k : TypeKind) (type : TypeProto.t) (type_id : Z) (s : St) :
  (TypeProto.has_base_type type = false ->
   UpsertTypeInheritanceLink k type type_id s = (Done tt, s))
  /\ (TypeProto.has_base_type type = true ->
      forall st extension,
        GetSystemTypeExtension k type = (st, extension) -> ok st = true ->
        (IsUnsetBaseType extension = true ->
         UpsertTypeInheritanceLink k type type_id s
         = (Failed (UnimplementedError "base_type deletion is not supported yet"), s))
        /\ (IsUnsetBaseType extension = false ->
            forall st1 parents,
              FindParentTypesByTypeId k [type_id] s = (st1, parents) -> ok st1 = true ->
              match parents !! type_id with
              | None =>
                  forall st2 base_type,
                    FindTypeByNameAndVersion k (ext_type_name extension) None s
                    = (st2, base_type) ->
                    ok st2 = true ->
                    UpsertTypeInheritanceLink k type type_id s
                    = update_ (CreateParentTypeInheritanceLink k
                                 (TypeProto.set_id type_id type) base_type) s
              | Some parent =>
                  UpsertTypeInheritanceLink k type type_id s
                  = if bool_decide (TypeProto.name parent = ext_type_name extension)
                    then (Done tt, s)
                    else (Failed (UnimplementedError
                                    "base_type update is not supported yet"), s)
              end))
  /\ (forall (m m1 : Mem.Store),
        TypeProto.has_base_type type = true ->
        parent_type_rows type_id m = [] ->
        UpsertTypeInheritanceLink k type type_id m = (Done tt, m1) ->
        UpsertTypeInheritanceLink k type type_id m1 = (Done tt, m1)
        /\ length (parent_type_rows type_id m1) = 1%nat).
Proof.
  split; [|split].
  - apply link_without_base_type.
  - intros Hbase st extension Hext Hok. split.
    + by apply link_unset with st.
    + intros Hunset st1 parents Hparents Hok1.
      rewrite (link_with_parents _ _ _ _ _ _ _ _ Hbase Hext Hok Hunset Hparents Hok1).
      destruct (parents !! type_id) as [parent|]; [done|].
      intros st2 base_type Hfind Hok2. unfold bind, query. by rewrite Hfind, Hok2.
  - intros m m1 Hbase Hnone Hfirst. by eapply mem_link_twice.
Qed.

(** ** The composite execution writer *)

Section ExecutionFacts.
Context {St : Type} `{MAO : MetadataAccessObject St}
        `{STU : SimpleTypesUtil} `{DBG : DebugStrings}.

Lemma put_artifact_event_pairs_app request execution execution_id
    (pre post : list ArtifactAndEvent.t) (ids : list Z) (s : St) :
  put_artifact_event_pairs request execution execution_id (pre ++ post) ids s
  = (ids1 <- put_artifact_event_pairs request execution execution_id pre ids ;;
     put_artifact_event_pairs request execution execution_id post ids1) s.
Proof.
  revert ids s. induction pre as [|p pre IH]; intros ids s; [done|].
  simpl. unfold bind in *.
  destruct (put_artifact_and_event request execution execution_id p s) as [[i|e] s1];
    [|done].
  apply IH.
Qed.


Lemma execution_mismatch_test execution event i :
  Event.opt_execution_id event = Some i ->
  Execution.opt_id execution <> Some i ->
  Event.has_execution_id event
  && (negb (Execution.has_id execution)
      || bool_decide (Execution.id execution ≠ Event.execution_id event)) = true.
Proof.
  intros Hevent Hne.
  unfold Event.has_execution_id, Event.execution_id, Execution.has_id, Execution.id.
  rewrite Hevent. simpl.
  destruct (Execution.opt_id execution) as [j|]; simpl; [|done].
  apply bool_decide_eq_true. congruence.
Qed.

Lemma execution_agrees_test execution event :
  execution_agrees execution event ->
  Event.has_execution_id event
  && (negb (Execution.has_id execution)
      || bool_decide (Execution.id execution ≠ Event.execution_id event)) = false.
Proof.
  unfold Event.has_execution_id, Event.execution_id, Execution.has_id, Execution.id.
  intros [->| ->]; [done|].
  destruct (Execution.opt_id execution) as [j|]; simpl; [|done].
  apply bool_decide_eq_false. intros Hne. by apply Hne.
Qed.

Lemma put_artifact_and_event_rejected request execution execution_id p (s : St) :
  rejected_pair execution p ->
  exists msg,
    put_artifact_and_event request execution execution_id p s
    = (Failed (InvalidArgumentError msg), s).
Proof.
  destruct p as [opt_artifact opt_event].
  intros [(Hart & event & Hevent & Hid)|[(event & i & Hevent & Hid & Hne)
                                         |(artifact & event & j & Hart & Hevent
                                           & Hj & Hne)]];
    simpl in *; subst; unfold put_artifact_and_event; simpl.
  - destruct (_ && _); [by eexists|].
    unfold UpsertArtifactAndEvent. simpl. rewrite Hid. simpl. by eexists.
  - rewrite (execution_mismatch_test _ _ _ Hid Hne). by eexists.
  - destruct (_ && _); [by eexists|].
    unfold UpsertArtifactAndEvent. simpl. rewrite Hj. simpl.
    rewrite bool_decide_eq_true_2 by done. by eexists.
Qed.

Lemma put_artifact_and_event_artifact_only request execution execution_id artifact
    (s : St) :
  put_artifact_and_event request execution execution_id
    (ArtifactAndEvent.mk (Some artifact) None) s
  = (artifact_id <- UpsertArtifact artifact ;; ret artifact_id) s.
Proof. done. Qed.

Lemma put_artifact_and_event_upsert_fails request execution execution_id artifact
    event (s s1 : St) e :
  execution_agrees execution event ->
  artifact_agrees artifact event ->
  UpsertArtifact artifact s = (Failed e, s1) ->
  put_artifact_and_event request execution execution_id
    (ArtifactAndEvent.mk (Some artifact) (Some event)) s = (Failed e, s1).
Proof.
  intros Hexec Hart Hupsert. unfold put_artifact_and_event. simpl.
  rewrite (execution_agrees_test _ _ Hexec).
  unfold UpsertArtifactAndEvent. simpl.
  assert (bool_decide (is_Some (Event.opt_artifact_id event))
          && bool_decide (Artifact.opt_id artifact ≠ Event.opt_artifact_id event)
          = false) as ->.
  { destruct Hart as [->| ->]; [done|].
    rewrite (bool_decide_eq_false_2 (_ ≠ _)) by (intros Hne; by apply Hne).
    apply andb_false_r. }
  unfold bind at 1. by rewrite Hupsert.
Qed.

(** Every pair is empty, rejected, or one of the three kinds that are
    written. *)
Lemma pair_cases (execution : Execution.t) (p : ArtifactAndEvent.t) :
  p = ArtifactAndEvent.mk None None
  \/ rejected_pair execution p
  \/ (exists event artifact_id,
        p = ArtifactAndEvent.mk None (Some event)
        /\ execution_agrees execution event
        /\ Event.opt_artifact_id event = Some artifact_id)
  \/ (exists artifact, p = ArtifactAndEvent.mk (Some artifact) None)
  \/ (exists artifact event,
        p = ArtifactAndEvent.mk (Some artifact) (Some event)
        /\ execution_agrees execution event
        /\ artifact_agrees artifact event).
Proof.
  destruct p as [[artifact|] [event|]]; [| |  |by left].
  - destruct (Event.opt_execution_id event) as [i|] eqn:Hexec.
    + destruct (decide (Execution.opt_id execution = Some i)) as [Hsame|Hne].
      * destruct (Event.opt_artifact_id event) as [j|] eqn:Hart.
        -- destruct (decide (Artifact.opt_id artifact = Some j)) as [Hid|Hid].
           ++ do 4 right. exists artifact, event. split; [done|].
              split; right; congruence.
           ++ right. left. right. right. by exists artifact, event, j.
        -- do 4 right. exists artifact, event. split; [done|].
           split; [right; congruence|by left].
      * right. left. right. left. by exists event, i.
    + destruct (Event.opt_artifact_id event) as [j|] eqn:Hart.
      * destruct (decide (Artifact.opt_id artifact = Some j)) as [Hid|Hid].
        -- do 4 right. exists artifact, event. split; [done|].
           split; [by left|right; congruence].
        -- right. left. right. right. by exists artifact, event, j.
      * do 4 right. exists artifact, event. split; [done|]. split; by left.
  - do 3 right. left. by exists artifact.
  - destruct (Event.opt_execution_id event) as [i|] eqn:Hexec.
    + destruct (decide (Execution.opt_id execution = Some i)) as [Hsame|Hne].
      * destruct (Event.opt_artifact_id event) as [j|] eqn:Hart.
        -- right. right. left. exists event, j. split; [done|].
           split; [right; congruence|done].
        -- right. left. left. split; [done|]. by exists event.
      * right. left. right. left. by exists event, i.
    + destruct (Event.opt_artifact_id event) as [j|] eqn:Hart.
      * right. right. left. exists event, j. split; [done|]. split; [by left|done].
      * right. left. left. split; [done|]. by exists event.
Qed.

Lemma put_artifact_and_event_skips request execution execution_id (s : St) :
  put_artifact_and_event request execution execution_id
    (ArtifactAndEvent.mk None None) s = (Done (-1), s).
Proof. done. Qed.

Lemma put_artifact_and_event_event_only request execution execution_id event
    artifact_id (s : St) :
  execution_agrees execution event ->
  Event.opt_artifact_id event = Some artifact_id ->
  put_artifact_and_event request execution execution_id
    (ArtifactAndEvent.mk None (Some event)) s
  = (update (CreateEvent (Event.mk (Some artifact_id) (Some execution_id)
                            (Event.type event))) ;;;
     ret artifact_id) s.
Proof.
  intros Hexec Hid. unfold put_artifact_and_event. simpl.
  rewrite (execution_agrees_test _ _ Hexec).
  unfold UpsertArtifactAndEvent. simpl. rewrite Hid. simpl.
  unfold Event.set_execution_id, Event.artifact_id. simpl. by rewrite Hid.
Qed.

Lemma put_artifact_and_event_both request execution execution_id artifact event
    artifact_id (s s1 : St) :
  execution_agrees execution event ->
  artifact_agrees artifact event ->
  UpsertArtifact artifact s = (Done artifact_id, s1) ->
  put_artifact_and_event request execution execution_id
    (ArtifactAndEvent.mk (Some artifact) (Some event)) s
  = (update (CreateEvent (Event.mk (Some artifact_id) (Some execution_id)
                            (Event.type event))) ;;;
     ret artifact_id) s1.
Proof.
  intros Hexec Hart Hupsert. unfold put_artifact_and_event. simpl.
  rewrite (execution_agrees_test _ _ Hexec).
  unfold UpsertArtifactAndEvent. simpl.
  assert (bool_decide (is_Some (Event.opt_artifact_id event))
          && bool_decide (Artifact.opt_id artifact ≠ Event.opt_artifact_id event)
          = false) as ->.
  { destruct Hart as [->| ->]; [done|].
    rewrite (bool_decide_eq_false_2 (_ ≠ _)) by (intros Hne; by apply Hne).
    apply andb_false_r. }
  unfold bind at 1. by rewrite Hupsert.
Qed.

Lemma UpsertArtifact_id artifact artifact_id i (s s1 : St) :
  UpsertArtifact artifact s = (Done artifact_id, s1) ->
  Artifact.opt_id artifact = Some i -> artifact_id = i.
Proof.
  unfold UpsertArtifact, Artifact.has_id, Artifact.id. intros Hrun Hid.
  rewrite Hid in Hrun. simpl in Hrun. monad_unfold.
  destruct (UpdateArtifact artifact s) as [st s2].
  destruct (ok st); [|discriminate]. by injection Hrun as <- _.
Qed.

Lemma put_artifact_and_event_contributes request execution execution_id p
    artifact_id (s s1 : St) :
  put_artifact_and_event request execution execution_id p s = (Done artifact_id, s1) ->
  pair_contributes p artifact_id.
Proof.
  destruct p as [[artifact|] [event|]]; unfold put_artifact_and_event, pair_contributes;
    simpl.
  - destruct (_ && _); [discriminate|].
    unfold UpsertArtifactAndEvent. simpl.
    destruct (_ && _); [discriminate|].
    unfold bind at 1.
    destruct (UpsertArtifact artifact s) as [[aid|e] s2] eqn:Hupsert; [|discriminate].
    monad_unfold.
    destruct (CreateEvent _ s2) as [[st i] s3].
    destruct (ok st); [|discriminate]. intros [= <- <-].
    split; [intros i0; by eapply UpsertArtifact_id|by eexists _, _].
  - unfold UpsertArtifactAndEvent. simpl. unfold bind at 1.
    destruct (UpsertArtifact artifact s) as [[aid|e] s2] eqn:Hupsert; [|discriminate].
    intros [= <- <-].
    split; [intros i0; by eapply UpsertArtifact_id|by eexists _, _].
  - destruct (_ && _); [discriminate|].
    unfold UpsertArtifactAndEvent. simpl.
    destruct (Event.opt_artifact_id event) as [j|] eqn:Hid; simpl; [|discriminate].
    monad_unfold.
    destruct (CreateEvent _ s) as [[st i] s3].
    destruct (ok st); [|discriminate].
    unfold Event.artifact_id. simpl. rewrite Hid. by intros [= <- _].
  - by intros [= <- _].
Qed.

Lemma put_artifact_event_pairs_contribute request execution execution_id
    (pairs : list ArtifactAndEvent.t) (ids ids' : list Z) (s s' : St) :
  put_artifact_event_pairs request execution execution_id pairs ids s = (Done ids', s') ->
  exists new, ids' = (ids ++ new)%list /\ Forall2 pair_contributes pairs new.
Proof.
  revert ids s. induction pairs as [|p rest IH]; intros ids s; simpl.
  - intros [= <- _]. exists []. split; [by rewrite app_nil_r|constructor].
  - unfold bind.
    destruct (put_artifact_and_event request execution execution_id p s)
      as [[i|e] s1] eqn:Hpair; [|discriminate].
    intros Hrest. apply IH in Hrest as (new & -> & Hall).
    exists (i :: new). split; [by rewrite <- app_assoc|].
    constructor; [by eapply put_artifact_and_event_contributes|done].
Qed.

End ExecutionFacts.

Section PutExecutionFacts.
Context {St : Type} `{MAO : MetadataAccessObject St}
        `{STU : SimpleTypesUtil} `{DBG : DebugStrings}.

(** The request met its execution and the pairs before position [pre]. *)
Lemma PutExecution_pair_fails request execution execution_id
    (pre post : list ArtifactAndEvent.t) p ids (s s1 s2 s3 : St) e :
  pe_opt_execution request = Some execution ->
  UpsertExecution execution s = (Done execution_id, s1) ->
  pe_artifact_event_pairs request = (pre ++ p :: post)%list ->
  put_artifact_event_pairs request execution execution_id pre [] s1 = (Done ids, s2) ->
  put_artifact_and_event request execution execution_id p s2 = (Failed e, s3) ->
  PutExecution request s = (Failed e, s).
Proof.
  intros Hexec Hupsert Hpairs Hpre Hpair. unfold PutExecution, Execute.
  rewrite Hexec, Hpairs. unfold bind at 1. rewrite Hupsert.
  unfold bind at 1. rewrite put_artifact_event_pairs_app.
  unfold bind at 1. rewrite Hpre. simpl. unfold bind at 1. by rewrite Hpair.
Qed.





End PutExecutionFacts.

(** C3, as amended.  PutExecution returns INVALID_ARGUMENT and leaves the
    store as it was when the request has no execution, and when, the
    execution and the pairs before it having been written, a pair has an
    event with neither an artifact nor an artifact_id, or an event whose
    execution_id is set and is not the id of the request's execution, or an
    artifact and an event whose artifact_id is set and is not the id of
    the artifact, an artifact without an id included.  A pair with neither
    artifact nor event is passed over, and a pair with only an artifact
    upserts it.  Every other pair has an event, which is created with the
    captured execution id and the captured artifact id: the one its
    artifact was upserted under, or its own when the pair has no
    artifact. *)
Theorem put_execution_invalid_arguments
    {St : Type} `{MAO : MetadataAccessObject St}
    `{STU : SimpleTypesUtil} `{DBG : DebugStrings}
    (request : PutExecutionRequest) (s : St) :
  (pe_opt_execution request = None ->
   PutExecution request s
   = (Failed (InvalidArgumentError
                ("No execution is found: "
                 +:+ DebugString_PutExecutionRequest request)), s))
  /\ (forall execution execution_id s1 pre p post ids s2,
        pe_opt_execution request = Some execution ->
        UpsertExecution execution s = (Done execution_id, s1) ->
        pe_artifact_event_pairs request = (pre ++ p :: post)%list ->
        put_artifact_event_pairs request execution execution_id pre [] s1
        = (Done ids, s2) ->
        rejected_pair execution p ->
        exists msg,
          PutExecution request s = (Failed (InvalidArgumentError msg), s))
  /\ (forall execution execution_id,
        put_artifact_and_event request execution execution_id
          (ArtifactAndEvent.mk None None) s = (Done (-1), s))
  /\ (forall execution execution_id event artifact_id,
        execution_agrees execution event ->
        Event.opt_artifact_id event = Some artifact_id ->
        put_artifact_and_event request execution execution_id
          (ArtifactAndEvent.mk None (Some event)) s
        = (update (CreateEvent (Event.mk (Some artifact_id) (Some execution_id)
                                  (Event.type event))) ;;;
           ret artifact_id) s)
  /\ (forall execution execution_id artifact event artifact_id s1,
        execution_agrees execution event ->
        artifact_agrees artifact event ->
        UpsertArtifact artifact s = (Done artifact_id, s1) ->
        put_artifact_and_event request execution execution_id
          (ArtifactAndEvent.mk (Some artifact) (Some event)) s
        = (update (CreateEvent (Event.mk (Some artifact_id) (Some execution_id)
                                  (Event.type event))) ;;;
           ret artifact_id) s1)
  /\ (forall execution execution_id artifact event e s1,
        execution_agrees execution event ->
        artifact_agrees artifact event ->
        UpsertArtifact artifact s = (Failed e, s1) ->
        put_artifact_and_event request execution execution_id
          (ArtifactAndEvent.mk (Some artifact) (Some event)) s = (Failed e, s1))
  /\ (forall execution execution_id artifact,
        put_artifact_and_event request execution execution_id
          (ArtifactAndEvent.mk (Some artifact) None) s
        = (artifact_id <- UpsertArtifact artifact ;; ret artifact_id) s)
  /\ (forall execution p,
        p = ArtifactAndEvent.mk None None
        \/ rejected_pair execution p
        \/ (exists event artifact_id,
              p = ArtifactAndEvent.mk None (Some event)
              /\ execution_agrees execution event
              /\ Event.opt_artifact_id event = Some artifact_id)
        \/ (exists artifact, p = ArtifactAndEvent.mk (Some artifact) None)
        \/ (exists artifact event,
              p = ArtifactAndEvent.mk (Some artifact) (Some event)
              /\ execution_agrees execution event
              /\ artifact_agrees artifact event)).
Proof.
  split; [|split; [|split; [|split; [|split; [|split; [|split]]]]]].
  - intros Hnone. unfold PutExecution, Execute. by rewrite Hnone.
  - intros execution execution_id s1 pre p post ids s2 Hexec Hupsert Hpairs Hpre Hbad.
    destruct (put_artifact_and_event_rejected request execution execution_id p s2 Hbad)
      as [msg Hpair].
    exists msg. by eapply PutExecution_pair_fails.
  - intros. apply put_artifact_and_event_skips.
  - intros. by apply put_artifact_and_event_event_only.
  - intros. by apply put_artifact_and_event_both.
  - intros. by apply put_artifact_and_event_upsert_fails.
  - intros. apply put_artifact_and_event_artifact_only.
  - intros. apply pair_cases.
Qed.


(** ** The loops of the writes, step by step *)

Lemma in_turn_impl {St X R : Type} (step step' : X -> St -> R -> St -> Prop)
    (xs : list X) (s s' : St) (rs : list R) :
  (forall x s0 r s1, step x s0 r s1 -> step' x s0 r s1) ->
  in_turn step xs s rs s' -> in_turn step' xs s rs s'.
Proof.
  intros Himpl. induction 1 as [|x rest s s1 s' r rs Hstep _ IH]; [constructor|].
  econstructor; [by apply Himpl|done].
Qed.

Lemma in_turn_length {St X R : Type} (step : X -> St -> R -> St -> Prop)
    (xs : list X) (s s' : St) (rs : list R) :
  in_turn step xs s rs s' -> length rs = length xs.
Proof. induction 1; simpl; congruence. Qed.

Section PairsInTurn.
Context {St : Type} `{MAO : MetadataAccessObject St}
        `{STU : SimpleTypesUtil} `{DBG : DebugStrings}.

Lemma put_artifact_and_event_written request execution execution_id p
    artifact_id (s s1 : St) :
  put_artifact_and_event request execution execution_id p s = (Done artifact_id, s1) ->
  pair_written request execution execution_id p s artifact_id s1.
Proof.
  intros Hrun. split; [done|]. revert Hrun.
  destruct p as [[artifact|] [event|]]; unfold put_artifact_and_event; simpl.
  - destruct (_ && _); [discriminate|].
    unfold UpsertArtifactAndEvent. simpl.
    destruct (_ && _); [discriminate|].
    unfold bind at 1.
    destruct (UpsertArtifact artifact s) as [[aid|e] s2] eqn:Hupsert; [|discriminate].
    monad_unfold.
    destruct (CreateEvent _ s2) as [[st i] s3].
    destruct (ok st); [|discriminate]. intros [= <- <-].
    split; [intros i0; by eapply UpsertArtifact_id|by eexists].
  - unfold UpsertArtifactAndEvent. simpl. unfold bind at 1.
    destruct (UpsertArtifact artifact s) as [[aid|e] s2] eqn:Hupsert; [|discriminate].
    intros [= <- <-].
    split; [intros i0; by eapply UpsertArtifact_id|by eexists].
  - destruct (_ && _); [discriminate|].
    unfold UpsertArtifactAndEvent. simpl.
    destruct (Event.opt_artifact_id event) as [j|] eqn:Hid; simpl; [|discriminate].
    monad_unfold.
    destruct (CreateEvent _ s) as [[st i] s3].
    destruct (ok st); [|discriminate].
    unfold Event.artifact_id. simpl. rewrite Hid. by intros [= <- _].
  - by intros [= <- <-].
Qed.

Lemma put_artifact_event_pairs_in_turn request execution execution_id
    (pairs : list ArtifactAndEvent.t) (ids ids' : list Z) (s s' : St) :
  put_artifact_event_pairs request execution execution_id pairs ids s = (Done ids', s') ->
  exists new,
    ids' = (ids ++ new)%list
    /\ in_turn (pair_written request execution execution_id) pairs s new s'.
Proof.
  revert ids s. induction pairs as [|p rest IH]; intros ids s; simpl.
  - intros [= <- <-]. exists []. split; [by rewrite app_nil_r|constructor].
  - unfold bind.
    destruct (put_artifact_and_event request execution execution_id p s)
      as [[i|e] s1] eqn:Hpair; [|discriminate].
    intros Hrest. apply IH in Hrest as (new & -> & Hturn).
    exists (i :: new). split; [by rewrite <- app_assoc|].
    econstructor; [by apply put_artifact_and_event_written|done].
Qed.

End PairsInTurn.

(** C10.  When PutExecution succeeds, response.artifact_ids has one entry
    for every artifact_event_pair, in request order: the id its artifact
    was upserted under (the artifact's own id when it has one) for a pair
    with an artifact, the event's artifact_id for a pair with only an
    event, and -1 for a pair with neither.  The pairs are written one
    after the other on the store the upsert of the execution left, and the
    id of an artifact is the one UpsertArtifact returned on the store the
    pairs before it left. *)
Theorem put_execution_artifact_ids
    {St : Type} `{MAO : MetadataAccessObject St}
    `{STU : SimpleTypesUtil} `{DBG : DebugStrings}
    (request : PutExecutionRequest) (s s' : St) (response : PutExecutionResponse) :
  PutExecution request s = (Done response, s') ->
  Forall2 pair_contributes (pe_artifact_event_pairs request) (artifact_ids response)
  /\ exists execution s1 s2,
       pe_opt_execution request = Some execution
       /\ UpsertExecution execution s = (Done (execution_id response), s1)
       /\ in_turn (pair_written request execution (execution_id response))
            (pe_artifact_event_pairs request) s1 (artifact_ids response) s2.
Proof.
  unfold PutExecution, Execute.
  destruct (pe_opt_execution request) as [execution|]; [|discriminate].
  unfold bind at 1.
  destruct (UpsertExecution execution s) as [[execution_id|e] s1] eqn:Hexecution;
    [|discriminate].
  unfold bind at 1.
  destruct (put_artifact_event_pairs _ _ _ _ _ s1) as [[ids|e] s2] eqn:Hpairs;
    [|discriminate].
  unfold bind at 1.
  destruct (put_contexts _ _ _ _ _ s2) as [[cids|e] s3]; [|discriminate].
  simpl. intros [= <- _]. simpl. split.
  - by apply put_artifact_event_pairs_contribute in Hpairs as (new & -> & Hall).
  - apply put_artifact_event_pairs_in_turn in Hpairs as (new & -> & Hturn).
    by exists execution, s1, s2.
Qed.

(** ** The read endpoints *)

Section ReadFacts.
Context {St : Type} `{MAO : MetadataAccessObject St}
        `{STU : SimpleTypesUtil} `{DBG : DebugStrings}.

Lemma find_types_by_id_skips (k : TypeKind) (type_ids : list Z)
    (found : list TypeProto.t) (s : St) :
  found_or_missing k type_ids s ->
  find_types_by_id k type_ids found s
  = (Done (found ++ found_types k type_ids s)%list, s).
Proof.
  revert found. induction type_ids as [|i rest IH]; intros found Hall; simpl.
  - unfold found_types. simpl. by rewrite app_nil_r.
  - inversion Hall as [|? ? Hhead Htail]; subst. unfold found_types. simpl.
    destruct (FindTypeById k i s) as [status type]. simpl in Hhead.
    destruct (ok status) eqn:Hok.
    + rewrite IH by done. by rewrite <- app_assoc.
    + destruct Hhead as [?|Hnf]; [done|]. rewrite Hnf. simpl. by apply IH.
Qed.

Lemma set_base_types_names (k : TypeKind) (parents : gmap Z TypeProto.t)
    (types types' : list TypeProto.t) (s s' : St) :
  set_base_types k parents types s = (Done types', s') ->
  TypeProto.name <$> types' = TypeProto.name <$> types.
Proof.
  revert types' s s'. induction types as [|type rest IH]; intros types' s s'; simpl.
  - by intros [= <- _].
  - destruct (parents !! TypeProto.id type) as [parent|].
    + monad_unfold. destruct (GetSystemTypeEnum k _) as [st b].
      destruct (ok st); [|discriminate].
      destruct (set_base_types k parents rest s) as [[rest'|e] s1] eqn:Hrest;
        [|discriminate].
      intros [= <- _]. rewrite !fmap_cons. f_equal. by eapply IH.
    + monad_unfold.
      destruct (set_base_types k parents rest s) as [[rest'|e] s1] eqn:Hrest;
        [|discriminate].
      intros [= <- _]. rewrite !fmap_cons. f_equal. by eapply IH.
Qed.

Lemma SetBaseType_names (k : TypeKind) (types types' : list TypeProto.t) (s s' : St) :
  SetBaseType k types s = (Done types', s') ->
  TypeProto.name <$> types' = TypeProto.name <$> types.
Proof.
  unfold SetBaseType. destruct types as [|type rest]; [by intros [= <- _]|].
  unfold bind, query.
  destruct (FindParentTypesByTypeId k _ s) as [st parents].
  destruct (ok st); [|discriminate]. apply set_base_types_names.
Qed.

(** GetArtifactTypes and GetExecutionTypes return no type that bears the
    name of a simple type. *)
Lemma same_names_not_simple (types stored : list TypeProto.t) :
  TypeProto.name <$> types = TypeProto.name <$> filter not_simple_type stored ->
  Forall (fun type => TypeProto.name type ∉ kSimpleTypeNames) types.
Proof.
  intros Hnames. apply Forall_forall. intros type Hin.
  assert (TypeProto.name type ∈ TypeProto.name <$> types) as Hname.
  { apply list_elem_of_fmap. by exists type. }
  rewrite Hnames in Hname. apply list_elem_of_fmap in Hname as (kept & -> & Hkept).
  apply list_elem_of_filter in Hkept as [Hkeep _].
  unfold not_simple_type in Hkeep. by apply bool_decide_unpack in Hkeep.
Qed.

Lemma GetArtifactTypes_filtered (types : list TypeProto.t) (s s' : St) :
  GetArtifactTypes s = (Done types, s') ->
  Forall (fun type => TypeProto.name type ∉ kSimpleTypeNames) types.
Proof.
  unfold GetArtifactTypes, Execute.
  destruct (FindTypes ARTIFACT_TYPE s) as [status stored].
  destruct (IsNotFound status); [by intros [= <- _]|].
  destruct (negb (ok status)); [discriminate|].
  destruct (SetBaseType _ _ s) as [[types'|e] s1] eqn:Hset; [|discriminate].
  intros [= <- _]. apply SetBaseType_names in Hset.
  by eapply same_names_not_simple.
Qed.

Lemma GetExecutionTypes_filtered (types : list TypeProto.t) (s s' : St) :
  GetExecutionTypes s = (Done types, s') ->
  Forall (fun type => TypeProto.name type ∉ kSimpleTypeNames) types.
Proof.
  unfold GetExecutionTypes, Execute.
  destruct (FindTypes EXECUTION_TYPE s) as [status stored].
  destruct (IsNotFound status); [by intros [= <- _]|].
  destruct (negb (ok status)); [discriminate|].
  destruct (SetBaseType _ _ s) as [[types'|e] s1] eqn:Hset; [|discriminate].
  intros [= <- _]. apply SetBaseType_names in Hset.
  by eapply same_names_not_simple.
Qed.

(** GetContextTypes returns what FindTypes reports, as it is. *)
Lemma GetContextTypes_unfiltered (status : Status) (types : list TypeProto.t) (s : St) :
  FindTypes CONTEXT_TYPE s = (status, types) -> ok status = true ->
  GetContextTypes s = (Done types, s).
Proof.
  intros Hfind Hok. unfold GetContextTypes, Execute.
  by rewrite Hfind, (ok_not_IsNotFound _ Hok), Hok.
Qed.

End ReadFacts.

(** C5, as amended.  Get*TypesByID pass over the ids that are not found and
    return the types of the others; Get{Artifacts,Executions,Contexts}ByID
    turn NOT_FOUND into OK and return the rows the access object reported;
    GetLineageGraph returns NOT_FOUND when the seed query lists nothing.
    GetArtifactType, GetExecutionType and GetContextType return the status
    of the lookup by name and version when it is not OK, so NOT_FOUND for a
    type that is not in the store. *)
Theorem reads_of_missing_entities
    {St : Type} `{MAO : MetadataAccessObject St}
    `{STU : SimpleTypesUtil} `{DBG : DebugStrings} (s : St) :
  (forall type_ids,
     found_or_missing ARTIFACT_TYPE type_ids s ->
     GetArtifactTypesByID type_ids s
     = Execute (SetBaseType ARTIFACT_TYPE (found_types ARTIFACT_TYPE type_ids s)) s)
  /\ (forall type_ids,
        found_or_missing EXECUTION_TYPE type_ids s ->
        GetExecutionTypesByID type_ids s
        = Execute (SetBaseType EXECUTION_TYPE (found_types EXECUTION_TYPE type_ids s)) s)
  /\ (forall type_ids,
        found_or_missing CONTEXT_TYPE type_ids s ->
        GetContextTypesByID type_ids s = (Done (found_types CONTEXT_TYPE type_ids s), s))
  /\ (forall ids status artifacts,
        FindArtifactsById ids s = (status, artifacts) -> ok_or_not_found status ->
        GetArtifactsByID ids s = (Done artifacts, s))
  /\ (forall ids status executions,
        FindExecutionsById ids s = (status, executions) -> ok_or_not_found status ->
        GetExecutionsByID ids s = (Done executions, s))
  /\ (forall ids status contexts,
        FindContextsById ids s = (status, contexts) -> ok_or_not_found status ->
        GetContextsByID ids s = (Done contexts, s))
  /\ (forall request options max_num_hops status token,
        opt_artifacts_options request = Some options ->
        lineage_max_num_hops request = Done max_num_hops ->
        ListArtifacts options s = (status, ([], token)) -> ok status = true ->
        outcome_code (GetLineageGraph request s).1 = kNotFound)
  /\ (forall request status type,
        FindTypeByNameAndVersion ARTIFACT_TYPE (gt_type_name request)
          (GetRequestTypeVersion request) s = (status, type) ->
        ok status = false ->
        GetArtifactType request s = (Failed status, s))
  /\ (forall request status type,
        FindTypeByNameAndVersion EXECUTION_TYPE (gt_type_name request)
          (GetRequestTypeVersion request) s = (status, type) ->
        ok status = false ->
        GetExecutionType request s = (Failed status, s))
  /\ (forall request status type,
        FindTypeByNameAndVersion CONTEXT_TYPE (gt_type_name request)
          (GetRequestTypeVersion request) s = (status, type) ->
        ok status = false ->
        GetContextType request s = (Failed status, s)).
Proof.
  repeat split.
  - intros type_ids Hall. unfold GetArtifactTypesByID, Execute, bind.
    by rewrite find_types_by_id_skips.
  - intros type_ids Hall. unfold GetExecutionTypesByID, Execute, bind.
    by rewrite find_types_by_id_skips.
  - intros type_ids Hall. unfold GetContextTypesByID, Execute.
    by rewrite find_types_by_id_skips.
  - intros ids status artifacts Hfind Hstatus. unfold GetArtifactsByID, Execute.
    rewrite Hfind. destruct Hstatus as [->| ->]; [done|by rewrite andb_false_r].
  - intros ids status executions Hfind Hstatus. unfold GetExecutionsByID, Execute.
    rewrite Hfind. destruct Hstatus as [->| ->]; [done|by rewrite andb_false_r].
  - intros ids status contexts Hfind Hstatus. unfold GetContextsByID, Execute.
    rewrite Hfind. destruct Hstatus as [->| ->]; [done|by rewrite andb_false_r].
  - intros request options max_num_hops status token Hopts Hhops Hlist Hok.
    unfold GetLineageGraph. rewrite Hhops, Hopts. simpl.
    unfold Execute, bind, query. by rewrite Hlist, Hok.
  - intros request status type Hfind Hok. unfold GetArtifactType, Execute, bind, query.
    by rewrite Hfind, Hok.
  - intros request status type Hfind Hok. unfold GetExecutionType, Execute, bind, query.
    by rewrite Hfind, Hok.
  - intros request status type Hfind Hok. unfold GetContextType, Execute, query.
    by rewrite Hfind, Hok.
Qed.

(** C5 as stated fails: the empty store has no type named "Img", and the
    three reads of a type by name return NOT_FOUND, not OK. *)
Lemma get_type_of_missing_name_is_not_found :
  Mem.lookup_type ARTIFACT_TYPE "Img" None Mem.empty = None
  /\ GetArtifactType (mkGetTypeRequest "Img" None) Mem.empty
     = (Failed (NotFoundError "No type found for query, name: Img"), Mem.empty)
  /\ GetExecutionType (mkGetTypeRequest "Img" None) Mem.empty
     = (Failed (NotFoundError "No type found for query, name: Img"), Mem.empty)
  /\ GetContextType (mkGetTypeRequest "Img" None) Mem.empty
     = (Failed (NotFoundError "No type found for query, name: Img"), Mem.empty).
Proof. repeat split; vm_compute; reflexivity. Qed.

(** ** The lineage traversal driver *)

(** C6.  A negative max_num_hops and a missing artifacts_options are
    INVALID_ARGUMENT, decided before the transaction starts.  Otherwise the
    hop bound handed to the traversal lies in [0, 20]: the requested value
    when it is at most 20, 20 when it is larger or not given.  An empty seed
    list is NOT_FOUND; a seed list longer than a positive max_node_size is
    cut to its first max_node_size artifacts; the seeds and the bound then
    go to QueryLineageGraph, whose subgraph is the response. *)
Theorem lineage_graph_bounds
    {St : Type} `{MAO : MetadataAccessObject St}
    `{STU : SimpleTypesUtil} `{DBG : DebugStrings}
    (request : GetLineageGraphRequest) (s : St) :
  (forall requested,
     opt_max_num_hops (stop_conditions request) = Some requested -> requested < 0 ->
     exists msg, GetLineageGraph request s = (Failed (InvalidArgumentError msg), s))
  /\ (opt_artifacts_options request = None ->
      GetLineageGraph request s
      = (Failed (InvalidArgumentError "Missing query_nodes conditions"), s))
  /\ (forall options,
        opt_artifacts_options request = Some options ->
        (forall requested,
           opt_max_num_hops (stop_conditions request) = Some requested ->
           0 <= requested) ->
        exists max_num_hops,
          lineage_max_num_hops request = Done max_num_hops
          /\ 0 <= max_num_hops <= 20
          /\ (forall requested,
                opt_max_num_hops (stop_conditions request) = Some requested ->
                (requested <= 20 -> max_num_hops = requested)
                /\ (20 < requested -> max_num_hops = 20))
          /\ (opt_max_num_hops (stop_conditions request) = None -> max_num_hops = 20)
          /\ (forall status artifacts token,
                ListArtifacts options s = (status, (artifacts, token)) ->
                ok status = true ->
                (artifacts = [] -> outcome_code (GetLineageGraph request s).1 = kNotFound)
                /\ (0 < max_node_size request ->
                    max_node_size request < Z.of_nat (length artifacts) ->
                    truncate_seeds request artifacts
                    = take (Z.to_nat (max_node_size request)) artifacts
                    /\ Z.of_nat (length (truncate_seeds request artifacts))
                       = max_node_size request)
                /\ (max_node_size request <= 0
                    \/ Z.of_nat (length artifacts) <= max_node_size request ->
                    truncate_seeds request artifacts = artifacts)
                /\ (artifacts <> [] ->
                    forall status' subgraph,
                      QueryLineageGraph (truncate_seeds request artifacts) max_num_hops
                        (if 0 <? max_node_size request
                         then Some (max_node_size request) else None)
                        (nonempty_string (boundary_artifacts (stop_conditions request)))
                        (nonempty_string (boundary_executions (stop_conditions request)))
                        s = (status', subgraph) ->
                      GetLineageGraph request s
                      = (if ok status' then Done subgraph else Failed status', s)))).
Proof.
  split; [|split].
  - intros requested Hhops Hneg. unfold GetLineageGraph, lineage_max_num_hops.
    rewrite Hhops. destruct (opt_artifacts_options request); [|by eexists].
    rewrite (proj2 (Z.ltb_lt requested 0) Hneg). by eexists.
  - intros Hnone. unfold GetLineageGraph, lineage_max_num_hops. by rewrite Hnone.
  - intros options Hopts Hnonneg.
    exists (match opt_max_num_hops (stop_conditions request) with
            | Some requested => Z.min kMaxDistance requested
            | None => kMaxDistance
            end).
    unfold kMaxDistance.
    split; [|split; [|split; [|split]]].
    + unfold lineage_max_num_hops. rewrite Hopts.
      destruct (opt_max_num_hops (stop_conditions request)) as [requested|]; [|done].
      specialize (Hnonneg requested eq_refl).
      by rewrite (proj2 (Z.ltb_ge requested 0) Hnonneg).
    + destruct (opt_max_num_hops (stop_conditions request)) as [requested|]; [|lia].
      specialize (Hnonneg requested eq_refl). lia.
    + intros requested ->. lia.
    + by intros ->.
    + intros status artifacts token Hlist Hok.
      assert (lineage_max_num_hops request
              = Done (match opt_max_num_hops (stop_conditions request) with
                      | Some requested => Z.min 20 requested
                      | None => 20
                      end)) as Hhops.
      { unfold lineage_max_num_hops. rewrite Hopts.
        destruct (opt_max_num_hops (stop_conditions request)) as [requested|]; [|done].
        specialize (Hnonneg requested eq_refl).
        by rewrite (proj2 (Z.ltb_ge requested 0) Hnonneg). }
      split; [|split; [|split]].
      * intros ->. unfold GetLineageGraph. rewrite Hhops, Hopts. simpl.
        unfold Execute, bind, query. by rewrite Hlist, Hok.
      * intros Hpos Hlong. unfold truncate_seeds.
        rewrite (proj2 (Z.ltb_lt _ _) Hpos), (proj2 (Z.ltb_lt _ _) Hlong). simpl.
        split; [done|]. rewrite length_take. lia.
      * intros Hshort. unfold truncate_seeds.
        destruct Hshort as [Hle|Hle].
        -- by rewrite (proj2 (Z.ltb_ge _ _) Hle).
        -- rewrite (proj2 (Z.ltb_ge _ _) Hle). by rewrite andb_false_r.
      * intros Hne status' subgraph Hquery.
        unfold GetLineageGraph. rewrite Hhops, Hopts. simpl.
        unfold Execute, bind, query. rewrite Hlist, Hok. simpl.
        rewrite bool_decide_eq_false_2 by done. rewrite Hquery.
        by destruct (ok status').
Qed.

(** ** Listing types and re-inserting links *)

(** C8, evaluated where the code departs from it.  "mlmd.Model" is the
    name of a simple type.  After an artifact type of that name is put,
    GetArtifactTypes returns no type; after a context type of that name is
    put, GetContextTypes returns it. *)
Theorem get_context_types_keeps_simple_type_name :
  TypeProto.name model_named_type ∈ kSimpleTypeNames
  /\ GetArtifactTypes artifact_named_model = (Done [], artifact_named_model)
  /\ GetContextTypes context_named_model
     = (Done [TypeProto.mk (Some 1) "mlmd.Model" None ∅ None], context_named_model).
Proof.
  split; [|split].
  - compute_done.
  - vm_compute. reflexivity.
  - vm_compute. reflexivity.
Qed.

(** C9, as amended.  InsertAttributionIfNotExist and
    InsertAssociationIfNotExist, which PutAttributionsAndAssociations and
    PutExecution call for every attribution and association, return OK when
    the create call reports OK or already-exists and its status otherwise;
    so re-inserting an existing attribution or association through
    PutAttributionsAndAssociations is OK, and another error is returned.
    PutParentContexts returns whatever non-OK status CreateParentContext
    reports, already-exists included. *)
Theorem link_reinsertion
    {St : Type} `{MAO : MetadataAccessObject St}
    `{STU : SimpleTypesUtil} `{DBG : DebugStrings} (s : St) :
  (forall context_id artifact_id status i s',
     CreateAttribution (Attribution.mk (Some context_id) (Some artifact_id)) s
     = (status, i, s') ->
     InsertAttributionIfNotExist context_id artifact_id s
     = (if ok_or_already_exists status then Done tt else Failed status, s'))
  /\ (forall context_id execution_id status i s',
        CreateAssociation (Association.mk (Some context_id) (Some execution_id)) s
        = (status, i, s') ->
        InsertAssociationIfNotExist context_id execution_id s
        = (if ok_or_already_exists status then Done tt else Failed status, s'))
  /\ (forall attribution status i s',
        CreateAttribution
          (Attribution.mk (Some (Attribution.context_id attribution))
             (Some (Attribution.artifact_id attribution))) s
        = (status, i, s') ->
        PutAttributionsAndAssociations (mkPutAARequest [attribution] []) s
        = if ok_or_already_exists status then (Done tt, s') else (Failed status, s))
  /\ (forall association status i s',
        CreateAssociation
          (Association.mk (Some (Association.context_id association))
             (Some (Association.execution_id association))) s
        = (status, i, s') ->
        PutAttributionsAndAssociations (mkPutAARequest [] [association]) s
        = if ok_or_already_exists status then (Done tt, s') else (Failed status, s))
  /\ (forall context_id artifact_id artifact_ids,
        insert_attributions context_id (artifact_id :: artifact_ids) s
        = (InsertAttributionIfNotExist context_id artifact_id ;;;
           insert_attributions context_id artifact_ids) s)
  /\ (forall parent_context rest status s',
        CreateParentContext parent_context s = (status, s') ->
        ok status = false ->
        PutParentContexts (parent_context :: rest) s = (Failed status, s)).
Proof.
  repeat split.
  - intros context_id artifact_id status i s' Hcreate.
    unfold InsertAttributionIfNotExist, ok_or_already_exists. rewrite Hcreate.
    by destruct (ok status), (IsAlreadyExists status).
  - intros context_id execution_id status i s' Hcreate.
    unfold InsertAssociationIfNotExist, ok_or_already_exists. rewrite Hcreate.
    by destruct (ok status), (IsAlreadyExists status).
  - intros attribution status i s' Hcreate.
    unfold PutAttributionsAndAssociations, Execute.
    cbn [paa_attributions paa_associations put_attributions put_associations].
    unfold bind, ret, InsertAttributionIfNotExist, ok_or_already_exists.
    rewrite Hcreate.
    by destruct (ok status), (IsAlreadyExists status).
  - intros association status i s' Hcreate.
    unfold PutAttributionsAndAssociations, Execute.
    cbn [paa_attributions paa_associations put_attributions put_associations].
    unfold bind, ret, InsertAssociationIfNotExist, ok_or_already_exists.
    rewrite Hcreate.
    by destruct (ok status), (IsAlreadyExists status).
  - intros parent_context rest status s' Hcreate Hok.
    unfold PutParentContexts, Execute. simpl. unfold bind, update_.
    by rewrite Hcreate, Hok.
Qed.

(** C9 as stated fails: the store holds the parent context link, and
    putting the same link again returns ALREADY_EXISTS, not OK. *)
Lemma put_parent_contexts_twice_already_exists :
  run_in_pipeline ∈ Mem.parent_contexts linked_contexts
  /\ PutParentContexts [run_in_pipeline] linked_contexts
     = (Failed (AlreadyExistsError "Given parent context already exists."),
        linked_contexts).
Proof.
  split.
  - compute_done.
  - vm_compute. reflexivity.
Qed.

(** ** The properties on the sample stores *)

Lemma upsert_type_creates_rejects_or_updates_witness :
  UpsertType ARTIFACT_TYPE img_retyped true true pipeline
  = (Failed (type_already_exists
               (value_conflict_error DebugString_Type img_stored img_retyped)),
     pipeline)
  /\ PutType ARTIFACT_TYPE (mkPutTypeRequest img_retyped true true true) pipeline
     = (Failed (type_already_exists
                  (value_conflict_error DebugString_Type img_stored img_retyped)),
        pipeline)
  /\ UpsertType ARTIFACT_TYPE img_widened true false pipeline
     = (update_ (UpdateType ARTIFACT_TYPE
                   (TypeProto.set_properties
                      (TypeProto.properties img_stored ∪ TypeProto.properties img_widened)
                      img_stored)) ;;;
        UpsertTypeInheritanceLink ARTIFACT_TYPE img_widened 1 ;;;
        ret 1) pipeline
  /\ UpsertType ARTIFACT_TYPE img_widened false false Mem.empty
     = (Done 1,
        Mem.set_types
          (insert 1 (Mem.mkTypeRow ARTIFACT_TYPE "Img" None
                       (TypeProto.properties img_widened)))
          Mem.empty)
  /\ PutType ARTIFACT_TYPE (mkPutTypeRequest img_widened true false true) pipeline
     = (Done 1,
        Mem.set_types
          (insert 1 (Mem.mkTypeRow ARTIFACT_TYPE "Img" None
                       (TypeProto.properties img_widened)))
          pipeline)
  /\ PutType ARTIFACT_TYPE (mkPutTypeRequest img_widened false false true) Mem.empty
     = (Done 1,
        Mem.set_types
          (insert 1 (Mem.mkTypeRow ARTIFACT_TYPE "Img" None
                       (TypeProto.properties img_widened)))
          Mem.empty).
Proof.
  assert (FindTypeByNameAndVersion ARTIFACT_TYPE (TypeProto.name img_retyped)
            (Some (TypeProto.version img_retyped)) pipeline
          = (OkStatus, img_stored)) as Hfind by (vm_compute; reflexivity).
  destruct (upsert_type_creates_rejects_or_updates ARTIFACT_TYPE img_retyped true true
              pipeline OkStatus img_stored Hfind) as (_ & _ & Hreject & _).
  destruct (Hreject eq_refl (value_conflict_error DebugString_Type img_stored img_retyped))
    as (_ & Hupsert & Hput & _); [vm_compute; reflexivity|].
  destruct (upsert_type_creates_rejects_or_updates ARTIFACT_TYPE img_widened true false
              pipeline OkStatus img_stored Hfind) as (_ & _ & _ & Hupdate & _ & Hwiden & _).
  assert (FindTypeByNameAndVersion ARTIFACT_TYPE (TypeProto.name img_widened)
            (Some (TypeProto.version img_widened)) Mem.empty
          = (NotFoundError "No type found for query, name: Img", TypeProto.empty))
    as Hmissing by (vm_compute; reflexivity).
  destruct (upsert_type_creates_rejects_or_updates ARTIFACT_TYPE img_widened true true
              Mem.empty _ _ Hmissing) as (Hcreate & _ & _ & _ & Hnew & _).
  split; [exact Hupsert|]. split; [exact Hput|]. split; [|split; [|split]].
  - apply (Hupdate eq_refl). vm_compute; reflexivity.
  - rewrite (Hcreate eq_refl false false). vm_compute; reflexivity.
  - rewrite (Hwiden eq_refl
               (TypeProto.set_properties
                  (TypeProto.properties img_stored ∪ TypeProto.properties img_widened)
                  img_stored)) by (vm_compute; reflexivity).
    vm_compute; reflexivity.
  - rewrite (Hnew eq_refl false false). vm_compute; reflexivity.
Defined.

Lemma put_execution_invalid_arguments_witness :
  (exists msg,
     PutExecution record_orphan_event pipeline
     = (Failed (InvalidArgumentError msg), pipeline))
  /\ (exists msg,
        PutExecution record_new_image_as_first pipeline
        = (Failed (InvalidArgumentError msg), pipeline))
  /\ put_artifact_and_event record_run trainer_run 1
       (ArtifactAndEvent.mk None (Some input_of_first)) pipeline
     = (update (CreateEvent (Event.mk (Some 1) (Some 1) INPUT)) ;;; ret 1) pipeline.
Proof.
  split; [|split].
  - destruct (put_execution_invalid_arguments record_orphan_event pipeline)
      as (_ & Hpair & _).
    apply (Hpair trainer_run 1 (UpsertExecution trainer_run pipeline).2 []
             (ArtifactAndEvent.mk None (Some output_event)) [] []
             (UpsertExecution trainer_run pipeline).2).
    + reflexivity.
    + vm_compute; reflexivity.
    + reflexivity.
    + reflexivity.
    + left. split; [reflexivity|]. exists output_event. split; reflexivity.
  - destruct (put_execution_invalid_arguments record_new_image_as_first pipeline)
      as (_ & Hpair & _).
    apply (Hpair trainer_run 1 (UpsertExecution trainer_run pipeline).2 []
             new_image_as_first [] [] (UpsertExecution trainer_run pipeline).2).
    + reflexivity.
    + vm_compute; reflexivity.
    + reflexivity.
    + reflexivity.
    + right. right. exists new_image, input_of_first, 1.
      split; [reflexivity|]. split; [reflexivity|]. split; [reflexivity|discriminate].
  - destruct (put_execution_invalid_arguments record_run pipeline)
      as (_ & _ & _ & Hevent & _).
    apply (Hevent trainer_run 1 input_of_first 1); [by left|reflexivity].
Defined.

(** C3 as stated fails: a pair with a new artifact, which has no id, and
    an event that names the first artifact of the store is none of the
    cases the claim lists, and is not empty; PutExecution turns it down
    with INVALID_ARGUMENT, and no event is created. *)
Lemma new_artifact_with_event_artifact_id_is_rejected :
  ~ event_without_artifact new_image_as_first
  /\ ~ execution_mismatch trainer_run new_image_as_first
  /\ ~ ids_disagree new_image_as_first
  /\ new_image_as_first <> ArtifactAndEvent.mk None None
  /\ PutExecution record_new_image_as_first pipeline
     = (Failed (InvalidArgumentError
                  ("Given event.artifact_id is not aligned with the artifact: "
                   +:+ DebugString_ArtifactAndEvent new_image_as_first)), pipeline).
Proof.
  split; [|split; [|split; [|split]]].
  - by intros [Hnone _].
  - by intros (event & i & [= <-] & Hid & _).
  - by intros (artifact & event & i & j & [= <-] & _ & Hi & _).
  - done.
  - vm_compute. reflexivity.
Qed.


Lemma reads_of_missing_entities_witness :
  GetContextTypesByID [3; 7] pipeline
  = (Done [TypeProto.mk (Some 3) "Pipeline" None ∅ None], pipeline)
  /\ GetArtifactsByID [1; 9] pipeline
     = (Done [Artifact.mk (Some 1) (Some 1) None (Some "x")], pipeline)
  /\ GetArtifactType (mkGetTypeRequest "Nope" None) pipeline
     = (Failed (NotFoundError "No type found for query, name: Nope"), pipeline).
Proof.
  destruct (reads_of_missing_entities pipeline)
    as (_ & _ & Htypes & Hartifacts & _ & _ & _ & Htype & _).
  split; [|split].
  - rewrite (Htypes [3; 7]); [vm_compute; reflexivity|].
    constructor; [left; vm_compute; reflexivity|].
    constructor; [right; vm_compute; reflexivity|]. constructor.
  - apply (Hartifacts [1; 9] (NotFoundError "Results missing for ids.")).
    + vm_compute; reflexivity.
    + right. reflexivity.
  - apply (Htype (mkGetTypeRequest "Nope" None) _ TypeProto.empty).
    + vm_compute; reflexivity.
    + reflexivity.
Defined.

Lemma lineage_graph_bounds_witness :
  lineage_max_num_hops wide_lineage = Done 20
  /\ Z.of_nat (length (truncate_seeds wide_lineage
                         (ListArtifacts (mkListOptions 0 "") pipeline).2.1)) = 2.
Proof.
  destruct (lineage_graph_bounds wide_lineage pipeline) as (_ & _ & Hbound).
  destruct (Hbound (mkListOptions 0 "") eq_refl)
    as (max_num_hops & Hhops & _ & Hrequested & _ & Hseeds).
  - intros requested [= <-]. lia.
  - destruct (Hrequested 100 eq_refl) as [_ Hcap].
    rewrite Hhops, Hcap by lia. split; [reflexivity|].
    destruct (Hseeds OkStatus (ListArtifacts (mkListOptions 0 "") pipeline).2.1 "")
      as (_ & Hcut & _); [vm_compute; reflexivity|reflexivity|].
    apply Hcut; vm_compute; reflexivity.
Defined.

Lemma base_type_link_cases_witness :
  UpsertTypeInheritanceLink ARTIFACT_TYPE img_model 1 pipeline_linked
  = (Done tt, pipeline_linked)
  /\ length (parent_type_rows 1 pipeline_linked) = 1%nat
  /\ UpsertTypeInheritanceLink ARTIFACT_TYPE img_unset 1 pipeline
     = (Failed (UnimplementedError "base_type deletion is not supported yet"), pipeline).
Proof.
  destruct (base_type_link_cases ARTIFACT_TYPE img_model 1 pipeline) as (_ & _ & Htwice).
  destruct (Htwice pipeline pipeline_linked) as [Hsecond Hrows];
    [reflexivity|reflexivity|vm_compute; reflexivity|].
  destruct (base_type_link_cases ARTIFACT_TYPE img_unset 1 pipeline) as (_ & Hbase & _).
  destruct (Hbase eq_refl OkStatus (mkExtension "unset_artifact_type"))
    as [Hunset _]; [reflexivity|reflexivity|].
  split; [exact Hsecond|]. split; [exact Hrows|]. apply Hunset. reflexivity.
Defined.

Lemma link_reinsertion_witness :
  PutAttributionsAndAssociations
    (mkPutAARequest [Attribution.mk (Some 1) (Some 1)] []) pipeline
  = (Done tt, pipeline).
Proof.
  destruct (link_reinsertion pipeline) as (_ & _ & Hput & _).
  apply (Hput (Attribution.mk (Some 1) (Some 1))
           (AlreadyExistsError "Given attribution already exists.") 0 pipeline).
  vm_compute; reflexivity.
Defined.

Lemma put_execution_artifact_ids_witness :
  Forall2 (pair_contributes (St := Mem.Store))
    (pe_artifact_event_pairs record_run) [4; 1; -1]
  /\ exists execution s1 s2,
       pe_opt_execution record_run = Some execution
       /\ UpsertExecution execution pipeline = (Done 1, s1)
       /\ in_turn (pair_written record_run execution 1)
            (pe_artifact_event_pairs record_run) s1 [4; 1; -1] s2.
Proof.
  apply (put_execution_artifact_ids record_run pipeline
           (PutExecution record_run pipeline).2 (mkPutExecutionResponse 1 [4; 1; -1] [])).
  vm_compute; reflexivity.
Defined.

(** * Further properties *)

(** ** The consistency checker, whatever the flags *)

Section CheckerMore.
Context `{DBG : DebugStrings}.

Lemma not_subseteq_dom (m1 m2 : gmap string PropertyType) :
  ~ dom m1 ⊆ dom m2 -> exists k, is_Some (m1 !! k) /\ m2 !! k = None.
Proof.
  intros Hnot.
  destruct (decide (dom m1 ∖ dom m2 = ∅)) as [Hempty|Hne].
  - destruct Hnot. set_solver.
  - apply set_choose_L in Hne as [k Hk].
    apply elem_of_difference in Hk as [Hin Hout].
    exists k. split; [by apply elem_of_dom|by apply not_elem_of_dom].
Qed.

Lemma given_properties_kept (S T : TypeProto.t) :
  no_kind_conflict S T ->
  TypeProto.properties T ⊆ TypeProto.properties S ∪ TypeProto.properties T.
Proof.
  intros Hno. apply map_subseteq_spec. intros k v Ht.
  apply lookup_union_Some_raw.
  destruct (TypeProto.properties S !! k) as [v'|] eqn:Hs; [left|by right].
  f_equal. by eapply Hno.
Qed.

End CheckerMore.

(** X1.  Whatever the flags, an accepted check returns the stored type with
    the union of the two property maps: the output keeps every property of
    the stored type and has every property of the given type, each at its
    kind, and no other name. *)
Theorem check_output_is_union `{DBG : DebugStrings}
    (stored_type other_type output_type : TypeProto.t)
    (can_add_fields can_omit_fields : bool) :
  CheckFieldsConsistent DebugString_Type stored_type other_type
    can_add_fields can_omit_fields = Done output_type ->
  output_type
  = TypeProto.set_properties
      (TypeProto.properties stored_type ∪ TypeProto.properties other_type) stored_type
  /\ TypeProto.properties stored_type ⊆ TypeProto.properties output_type
  /\ TypeProto.properties other_type ⊆ TypeProto.properties output_type
  /\ dom (TypeProto.properties output_type)
     = dom (TypeProto.properties stored_type) ∪ dom (TypeProto.properties other_type).
Proof.
  intros Hcheck.
  apply CheckFieldsConsistent_Done in Hcheck as (_ & Hno & _ & _ & ->).
  split; [done|]. simpl. split; [apply map_union_subseteq_l|].
  split; [by apply given_properties_kept|]. apply dom_union_L.
Qed.

Lemma check_output_is_union_witness :
  TypeProto.properties img_stored
  ⊆ TypeProto.properties
      (TypeProto.set_properties
         (TypeProto.properties img_stored ∪ TypeProto.properties img_widened) img_stored)
  /\ TypeProto.properties img_widened
     ⊆ TypeProto.properties
         (TypeProto.set_properties
            (TypeProto.properties img_stored ∪ TypeProto.properties img_widened)
            img_stored).
Proof.
  destruct (check_output_is_union (DBG := Mem.debug_strings) img_stored img_widened
              (TypeProto.set_properties
                 (TypeProto.properties img_stored ∪ TypeProto.properties img_widened)
                 img_stored) true false) as (_ & Hstored & Hgiven & _).
  - vm_compute; reflexivity.
  - split; assumption.
Defined.

(** X2.  The check is rejected exactly when the names differ, a shared
    property has two kinds, a stored property is left out while
    can_omit_fields is false, or a property is new while can_add_fields is
    false; the status is then FAILED_PRECONDITION. *)
Theorem check_fails_exactly_when `{DBG : DebugStrings}
    (stored_type other_type : TypeProto.t) (can_add_fields can_omit_fields : bool) :
  ((exists e,
      CheckFieldsConsistent DebugString_Type stored_type other_type
        can_add_fields can_omit_fields = Failed e)
   <-> TypeProto.name stored_type <> TypeProto.name other_type
       \/ inconsistent stored_type other_type can_add_fields can_omit_fields)
  /\ (forall e,
        CheckFieldsConsistent DebugString_Type stored_type other_type
          can_add_fields can_omit_fields = Failed e ->
        code e = kFailedPrecondition).
Proof.
  split; [|intros e; apply CheckFieldsConsistent_Failed].
  split.
  - intros [e Hfail].
    destruct (decide (TypeProto.name stored_type = TypeProto.name other_type))
      as [Hname|Hname]; [right|by left].
    destruct (decide (no_kind_conflict stored_type other_type)) as [Hno|Hno];
      [|by left].
    destruct (decide (dom (TypeProto.properties stored_type)
                      ⊆ dom (TypeProto.properties other_type))) as [Hkeeps|Homits].
    + destruct (decide (dom (TypeProto.properties other_type)
                        ⊆ dom (TypeProto.properties stored_type))) as [Hold|Hnew].
      * assert (CheckFieldsConsistent DebugString_Type stored_type other_type
                  can_add_fields can_omit_fields
                = Done (TypeProto.set_properties
                          (TypeProto.properties stored_type
                           ∪ TypeProto.properties other_type) stored_type)) as Hdone.
        { apply CheckFieldsConsistent_Done. repeat split; auto. }
        congruence.
      * destruct can_add_fields.
        -- assert (CheckFieldsConsistent DebugString_Type stored_type other_type
                     true can_omit_fields
                   = Done (TypeProto.set_properties
                             (TypeProto.properties stored_type
                              ∪ TypeProto.properties other_type) stored_type)) as Hdone.
           { apply CheckFieldsConsistent_Done. repeat split; auto. }
           congruence.
        -- right. right. split; [|done]. by apply not_subseteq_dom.
    + destruct can_omit_fields.
      * destruct (decide (dom (TypeProto.properties other_type)
                          ⊆ dom (TypeProto.properties stored_type))) as [Hold|Hnew].
        -- assert (CheckFieldsConsistent DebugString_Type stored_type other_type
                     can_add_fields true
                   = Done (TypeProto.set_properties
                             (TypeProto.properties stored_type
                              ∪ TypeProto.properties other_type) stored_type)) as Hdone.
           { apply CheckFieldsConsistent_Done. repeat split; auto. }
           congruence.
        -- destruct can_add_fields.
           ++ assert (CheckFieldsConsistent DebugString_Type stored_type other_type
                        true true
                      = Done (TypeProto.set_properties
                                (TypeProto.properties stored_type
                                 ∪ TypeProto.properties other_type) stored_type))
                as Hdone.
              { apply CheckFieldsConsistent_Done. repeat split; auto. }
              congruence.
           ++ right. right. split; [|done]. by apply not_subseteq_dom.
      * right. left. split; [|done]. by apply not_subseteq_dom.
  - intros [Hname|Hbad]; [|by apply inconsistent_fails].
    unfold CheckFieldsConsistent. rewrite bool_decide_eq_true_2 by done. by eexists.
Qed.

(** X3.  A type is consistent with itself under any flags.  When a check
    is accepted under some flags it is accepted, with the same output,
    under both flags set.  The given type checked again against the
    output, whether or not fields may be added, is accepted with the
    output unchanged when can_omit_fields is set or the given type has
    every property of the stored type; with can_omit_fields not set and a
    stored property missing from the given type it is rejected with
    FAILED_PRECONDITION. *)
Theorem check_is_stable `{DBG : DebugStrings}
    (stored_type other_type output_type : TypeProto.t)
    (can_add_fields can_omit_fields : bool) :
  CheckFieldsConsistent DebugString_Type stored_type other_type
    can_add_fields can_omit_fields = Done output_type ->
  CheckFieldsConsistent DebugString_Type stored_type other_type true true
  = Done output_type
  /\ (forall again,
        CheckFieldsConsistent DebugString_Type output_type other_type again true
        = Done output_type)
  /\ (forall again,
        dom (TypeProto.properties stored_type) ⊆ dom (TypeProto.properties other_type) ->
        CheckFieldsConsistent DebugString_Type output_type other_type again false
        = Done output_type)
  /\ (forall again,
        ~ dom (TypeProto.properties stored_type)
          ⊆ dom (TypeProto.properties other_type) ->
        exists e,
          CheckFieldsConsistent DebugString_Type output_type other_type again false
          = Failed e
          /\ code e = kFailedPrecondition)
  /\ (forall a o,
        CheckFieldsConsistent DebugString_Type output_type output_type a o
        = Done output_type).
Proof.
  intros Hcheck.
  apply CheckFieldsConsistent_Done in Hcheck as (Hname & Hno & _ & _ & ->).
  assert (forall again o,
            o = true
            \/ dom (TypeProto.properties stored_type)
               ⊆ dom (TypeProto.properties other_type) ->
            CheckFieldsConsistent DebugString_Type
              (TypeProto.set_properties
                 (TypeProto.properties stored_type ∪ TypeProto.properties other_type)
                 stored_type) other_type again o
            = Done (TypeProto.set_properties
                      (TypeProto.properties stored_type
                       ∪ TypeProto.properties other_type) stored_type)) as Hagain.
  { intros again o Homit. apply CheckFieldsConsistent_Done. simpl.
    assert (dom (TypeProto.properties other_type)
            ⊆ dom (TypeProto.properties stored_type ∪ TypeProto.properties other_type))
      as Hsub by (rewrite dom_union_L; set_solver).
    split; [done|]. split; [|split; [|split; [by right|]]].
    - intros k v v' Hu Ht. simpl in Hu.
      pose proof (given_properties_kept _ _ Hno) as Hkept.
      rewrite map_subseteq_spec in Hkept. specialize (Hkept k v' Ht). congruence.
    - destruct Homit as [->|Hall]; [by left|]. right.
      rewrite dom_union_L. set_solver.
    - assert (TypeProto.properties stored_type ∪ TypeProto.properties other_type
              ∪ TypeProto.properties other_type
              = TypeProto.properties stored_type ∪ TypeProto.properties other_type)
        as Hsame.
      { rewrite <- (assoc_L (∪)). by rewrite (idemp_L (∪)). }
      unfold TypeProto.set_properties. simpl. by rewrite Hsame. }
  split; [|split; [|split; [|split]]].
  - apply CheckFieldsConsistent_Done. repeat split; auto.
  - intros again. apply Hagain. by left.
  - intros again Hall. apply Hagain. by right.
  - intros again Hmissing.
    destruct (CheckFieldsConsistent DebugString_Type _ other_type again false)
      as [output|e] eqn:Hrun.
    + apply CheckFieldsConsistent_Done in Hrun as (_ & _ & Homit & _).
      destruct Homit as [?|Hall]; [done|]. destruct Hmissing.
      simpl in Hall. rewrite dom_union_L in Hall. set_solver.
    + exists e. split; [done|]. by eapply CheckFieldsConsistent_Failed.
  - intros a o. apply CheckFieldsConsistent_Done. simpl.
    split; [done|]. split; [|split; [by right|split; [by right|]]].
    + intros k v v' Hv Hv'. congruence.
    + unfold TypeProto.set_properties. simpl. by rewrite (idemp_L (∪)).
Qed.

Lemma check_is_stable_witness :
  CheckFieldsConsistent (DebugString_Type (DebugStrings := Mem.debug_strings))
    img_stored img_widened true true
  = Done (TypeProto.set_properties
            (TypeProto.properties img_stored ∪ TypeProto.properties img_widened)
            img_stored)
  /\ exists e,
       CheckFieldsConsistent (DebugString_Type (DebugStrings := Mem.debug_strings))
         (TypeProto.set_properties
            (TypeProto.properties img_stored ∪ TypeProto.properties img_replaced)
            img_stored) img_replaced true false
       = Failed e
       /\ code e = kFailedPrecondition.
Proof.
  split.
  - destruct (check_is_stable (DBG := Mem.debug_strings) img_stored img_widened
                (TypeProto.set_properties
                   (TypeProto.properties img_stored ∪ TypeProto.properties img_widened)
                   img_stored) true false) as (Hboth & _).
    + vm_compute; reflexivity.
    + exact Hboth.
  - destruct (check_is_stable (DBG := Mem.debug_strings) img_stored img_replaced
                (TypeProto.set_properties
                   (TypeProto.properties img_stored ∪ TypeProto.properties img_replaced)
                   img_stored) true true) as (_ & _ & _ & Hrejected & _).
    + vm_compute; reflexivity.
    + apply (Hrejected true). intros Hall.
      assert ("u" ∈ dom (TypeProto.properties img_replaced)) as Hu
        by (apply Hall; vm_compute; set_solver).
      revert Hu. vm_compute. set_solver.
Defined.

(** ** Ids returned by the writes *)

Section WriteIds.
Context {St : Type} `{MAO : MetadataAccessObject St}
        `{STU : SimpleTypesUtil} `{DBG : DebugStrings}.

Lemma upsert_type_list_in_turn (k : TypeKind) (types : list TypeProto.t)
    (can_add_fields can_omit_fields : bool) (ids ids' : list Z) (s s' : St) :
  upsert_type_list k types can_add_fields can_omit_fields ids s = (Done ids', s')
  <-> exists new,
        ids' = (ids ++ new)%list
        /\ in_turn (type_upserted k can_add_fields can_omit_fields) types s new s'.
Proof.
  split.
  - revert ids s. induction types as [|type rest IH]; intros ids s; simpl.
    + intros [= <- <-]. exists []. split; [by rewrite app_nil_r|constructor].
    + unfold bind.
      destruct (UpsertType k type can_add_fields can_omit_fields s) as [[i|e] s1]
        eqn:Hone; [|discriminate].
      intros Hrest. apply IH in Hrest as (new & -> & Hturn).
      exists (i :: new). split; [by rewrite <- app_assoc|]. by econstructor.
  - intros (new & -> & Hturn). revert ids.
    induction Hturn as [|type rest s s1 s' i new Hone _ IH]; intros ids; simpl.
    + by rewrite app_nil_r.
    + unfold bind. rewrite Hone, IH. by rewrite <- app_assoc.
Qed.

Lemma in_turn_upsert_in_order (k : TypeKind) (types : list TypeProto.t)
    (can_add_fields can_omit_fields : bool) (ids : list Z) (s s' : St) :
  in_turn (type_upserted k can_add_fields can_omit_fields) types s ids s' ->
  upsert_in_order ((fun type => (k, type)) <$> types)
    can_add_fields can_omit_fields s = (Done tt, s').
Proof.
  induction 1 as [|type rest s s1 s' i new Hone _ IH]; [done|].
  simpl. unfold bind. by rewrite Hone.
Qed.

Lemma UpsertExecution_id execution execution_id i (s s1 : St) :
  UpsertExecution execution s = (Done execution_id, s1) ->
  Execution.opt_id execution = Some i -> execution_id = i.
Proof.
  unfold UpsertExecution, Execution.has_id, Execution.id. intros Hrun Hid.
  rewrite Hid in Hrun. simpl in Hrun. monad_unfold.
  destruct (UpdateExecution execution s) as [st s2].
  destruct (ok st); [|discriminate]. by injection Hrun as <- _.
Qed.

Lemma UpsertContext_id context context_id i (s s1 : St) :
  UpsertContext context s = (Done context_id, s1) ->
  Context.opt_id context = Some i -> context_id = i.
Proof.
  unfold UpsertContext, Context.has_id, Context.id. intros Hrun Hid.
  rewrite Hid in Hrun. simpl in Hrun. monad_unfold.
  destruct (UpdateContext context s) as [st s2].
  destruct (ok st); [|discriminate]. by injection Hrun as <- _.
Qed.

Lemma put_executions_in_turn (executions : list Execution.t) (ids ids' : list Z)
    (s s' : St) :
  put_executions executions ids s = (Done ids', s')
  <-> exists new,
        ids' = (ids ++ new)%list /\ in_turn execution_upserted executions s new s'.
Proof.
  split.
  - revert ids s. induction executions as [|x rest IH]; intros ids s; simpl.
    + intros [= <- <-]. exists []. split; [by rewrite app_nil_r|constructor].
    + unfold bind. destruct (UpsertExecution x s) as [[i|e] s1] eqn:Hone;
        [|discriminate].
      intros Hrest. apply IH in Hrest as (new & -> & Hturn).
      exists (i :: new). split; [by rewrite <- app_assoc|].
      econstructor; [|done]. split; [done|].
      intros j Hid. by eapply UpsertExecution_id.
  - intros (new & -> & Hturn). revert ids.
    induction Hturn as [|x rest s s1 s' i new [Hone _] _ IH]; intros ids; simpl.
    + by rewrite app_nil_r.
    + unfold bind. rewrite Hone, IH. by rewrite <- app_assoc.
Qed.

Lemma put_contexts_only_in_turn (contexts : list Context.t) (ids ids' : list Z)
    (s s' : St) :
  put_contexts_only contexts ids s = (Done ids', s')
  <-> exists new,
        ids' = (ids ++ new)%list /\ in_turn context_upserted contexts s new s'.
Proof.
  split.
  - revert ids s. induction contexts as [|x rest IH]; intros ids s; simpl.
    + intros [= <- <-]. exists []. split; [by rewrite app_nil_r|constructor].
    + unfold bind. destruct (UpsertContext x s) as [[i|e] s1] eqn:Hone;
        [|discriminate].
      intros Hrest. apply IH in Hrest as (new & -> & Hturn).
      exists (i :: new). split; [by rewrite <- app_assoc|].
      econstructor; [|done]. split; [done|].
      intros j Hid. by eapply UpsertContext_id.
  - intros (new & -> & Hturn). revert ids.
    induction Hturn as [|x rest s s1 s' i new [Hone _] _ IH]; intros ids; simpl.
    + by rewrite app_nil_r.
    + unfold bind. rewrite Hone, IH. by rewrite <- app_assoc.
Qed.

Lemma put_context_settled request execution_id artifact_ids context context_id
    (s s' : St) :
  put_context request execution_id artifact_ids context s = (Done context_id, s') ->
  context_settled request execution_id artifact_ids context s context_id s'
  /\ exists s0 s1, insert_attributions context_id artifact_ids s0 = (Done tt, s1).
Proof.
  intros Hrun. assert (Hput := Hrun). revert Hrun.
  unfold put_context. unfold bind at 1.
  destruct ((if pe_reuse_context_if_already_exist request && negb (Context.has_id context)
             then reuse_existing_context context else ret (-1)) s)
    as [[first|e] s1] eqn:Hfirst; [|discriminate].
  unfold bind at 1.
  destruct ((if first =? -1 then upsert_context_or_abort request context
             else ret first) s1) as [[second|e] s2] eqn:Hsecond; [|discriminate].
  unfold bind at 1.
  destruct (InsertAssociationIfNotExist second execution_id s2) as [[[]|e] s3];
    [|discriminate].
  unfold bind at 1.
  destruct (insert_attributions second artifact_ids s3) as [[[]|e] s4] eqn:Hattr;
    [|discriminate].
  intros [= <- <-]. split; [|by exists s3, s4]. split; [done|].
  assert (s1 = s) as ->.
  { destruct (_ && _); [|by injection Hfirst as _ <-].
    unfold reuse_existing_context in Hfirst.
    destruct (FindContextByTypeIdAndContextName _ _ s) as [status existing].
    destruct (negb (IsNotFound status)); [|by injection Hfirst as _ <-].
    destruct (ok status); [by injection Hfirst as _ <-|discriminate]. }
  assert (first = -1 -> exists t2, UpsertContext context s = (Done second, t2))
    as Hupsert.
  { intros ->. simpl in Hsecond. unfold upsert_context_or_abort in Hsecond.
    destruct (UpsertContext context s) as [[cid|e] t2] eqn:Hrun.
    - injection Hsecond as ? ?. subst. by exists s2.
    - destruct (_ && IsAlreadyExists e); discriminate. }
  destruct (Context.opt_id context) as [i|] eqn:Hid.
  - unfold Context.has_id in Hfirst. rewrite Hid in Hfirst. simpl in Hfirst.
    rewrite andb_false_r in Hfirst. injection Hfirst as <-.
    destruct (Hupsert eq_refl) as (t2 & Hrun).
    split; [by eapply UpsertContext_id|by exists t2].
  - unfold Context.has_id in Hfirst. rewrite Hid in Hfirst. simpl in Hfirst.
    rewrite andb_true_r in Hfirst.
    destruct (pe_reuse_context_if_already_exist request) eqn:Hreuse.
    + unfold reuse_existing_context in Hfirst.
      destruct (FindContextByTypeIdAndContextName _ _ s) as [status existing] eqn:Hfind.
      destruct (IsNotFound status) eqn:Hnf; simpl in Hfirst.
      * injection Hfirst as <-. right. split; [|by apply Hupsert].
        right. exists status, existing. split; [done|by left].
      * destruct (ok status) eqn:Hok; [|discriminate]. injection Hfirst as <-.
        destruct (Context.id existing =? -1) eqn:Htest.
        -- apply Z.eqb_eq in Htest. right. split; [|by apply Hupsert].
           right. exists status, existing. split; [done|by right].
        -- injection Hsecond as <- _. apply Z.eqb_neq in Htest.
           left. split; [done|]. by exists status, existing.
    + injection Hfirst as <-. right. split; [by left|by apply Hupsert].
Qed.

Lemma put_contexts_in_turn request execution_id artifact_ids
    (contexts : list Context.t) (ids ids' : list Z) (s s' : St) :
  put_contexts request execution_id artifact_ids contexts ids s = (Done ids', s') ->
  (exists new,
     ids' = (ids ++ new)%list
     /\ in_turn (context_settled request execution_id artifact_ids) contexts s new s')
  /\ (contexts <> [] ->
      exists context_id s0 s1,
        insert_attributions context_id artifact_ids s0 = (Done tt, s1)).
Proof.
  revert ids s. induction contexts as [|c rest IH]; intros ids s; simpl.
  - intros [= <- <-]. split; [|done].
    exists []. split; [by rewrite app_nil_r|constructor].
  - unfold bind.
    destruct (put_context request execution_id artifact_ids c s) as [[i|e] s1] eqn:Hone;
      [|discriminate].
    intros Hrest. apply put_context_settled in Hone as [Hsettled Hattr].
    apply IH in Hrest as [(new & -> & Hturn) _]. split.
    + exists (i :: new). split; [by rewrite <- app_assoc|]. by econstructor.
    + intros _. by exists i.
Qed.

Lemma insert_attributions_no_unset context_id (artifact_ids : list Z) (s s' : St) :
  rejects_unset_artifact ->
  insert_attributions context_id artifact_ids s = (Done tt, s') ->
  -1 ∉ artifact_ids.
Proof.
  intros Hreject. revert s.
  induction artifact_ids as [|a rest IH]; intros s; simpl; [by intros _ ?%elem_of_nil|].
  unfold bind.
  destruct (InsertAttributionIfNotExist context_id a s) as [[[]|e] s1] eqn:Hone;
    [|discriminate].
  intros Hrest Hin. apply elem_of_cons in Hin as [<-|Hin]; [|by eapply IH].
  specialize (Hreject context_id s).
  unfold InsertAttributionIfNotExist in Hone. unfold ok_or_already_exists in Hreject.
  destruct (CreateAttribution _ s) as [[st i] s2]. cbn [fst] in Hreject.
  apply orb_false_iff in Hreject as [Hok Hexists].
  rewrite Hok, Hexists in Hone. discriminate.
Qed.

Lemma empty_pair_contributes (pairs : list ArtifactAndEvent.t) (ids : list Z) :
  Forall2 (pair_contributes (St := St)) pairs ids ->
  ArtifactAndEvent.mk None None ∈ pairs -> -1 ∈ ids.
Proof.
  induction 1 as [|p i pairs ids Hp _ IH]; intros Hin.
  - by apply elem_of_nil in Hin.
  - apply elem_of_cons in Hin as [<-|Hin].
    + unfold pair_contributes in Hp. simpl in Hp. subst. apply list_elem_of_here.
    + apply list_elem_of_further. by apply IH.
Qed.

End WriteIds.

(** X4.  PutTypes succeeds exactly when all_fields_match is set and the
    upserts of the artifact types, then of the execution types, then of
    the context types succeed one after the other, each on the store the
    one before it left.  The response then holds one id for every type of
    the request, per kind and in request order, each the id UpsertType
    returned for that type in this run, and the store is the one the last
    upsert left. *)
Theorem put_types_returns_ids_in_order
    {St : Type} `{MAO : MetadataAccessObject St}
    `{STU : SimpleTypesUtil} `{DBG : DebugStrings}
    (request : PutTypesRequest) (response : PutTypesResponse) (s s' : St) :
  (PutTypes request s = (Done response, s')
   <-> pts_all_fields_match request = true
       /\ exists s1 s2,
            in_turn (type_upserted ARTIFACT_TYPE (pts_can_add_fields request)
                       (pts_can_omit_fields request))
              (pts_artifact_types request) s (artifact_type_ids response) s1
            /\ in_turn (type_upserted EXECUTION_TYPE (pts_can_add_fields request)
                          (pts_can_omit_fields request))
                 (pts_execution_types request) s1 (execution_type_ids response) s2
            /\ in_turn (type_upserted CONTEXT_TYPE (pts_can_add_fields request)
                          (pts_can_omit_fields request))
                 (pts_context_types request) s2 (context_type_ids response) s')
  /\ (PutTypes request s = (Done response, s') ->
      length (artifact_type_ids response) = length (pts_artifact_types request)
      /\ length (execution_type_ids response) = length (pts_execution_types request)
      /\ length (context_type_ids response) = length (pts_context_types request)
      /\ upsert_in_order (types_in_order request) (pts_can_add_fields request)
           (pts_can_omit_fields request) s = (Done tt, s')).
Proof.
  assert (PutTypes request s = (Done response, s')
          <-> pts_all_fields_match request = true
              /\ exists s1 s2,
                   in_turn (type_upserted ARTIFACT_TYPE (pts_can_add_fields request)
                              (pts_can_omit_fields request))
                     (pts_artifact_types request) s (artifact_type_ids response) s1
                   /\ in_turn (type_upserted EXECUTION_TYPE (pts_can_add_fields request)
                                 (pts_can_omit_fields request))
                        (pts_execution_types request) s1
                        (execution_type_ids response) s2
                   /\ in_turn (type_upserted CONTEXT_TYPE (pts_can_add_fields request)
                                 (pts_can_omit_fields request))
                        (pts_context_types request) s2
                        (context_type_ids response) s') as Hiff.
  { unfold PutTypes. split.
    - destruct (pts_all_fields_match request); [|discriminate]. simpl.
      unfold Execute, UpsertTypes. unfold bind at 1.
      destruct (upsert_type_list ARTIFACT_TYPE _ _ _ _ s) as [[a_ids|e] s1] eqn:Ha;
        [|discriminate].
      unfold bind at 1.
      destruct (upsert_type_list EXECUTION_TYPE _ _ _ _ s1) as [[e_ids|e] s2] eqn:He;
        [|discriminate].
      unfold bind at 1.
      destruct (upsert_type_list CONTEXT_TYPE _ _ _ _ s2) as [[c_ids|e] s3] eqn:Hc;
        [|discriminate].
      intros [= <- <-]. simpl.
      apply upsert_type_list_in_turn in Ha as (a_new & -> & Ha).
      apply upsert_type_list_in_turn in He as (e_new & -> & He).
      apply upsert_type_list_in_turn in Hc as (c_new & -> & Hc).
      split; [done|]. by exists s1, s2.
    - intros [-> (s1 & s2 & Ha & He & Hc)]. simpl.
      unfold Execute, UpsertTypes, bind. simpl.
      rewrite (proj2 (upsert_type_list_in_turn ARTIFACT_TYPE _ _ _ []
                        (artifact_type_ids response) s s1)) by by eexists.
      rewrite (proj2 (upsert_type_list_in_turn EXECUTION_TYPE _ _ _ []
                        (execution_type_ids response) s1 s2)) by by eexists.
      rewrite (proj2 (upsert_type_list_in_turn CONTEXT_TYPE _ _ _ []
                        (context_type_ids response) s2 s')) by by eexists.
      by destruct response. }
  split; [exact Hiff|].
  intros Hrun. apply Hiff in Hrun as [_ (s1 & s2 & Ha & He & Hc)].
  split; [by eapply in_turn_length|]. split; [by eapply in_turn_length|].
  split; [by eapply in_turn_length|].
  apply in_turn_upsert_in_order in Ha, He, Hc.
  unfold types_in_order. rewrite upsert_in_order_app. unfold bind at 1.
  rewrite Ha. rewrite upsert_in_order_app. unfold bind at 1.
  by rewrite He.
Qed.

Lemma put_types_returns_ids_in_order_witness :
  exists s1 s2,
    in_turn (type_upserted ARTIFACT_TYPE true false)
      [img_stored; model_named_type] Mem.empty [1; 2] s1
    /\ in_turn (type_upserted EXECUTION_TYPE true false) [] s1 [] s2
    /\ in_turn (type_upserted CONTEXT_TYPE true false)
         [TypeProto.mk None "Pipeline" None ∅ None] s2 [3]
         (PutTypes img_and_pipeline Mem.empty).2.
Proof.
  destruct (put_types_returns_ids_in_order img_and_pipeline
              (mkPutTypesResponse [1; 2] [] [3]) Mem.empty
              (PutTypes img_and_pipeline Mem.empty).2) as [[Hrun _] _].
  destruct Hrun as [_ Hturn]; [vm_compute; reflexivity|]. exact Hturn.
Defined.

(** X5.  UpsertType and its lookup by name and version.  A lookup that
    fails with a status other than NOT_FOUND is returned as it is, and the
    store is not touched.  When the type was found and the upsert succeeds,
    the id returned is the id of the stored type, whatever id the given
    type carries; when it was not found, the id is the one CreateType
    reported. *)
Theorem upsert_type_lookup_error_and_id
    {St : Type} `{MAO : MetadataAccessObject St}
    `{STU : SimpleTypesUtil} `{DBG : DebugStrings}
    (k : TypeKind) (type : TypeProto.t) (can_add_fields can_omit_fields : bool)
    (s s' : St) (status : Status) (stored_type : TypeProto.t) (result : outcome Z) :
  FindTypeByNameAndVersion k (TypeProto.name type) (Some (TypeProto.version type)) s
  = (status, stored_type) ->
  UpsertType k type can_add_fields can_omit_fields s = (result, s') ->
  (ok status = false -> IsNotFound status = false ->
   result = Failed status /\ s' = s)
  /\ (forall type_id, result = Done type_id -> IsNotFound status = false ->
      ok status = true /\ type_id = TypeProto.id stored_type)
  /\ (forall type_id, result = Done type_id -> IsNotFound status = true ->
      exists created s1, CreateType k type s = (created, type_id, s1)
                         /\ ok created = true).
Proof.
  intros Hfind. unfold UpsertType. rewrite Hfind.
  destruct (ok status) eqn:Hok, (IsNotFound status) eqn:Hnf; simpl.
  - by rewrite (ok_not_IsNotFound _ Hok) in Hnf.
  - intros Hrun. split; [done|]. split; [|done].
    intros type_id -> _. split; [done|].
    destruct (CheckFieldsConsistent _ _ _ _ _) as [output|e]; [|discriminate].
    monad_unfold. destruct (UpdateType k output s) as [st s1].
    destruct (ok st); [|discriminate].
    destruct (UpsertTypeInheritanceLink k type _ s1) as [[[]|e] s2]; congruence.
  - intros Hrun. split; [done|]. split; [done|].
    intros type_id -> _.
    monad_unfold. destruct (CreateType k type s) as [[st i] s1] eqn:Hcreate.
    destruct (ok st) eqn:Hst; [|discriminate].
    destruct (UpsertTypeInheritanceLink k type i s1) as [[[]|e] s2]; [|discriminate].
    injection Hrun as <- _. by exists st, s1.
  - intros [= <- <-]. split; [done|]. by split.
Qed.

Lemma upsert_type_lookup_error_and_id_witness :
  ok OkStatus = true /\ 1 = TypeProto.id img_stored.
Proof.
  destruct (upsert_type_lookup_error_and_id ARTIFACT_TYPE
              (TypeProto.set_id 7 img_widened) true true pipeline
              (UpsertType ARTIFACT_TYPE (TypeProto.set_id 7 img_widened) true true
                 pipeline).2
              OkStatus img_stored (Done 1)) as (_ & Hfound & _).
  - vm_compute; reflexivity.
  - vm_compute; reflexivity.
  - apply (Hfound 1); reflexivity.
Defined.

(** X7.  PutExecutions (PutContexts) succeeds exactly when the upserts of
    its executions (contexts) succeed one after the other, each on the
    store the one before it left.  The response holds one id for every
    entity of the request, in request order: the id the upsert of that
    entity returned in this run, which is the entity's own id when it
    carries one and the id it was created under otherwise.  An empty
    request succeeds with no id and leaves the store as it is. *)
Theorem put_executions_and_contexts_ids
    {St : Type} `{MAO : MetadataAccessObject St} (s : St) :
  (forall executions execution_ids s',
     PutExecutions executions s = (Done execution_ids, s')
     <-> in_turn execution_upserted executions s execution_ids s')
  /\ (forall contexts context_ids s',
        PutContexts contexts s = (Done context_ids, s')
        <-> in_turn context_upserted contexts s context_ids s')
  /\ PutExecutions [] s = (Done [], s)
  /\ PutContexts [] s = (Done [], s).
Proof.
  split; [|split; [|by split]].
  - intros executions ids s'. unfold PutExecutions, Execute. split.
    + destruct (put_executions executions [] s) as [[ids'|e] s1] eqn:Hrun;
        [|discriminate].
      intros [= <- <-]. by apply put_executions_in_turn in Hrun as (new & -> & Hturn).
    + intros Hturn.
      by rewrite (proj2 (put_executions_in_turn executions [] ids s s'))
        by by eexists.
  - intros contexts ids s'. unfold PutContexts, Execute. split.
    + destruct (put_contexts_only contexts [] s) as [[ids'|e] s1] eqn:Hrun;
        [|discriminate].
      intros [= <- <-].
      by apply put_contexts_only_in_turn in Hrun as (new & -> & Hturn).
    + intros Hturn.
      by rewrite (proj2 (put_contexts_only_in_turn contexts [] ids s s'))
        by by eexists.
Qed.

Lemma put_executions_and_contexts_ids_witness :
  in_turn execution_upserted [trainer_run; trainer_run] pipeline [1; 2]
    (PutExecutions [trainer_run; trainer_run] pipeline).2
  /\ in_turn context_upserted
       [Context.mk (Some 1) (Some 3) (Some "run-43"); run_in_2042] pipeline [1; 2]
       (PutContexts [Context.mk (Some 1) (Some 3) (Some "run-43"); run_in_2042]
          pipeline).2.
Proof.
  destruct (put_executions_and_contexts_ids pipeline) as (Hexecutions & Hcontexts & _).
  split.
  - apply Hexecutions. vm_compute; reflexivity.
  - apply Hcontexts. vm_compute; reflexivity.
Defined.

(** X8.  When PutExecution succeeds, response.execution_id is the id the
    upsert of the execution returned on the store of the call, its own id
    when it carries one; the pairs are written next; and the contexts are
    then settled one after the other, each on the store the one before it
    left.  response.context_ids has one entry for every context of the
    request, in request order: the context's own id, or the id of the
    context found under its type and name on the store the context met
    when contexts are reused, or the id UpsertContext returned on that
    store when nothing was found to reuse. *)
Theorem put_execution_ids
    {St : Type} `{MAO : MetadataAccessObject St}
    `{STU : SimpleTypesUtil} `{DBG : DebugStrings}
    (request : PutExecutionRequest) (s s' : St) (response : PutExecutionResponse) :
  PutExecution request s = (Done response, s') ->
  exists execution s1 s2,
    pe_opt_execution request = Some execution
    /\ execution_upserted execution s (execution_id response) s1
    /\ put_artifact_event_pairs request execution (execution_id response)
         (pe_artifact_event_pairs request) [] s1 = (Done (artifact_ids response), s2)
    /\ in_turn (context_settled request (execution_id response) (artifact_ids response))
         (pe_contexts request) s2 (context_ids response) s'
    /\ length (context_ids response) = length (pe_contexts request).
Proof.
  unfold PutExecution, Execute.
  destruct (pe_opt_execution request) as [execution|]; [|discriminate].
  unfold bind at 1.
  destruct (UpsertExecution execution s) as [[execution_id|e] s1] eqn:Hexecution;
    [|discriminate].
  unfold bind at 1.
  destruct (put_artifact_event_pairs _ _ _ _ _ s1) as [[ids|e] s2] eqn:Hpairs;
    [|discriminate].
  unfold bind at 1.
  destruct (put_contexts _ _ _ _ _ s2) as [[cids|e] s3] eqn:Hcontexts; [|discriminate].
  simpl. intros [= <- <-]. simpl.
  apply put_contexts_in_turn in Hcontexts as [(new & -> & Hturn) _].
  exists execution, s1, s2. split; [done|]. split.
  { split; [done|]. intros i Hid. by eapply UpsertExecution_id. }
  split; [done|]. split; [done|]. by eapply in_turn_length.
Qed.

Lemma put_execution_ids_witness :
  exists execution s1 s2,
    pe_opt_execution record_in_run_42 = Some execution
    /\ execution_upserted execution pipeline 1 s1
    /\ put_artifact_event_pairs record_in_run_42 execution 1 [] [] s1 = (Done [], s2)
    /\ in_turn (context_settled record_in_run_42 1 []) [run_42] s2 [1]
         (PutExecution record_in_run_42 pipeline).2
    /\ length [1] = length [run_42].
Proof.
  apply (put_execution_ids record_in_run_42 pipeline
           (PutExecution record_in_run_42 pipeline).2 (mkPutExecutionResponse 1 [] [1])).
  vm_compute; reflexivity.
Defined.

(** X9.  A pair with neither an artifact nor an event puts -1 among the
    artifact ids, and every context of the request is then attributed to
    each artifact id, -1 included.  So, over an access object that turns
    down an attribution to the artifact id -1, a PutExecution whose request
    has such a pair and at least one context fails, and the store is as
    before the call. *)
Theorem put_execution_empty_pair_with_context
    {St : Type} `{MAO : MetadataAccessObject St}
    `{STU : SimpleTypesUtil} `{DBG : DebugStrings}
    (request : PutExecutionRequest) (s : St) :
  rejects_unset_artifact ->
  ArtifactAndEvent.mk None None ∈ pe_artifact_event_pairs request ->
  pe_contexts request <> [] ->
  exists e, PutExecution request s = (Failed e, s).
Proof.
  intros Hreject Hpair Hcontexts. unfold PutExecution, Execute.
  destruct (pe_opt_execution request) as [execution|]; [|by eexists].
  unfold bind at 1.
  destruct (UpsertExecution execution s) as [[execution_id|e] s1]; [|by eexists].
  unfold bind at 1.
  destruct (put_artifact_event_pairs _ _ _ _ _ s1) as [[ids|e] s2] eqn:Hpairs;
    [|by eexists].
  unfold bind at 1.
  destruct (put_contexts _ _ _ _ _ s2) as [[cids|e] s3] eqn:Hput; [|by eexists].
  exfalso.
  apply put_artifact_event_pairs_contribute in Hpairs as (new & -> & Hall).
  apply put_contexts_in_turn in Hput as [_ Hattr].
  destruct (Hattr Hcontexts) as (context_id & s0 & s4 & Hrun).
  eapply insert_attributions_no_unset; [done|exact Hrun|].
  simpl. by eapply empty_pair_contributes.
Qed.

Lemma put_execution_empty_pair_with_context_witness :
  exists e,
    PutExecution (MAO := ids_from_one) record_empty_pair_in_run_42 pipeline
    = (Failed e, pipeline).
Proof.
  apply (put_execution_empty_pair_with_context (MAO := ids_from_one)
           record_empty_pair_in_run_42 pipeline).
  - intros context_id s. reflexivity.
  - apply list_elem_of_here.
  - discriminate.
Defined.

(** ** The remaining read endpoints *)

Section ReadMore.
Context {St : Type} `{MAO : MetadataAccessObject St}
        `{REST : MetadataAccessObjectRest St}
        `{STU : SimpleTypesUtil} `{DBG : DebugStrings} `{SETUP : StoreSetup}.

Lemma not_found_code (status : Status) :
  IsNotFound status = false -> code status <> kNotFound.
Proof. unfold IsNotFound. by intros ?%bool_decide_eq_false. Qed.



Lemma page_by_type_listed {A} (request : GetByTypeRequest)
    (status : Status) (items : list A) (next_page_token : string) (s : St) :
  listed_by_type request (page_by_type request status items next_page_token s).1.
Proof.
  unfold page_by_type, listed_by_type.
  destruct (IsNotFound status) eqn:Hnf; simpl.
  - split; [done|]. by intros page [= <-].
  - destruct (ok status) eqn:Hok; simpl.
    + split; [done|]. intros page [= <-]. simpl.
      split; [by intros ->|]. by intros _ [options ->].
    + split; [by apply not_found_code|done].
Qed.

Lemma one_by_name_code {A} (status : Status) (item : A) (s : St) :
  outcome_code (one_by_name status item s).1 <> kNotFound.
Proof.
  unfold one_by_name. destruct (IsNotFound status) eqn:Hnf; [done|].
  destruct (ok status); [done|]. by apply not_found_code.
Qed.

Lemma Execute_fst {A} (txn : M A) (s : St) : (Execute txn s).1 = (txn s).1.
Proof. unfold Execute. by destruct (txn s) as [[a|e] s1]. Qed.

End ReadMore.


Section ByType.
Context {St : Type} `{MAO : MetadataAccessObject St}
        `{REST : MetadataAccessObjectRest St}.

Lemma listed_by_type_unknown_type {A} (request : GetByTypeRequest) (status : Status)
    (s : St) (found : outcome (Page A) * St) :
  listed_by_type request found.1 ->
  listed_by_type request
    (if IsNotFound status then (Done (mkPage [] None), s)
     else if negb (ok status) then (Failed status, s) else found).1.
Proof.
  intros Hfound. destruct (IsNotFound status) eqn:Hnf.
  - split; [done|]. by intros page [= <-].
  - destruct (ok status); [done|]. split; [by apply not_found_code|done].
Qed.

Lemma one_by_name_unknown_type {A} (status : Status) (s : St)
    (found : outcome (option A) * St) :
  outcome_code found.1 <> kNotFound ->
  outcome_code
    (if IsNotFound status then (Done None, s)
     else if negb (ok status) then (Failed status, s) else found).1 <> kNotFound.
Proof.
  intros Hfound. destruct (IsNotFound status) eqn:Hnf; [done|].
  destruct (ok status); [done|]. by apply not_found_code.
Qed.

End ByType.

(** X11.  The six reads by type name never return NOT_FOUND: when the
    lookup of the type reports NOT_FOUND, and when the type is found and
    the lookup of its entities reports NOT_FOUND, the answer is OK with
    nothing in it, and the store is not touched.
    Get{Artifacts,Executions,Contexts}ByType set no next_page_token when
    the request has no options and, when entities are returned, set one
    whenever it has options.  A type_version that is the empty string is
    the same request as one without type_version. *)
Theorem reads_by_type_pass_not_found_over
    {St : Type} `{MAO : MetadataAccessObject St}
    `{REST : MetadataAccessObjectRest St}
    (request : GetByTypeRequest) (named : GetByTypeAndNameRequest) (s : St) :
  (listed_by_type request (GetArtifactsByType request s).1
   /\ listed_by_type request (GetExecutionsByType request s).1
   /\ listed_by_type request (GetContextsByType request s).1)
  /\ (outcome_code (GetArtifactByTypeAndName named s).1 <> kNotFound
      /\ outcome_code (GetExecutionByTypeAndName named s).1 <> kNotFound
      /\ outcome_code (GetContextByTypeAndName named s).1 <> kNotFound)
  /\ (forall type_name opt_options,
        GetArtifactsByType (mkGetByTypeRequest type_name (Some "") opt_options) s
        = GetArtifactsByType (mkGetByTypeRequest type_name None opt_options) s
        /\ GetExecutionsByType (mkGetByTypeRequest type_name (Some "") opt_options) s
           = GetExecutionsByType (mkGetByTypeRequest type_name None opt_options) s
        /\ GetContextsByType (mkGetByTypeRequest type_name (Some "") opt_options) s
           = GetContextsByType (mkGetByTypeRequest type_name None opt_options) s)
  /\ (forall type_name entity_name,
        GetArtifactByTypeAndName
          (mkGetByTypeAndNameRequest type_name (Some "") entity_name) s
        = GetArtifactByTypeAndName
            (mkGetByTypeAndNameRequest type_name None entity_name) s
        /\ GetExecutionByTypeAndName
             (mkGetByTypeAndNameRequest type_name (Some "") entity_name) s
           = GetExecutionByTypeAndName
               (mkGetByTypeAndNameRequest type_name None entity_name) s
        /\ GetContextByTypeAndName
             (mkGetByTypeAndNameRequest type_name (Some "") entity_name) s
           = GetContextByTypeAndName
               (mkGetByTypeAndNameRequest type_name None entity_name) s)
  /\ (forall status type_id,
        FindTypeIdByNameAndVersion (bt_type_name request) (by_type_version request)
          ARTIFACT_TYPE s = (status, type_id) ->
        (IsNotFound status = true ->
         GetArtifactsByType request s = (Done (mkPage [] None), s))
        /\ (ok status = true ->
            forall status' found,
              FindArtifactsByTypeId type_id (bt_opt_options request) s = (status', found) ->
              IsNotFound status' = true ->
              GetArtifactsByType request s = (Done (mkPage [] None), s)))
  /\ (forall status type_id,
        FindTypeIdByNameAndVersion (btn_type_name named)
          (by_type_and_name_version named) ARTIFACT_TYPE s = (status, type_id) ->
        (IsNotFound status = true ->
         GetArtifactByTypeAndName named s = (Done None, s))
        /\ (ok status = true ->
            forall status' found,
              FindArtifactByTypeIdAndArtifactName type_id (btn_name named) s = (status', found) ->
              IsNotFound status' = true ->
              GetArtifactByTypeAndName named s = (Done None, s)))
  /\ (forall status type_id,
        FindTypeIdByNameAndVersion (bt_type_name request) (by_type_version request)
          EXECUTION_TYPE s = (status, type_id) ->
        (IsNotFound status = true ->
         GetExecutionsByType request s = (Done (mkPage [] None), s))
        /\ (ok status = true ->
            forall status' found,
              FindExecutionsByTypeId type_id (bt_opt_options request) s = (status', found) ->
              IsNotFound status' = true ->
              GetExecutionsByType request s = (Done (mkPage [] None), s)))
  /\ (forall status type_id,
        FindTypeIdByNameAndVersion (btn_type_name named)
          (by_type_and_name_version named) EXECUTION_TYPE s = (status, type_id) ->
        (IsNotFound status = true ->
         GetExecutionByTypeAndName named s = (Done None, s))
        /\ (ok status = true ->
            forall status' found,
              FindExecutionByTypeIdAndExecutionName type_id (btn_name named) s = (status', found) ->
              IsNotFound status' = true ->
              GetExecutionByTypeAndName named s = (Done None, s)))
  /\ (forall status type_id,
        FindTypeIdByNameAndVersion (bt_type_name request) (by_type_version request)
          CONTEXT_TYPE s = (status, type_id) ->
        (IsNotFound status = true ->
         GetContextsByType request s = (Done (mkPage [] None), s))
        /\ (ok status = true ->
            forall status' found,
              FindContextsByTypeId type_id (bt_opt_options request) s = (status', found) ->
              IsNotFound status' = true ->
              GetContextsByType request s = (Done (mkPage [] None), s)))
  /\ (forall status type_id,
        FindTypeIdByNameAndVersion (btn_type_name named)
          (by_type_and_name_version named) CONTEXT_TYPE s = (status, type_id) ->
        (IsNotFound status = true ->
         GetContextByTypeAndName named s = (Done None, s))
        /\ (ok status = true ->
            forall status' found,
              FindContextByTypeIdAndContextName type_id (btn_name named) s = (status', found) ->
              IsNotFound status' = true ->
              GetContextByTypeAndName named s = (Done None, s))).
Proof.
  split; [|split; [|split; [|split; [|split; [|split; [|split; [|split; [|split]]]]]]]].
  - split; [|split].
    + unfold GetArtifactsByType. rewrite Execute_fst.
      destruct (FindTypeIdByNameAndVersion _ _ _ s) as [status type_id].
      apply listed_by_type_unknown_type.
      destruct (FindArtifactsByTypeId _ _ s) as [status' [found token]].
      apply page_by_type_listed.
    + unfold GetExecutionsByType. rewrite Execute_fst.
      destruct (FindTypeIdByNameAndVersion _ _ _ s) as [status type_id].
      apply listed_by_type_unknown_type.
      destruct (FindExecutionsByTypeId _ _ s) as [status' [found token]].
      apply page_by_type_listed.
    + unfold GetContextsByType. rewrite Execute_fst.
      destruct (FindTypeIdByNameAndVersion _ _ _ s) as [status type_id].
      apply listed_by_type_unknown_type.
      destruct (FindContextsByTypeId _ _ s) as [status' [found token]].
      apply page_by_type_listed.
  - split; [|split].
    + unfold GetArtifactByTypeAndName. rewrite Execute_fst.
      destruct (FindTypeIdByNameAndVersion _ _ _ s) as [status type_id].
      apply one_by_name_unknown_type.
      destruct (FindArtifactByTypeIdAndArtifactName _ _ s) as [status' found].
      apply one_by_name_code.
    + unfold GetExecutionByTypeAndName. rewrite Execute_fst.
      destruct (FindTypeIdByNameAndVersion _ _ _ s) as [status type_id].
      apply one_by_name_unknown_type.
      destruct (FindExecutionByTypeIdAndExecutionName _ _ s) as [status' found].
      apply one_by_name_code.
    + unfold GetContextByTypeAndName. rewrite Execute_fst.
      destruct (FindTypeIdByNameAndVersion _ _ _ s) as [status type_id].
      apply one_by_name_unknown_type.
      destruct (FindContextByTypeIdAndContextName _ _ s) as [status' found].
      apply one_by_name_code.
  - done.
  - done.
  - intros status type_id Hfind. unfold GetArtifactsByType, Execute. rewrite Hfind.
    split.
    + by intros ->.
    + intros Hok status' [found token] Hlist Hnf.
      rewrite (ok_not_IsNotFound _ Hok), Hok. simpl. rewrite Hlist.
      unfold page_by_type, ret. by rewrite Hnf.
  - intros status type_id Hfind. unfold GetArtifactByTypeAndName, Execute. rewrite Hfind.
    split.
    + by intros ->.
    + intros Hok status' found Hone Hnf.
      rewrite (ok_not_IsNotFound _ Hok), Hok. simpl. rewrite Hone.
      unfold one_by_name, ret. by rewrite Hnf.
  - intros status type_id Hfind. unfold GetExecutionsByType, Execute. rewrite Hfind.
    split.
    + by intros ->.
    + intros Hok status' [found token] Hlist Hnf.
      rewrite (ok_not_IsNotFound _ Hok), Hok. simpl. rewrite Hlist.
      unfold page_by_type, ret. by rewrite Hnf.
  - intros status type_id Hfind. unfold GetExecutionByTypeAndName, Execute. rewrite Hfind.
    split.
    + by intros ->.
    + intros Hok status' found Hone Hnf.
      rewrite (ok_not_IsNotFound _ Hok), Hok. simpl. rewrite Hone.
      unfold one_by_name, ret. by rewrite Hnf.
  - intros status type_id Hfind. unfold GetContextsByType, Execute. rewrite Hfind.
    split.
    + by intros ->.
    + intros Hok status' [found token] Hlist Hnf.
      rewrite (ok_not_IsNotFound _ Hok), Hok. simpl. rewrite Hlist.
      unfold page_by_type, ret. by rewrite Hnf.
  - intros status type_id Hfind. unfold GetContextByTypeAndName, Execute. rewrite Hfind.
    split.
    + by intros ->.
    + intros Hok status' found Hone Hnf.
      rewrite (ok_not_IsNotFound _ Hok), Hok. simpl. rewrite Hone.
      unfold one_by_name, ret. by rewrite Hnf.
Qed.

Lemma reads_by_type_pass_not_found_over_witness :
  GetArtifactsByType (mkGetByTypeRequest "Nowhere" None None) pipeline
  = (Done (mkPage [] None), pipeline)
  /\ GetExecutionsByType (mkGetByTypeRequest "Trainer" (Some "") None) pipeline
     = (Done (mkPage [] None), pipeline).
Proof.
  destruct (reads_by_type_pass_not_found_over
              (mkGetByTypeRequest "Nowhere" None None)
              (mkGetByTypeAndNameRequest "Nowhere" None "x") pipeline)
    as (_ & _ & _ & _ & Hunknown & _).
  destruct (reads_by_type_pass_not_found_over
              (mkGetByTypeRequest "Trainer" (Some "") None)
              (mkGetByTypeAndNameRequest "Trainer" None "x") pipeline)
    as (_ & _ & _ & _ & _ & _ & Hempty & _).
  split.
  - destruct (Hunknown (NotFoundError "No type found for query, name: Nowhere") 0)
      as [Hnone _]; [reflexivity|]. by apply Hnone.
  - destruct (Hempty OkStatus 2) as [_ Hfound]; [reflexivity|].
    apply (Hfound eq_refl (NotFoundError "No row matches the query.") ([], ""));
      reflexivity.
Defined.

(** X12.  What the reads along events and links make of NOT_FOUND.
    GetEventsByExecutionIDs and GetEventsByArtifactIDs answer OK with no
    event; GetParentContextsByContext and GetChildrenContextsByContext
    answer OK with the contexts the access object reported; none of the
    four ever returns NOT_FOUND.  GetContextsByArtifact,
    GetContextsByExecution, GetArtifactsByContext and
    GetExecutionsByContext return every status that is not OK as it is,
    NOT_FOUND included. *)
Theorem reads_along_links_when_nothing_is_found
    {St : Type} `{MAO : MetadataAccessObject St}
    `{REST : MetadataAccessObjectRest St} (s : St) :
  (forall ids context_id,
     outcome_code (GetEventsByExecutionIDs ids s).1 <> kNotFound
     /\ outcome_code (GetEventsByArtifactIDs ids s).1 <> kNotFound
     /\ outcome_code (GetParentContextsByContext context_id s).1 <> kNotFound
     /\ outcome_code (GetChildrenContextsByContext context_id s).1 <> kNotFound)
  /\ (forall ids status events,
        IsNotFound status = true ->
        (FindEventsByExecutions ids s = (status, events) ->
         GetEventsByExecutionIDs ids s = (Done [], s))
        /\ (FindEventsByArtifacts ids s = (status, events) ->
            GetEventsByArtifactIDs ids s = (Done [], s)))
  /\ (forall context_id status contexts,
        IsNotFound status = true ->
        (FindParentContextsByContextId context_id s = (status, contexts) ->
         GetParentContextsByContext context_id s = (Done contexts, s))
        /\ (FindChildContextsByContextId context_id s = (status, contexts) ->
            GetChildrenContextsByContext context_id s = (Done contexts, s)))
  /\ (forall i status contexts,
        ok status = false ->
        (FindContextsByArtifact i s = (status, contexts) ->
         GetContextsByArtifact i s = (Failed status, s))
        /\ (FindContextsByExecution i s = (status, contexts) ->
            GetContextsByExecution i s = (Failed status, s)))
  /\ (forall request status,
        ok status = false ->
        (forall found,
           FindArtifactsByContext (bc_context_id request) (bc_opt_options request) s
           = (status, found) ->
           GetArtifactsByContext request s = (Failed status, s))
        /\ (forall found,
              FindExecutionsByContext (bc_context_id request) (bc_opt_options request) s
              = (status, found) ->
              GetExecutionsByContext request s = (Failed status, s))).
Proof.
  split; [|split; [|split; [|split]]].
  - intros ids context_id. split; [|split; [|split]].
    + unfold GetEventsByExecutionIDs. rewrite Execute_fst.
      destruct (FindEventsByExecutions ids s) as [status events].
      destruct (IsNotFound status) eqn:Hnf; [done|].
      destruct (ok status); [done|]. by apply not_found_code.
    + unfold GetEventsByArtifactIDs. rewrite Execute_fst.
      destruct (FindEventsByArtifacts ids s) as [status events].
      destruct (IsNotFound status) eqn:Hnf; [done|].
      destruct (ok status); [done|]. by apply not_found_code.
    + unfold GetParentContextsByContext. rewrite Execute_fst.
      destruct (FindParentContextsByContextId context_id s) as [status contexts].
      destruct (IsNotFound status) eqn:Hnf; [by rewrite andb_false_r|].
      destruct (ok status); [done|]. by apply not_found_code.
    + unfold GetChildrenContextsByContext. rewrite Execute_fst.
      destruct (FindChildContextsByContextId context_id s) as [status contexts].
      destruct (IsNotFound status) eqn:Hnf; [by rewrite andb_false_r|].
      destruct (ok status); [done|]. by apply not_found_code.
  - intros ids status events Hnf. split; intros Hfind.
    + unfold GetEventsByExecutionIDs, Execute. by rewrite Hfind, Hnf.
    + unfold GetEventsByArtifactIDs, Execute. by rewrite Hfind, Hnf.
  - intros context_id status contexts Hnf. split; intros Hfind.
    + unfold GetParentContextsByContext, Execute.
      by rewrite Hfind, Hnf, andb_false_r.
    + unfold GetChildrenContextsByContext, Execute.
      by rewrite Hfind, Hnf, andb_false_r.
  - intros i status contexts Hok. split; intros Hfind.
    + unfold GetContextsByArtifact, Execute, query. by rewrite Hfind, Hok.
    + unfold GetContextsByExecution, Execute, query. by rewrite Hfind, Hok.
  - intros request status Hok. split; intros found Hfind.
    + unfold GetArtifactsByContext, Execute, bind, query. by rewrite Hfind, Hok.
    + unfold GetExecutionsByContext, Execute, bind, query. by rewrite Hfind, Hok.
Qed.

Lemma reads_along_links_when_nothing_is_found_witness :
  GetEventsByExecutionIDs [7] pipeline = (Done [], pipeline)
  /\ outcome_code (GetContextsByArtifact 7 pipeline).1 = kNotFound.
Proof.
  destruct (reads_along_links_when_nothing_is_found pipeline)
    as (_ & Hevents & _ & Hcontexts & _).
  split.
  - apply (Hevents [7] (NotFoundError "No row matches the query.") []); reflexivity.
  - destruct (Hcontexts 7 (NotFoundError "No row matches the query.") [] eq_refl)
      as [Hartifact _].
    by rewrite Hartifact.
Defined.

Section Uris.
Context {St : Type} `{MAO : MetadataAccessObject St}
        `{REST : MetadataAccessObjectRest St}.

Lemma find_artifacts_by_uris_spec (uri_set : list string) (found : list Artifact.t)
    (s : St) :
  match find_artifacts_by_uris uri_set found s with
  | (Done artifacts, s') =>
      s' = s /\ artifacts = (found ++ artifacts_of_uris uri_set s)%list
  | (Failed e, s') =>
      s' = s /\ exists uri, uri ∈ uri_set /\ uri_lookup_fails uri e s
  end.
Proof.
  revert found. induction uri_set as [|uri rest IH]; intros found; simpl.
  - split; [done|]. unfold artifacts_of_uris. simpl. by rewrite app_nil_r.
  - unfold artifacts_of_uris. rewrite fmap_cons. simpl.
    destruct (FindArtifactsByURI uri s) as [status artifacts] eqn:Hfind.
    destruct (negb (ok status) && negb (IsNotFound status)) eqn:Hstop.
    + split; [done|]. exists uri. split; [apply list_elem_of_here|].
      unfold uri_lookup_fails. rewrite Hfind. simpl.
      apply andb_true_iff in Hstop as [Hok Hnf].
      by rewrite !negb_true_iff in Hok, Hnf.
    + specialize (IH (found ++ artifacts)%list).
      destruct (find_artifacts_by_uris rest _ s) as [[result|e] s1].
      * destruct IH as [-> ->]. split; [done|]. by rewrite <- app_assoc.
      * destruct IH as [-> (uri' & Hin & Hfails)]. split; [done|].
        exists uri'. split; [by apply list_elem_of_further|done].
Qed.

End Uris.

(** X13.  GetArtifactsByURI.  A request whose unknown fields include
    field number 1, the deprecated uri, is turned down with
    INVALID_ARGUMENT before the store is read.  Otherwise every distinct
    uri of the request is looked up once, however often the request
    repeats it, and the response is the artifacts of these lookups one
    after the other; a lookup that reports NOT_FOUND does not fail the
    call, and a failure of the call is the failure of the lookup of one of
    the uris.  The call never returns NOT_FOUND. *)
Theorem get_artifacts_by_uri_looks_each_uri_up_once
    {St : Type} `{MAO : MetadataAccessObject St}
    `{REST : MetadataAccessObjectRest St} `{SETUP : StoreSetup}
    (request : GetArtifactsByURIRequest) (s : St) :
  (1 ∈ unknown_field_numbers request ->
   exists e, GetArtifactsByURI request s = (Failed e, s)
             /\ code e = kInvalidArgument)
  /\ (1 ∉ unknown_field_numbers request ->
      exists uri_set,
        NoDup uri_set
        /\ (forall uri, uri ∈ uri_set <-> uri ∈ uris request)
        /\ match GetArtifactsByURI request s with
           | (Done artifacts, s') =>
               s' = s /\ artifacts = artifacts_of_uris uri_set s
           | (Failed e, s') =>
               s' = s /\ exists uri, uri ∈ uris request /\ uri_lookup_fails uri e s
           end)
  /\ outcome_code (GetArtifactsByURI request s).1 <> kNotFound.
Proof.
  assert (forall uri, uri ∈ elements (list_to_set (uris request) : gset string)
                      <-> uri ∈ uris request) as Hset.
  { intros uri. by rewrite elem_of_elements, elem_of_list_to_set. }
  unfold GetArtifactsByURI.
  pose proof (find_artifacts_by_uris_spec
                (elements (list_to_set (uris request) : gset string)) [] s) as Hspec.
  destruct (decide (1 ∈ unknown_field_numbers request)) as [Hin|Hnotin].
  - rewrite bool_decide_eq_true_2 by done.
    split; [by eexists|]. split; [done|]. simpl. discriminate.
  - rewrite bool_decide_eq_false_2 by done. unfold Execute.
    destruct (find_artifacts_by_uris _ _ s) as [[artifacts|e] s1].
    + destruct Hspec as [-> ->]. split; [done|]. split; [|done].
      intros _. exists (elements (list_to_set (uris request) : gset string)).
      split; [apply NoDup_elements|]. by split.
    + destruct Hspec as [-> (uri & Huri & Hfails)]. split; [done|]. split.
      * intros _. exists (elements (list_to_set (uris request) : gset string)).
        split; [apply NoDup_elements|]. split; [done|]. split; [done|].
        exists uri. split; [by apply Hset|done].
      * simpl. destruct Hfails as (_ & _ & Hnf). by apply not_found_code.
Qed.

Lemma get_artifacts_by_uri_looks_each_uri_up_once_witness :
  exists uri_set,
    NoDup uri_set
    /\ (forall uri, uri ∈ uri_set <-> uri ∈ ["x"; "nowhere"; "x"])
    /\ GetArtifactsByURI x_twice pipeline
       = (Done [Artifact.mk (Some 1) (Some 1) None (Some "x")], pipeline)
    /\ [Artifact.mk (Some 1) (Some 1) None (Some "x")]
       = artifacts_of_uris uri_set pipeline.
Proof.
  destruct (get_artifacts_by_uri_looks_each_uri_up_once x_twice pipeline)
    as (_ & Hlooked & _).
  destruct Hlooked as (uri_set & Hnodup & Hsame & Hrun).
  - by intros ?%elem_of_nil.
  - exists uri_set. split; [done|]. split; [done|].
    assert (GetArtifactsByURI x_twice pipeline
            = (Done [Artifact.mk (Some 1) (Some 1) None (Some "x")], pipeline))
      as Hcall by (vm_compute; reflexivity).
    rewrite Hcall in Hrun. destruct Hrun as [_ Hartifacts]. by split.
Defined.

(** ** Base types of the types read *)

Section BaseTypes.
Context {St : Type} `{MAO : MetadataAccessObject St}
        `{STU : SimpleTypesUtil} `{DBG : DebugStrings}.

Lemma with_base_type_same (k : TypeKind) (parents : gmap Z TypeProto.t)
    (type type' : TypeProto.t) :
  with_base_type k parents type type' -> same_but_base_type type type'.
Proof.
  unfold with_base_type, same_but_base_type.
  destruct (parents !! TypeProto.id type) as [parent|]; [|by intros ->].
  by intros (status & b & _ & _ & ->).
Qed.

Lemma set_base_types_spec (k : TypeKind) (parents : gmap Z TypeProto.t)
    (types types' : list TypeProto.t) (s s' : St) :
  set_base_types k parents types s = (Done types', s') ->
  s' = s /\ Forall2 (with_base_type k parents) types types'.
Proof.
  revert types' s'. induction types as [|type rest IH]; intros types' s'; simpl.
  - intros [= <- <-]. split; [done|constructor].
  - destruct (parents !! TypeProto.id type) as [parent|] eqn:Hparent.
    + monad_unfold.
      destruct (GetSystemTypeEnum k _) as [st b] eqn:Henum.
      destruct (ok st) eqn:Hok; [|discriminate].
      destruct (set_base_types k parents rest s) as [[rest'|e] s1] eqn:Hrest;
        [|discriminate].
      intros [= <- <-]. destruct (IH rest' s1 eq_refl) as [-> Hall].
      split; [done|]. constructor; [|done].
      unfold with_base_type. rewrite Hparent. by exists st, b.
    + monad_unfold.
      destruct (set_base_types k parents rest s) as [[rest'|e] s1] eqn:Hrest;
        [|discriminate].
      intros [= <- <-]. destruct (IH rest' s1 eq_refl) as [-> Hall].
      split; [done|]. constructor; [|done].
      unfold with_base_type. by rewrite Hparent.
Qed.

Lemma SetBaseType_spec (k : TypeKind) (types types' : list TypeProto.t) (s s' : St) :
  SetBaseType k types s = (Done types', s') ->
  s' = s
  /\ Forall2 same_but_base_type types types'
  /\ (types <> [] ->
      exists status parents,
        FindParentTypesByTypeId k (map TypeProto.id types) s = (status, parents)
        /\ ok status = true
        /\ Forall2 (with_base_type k parents) types types').
Proof.
  unfold SetBaseType. destruct types as [|type rest].
  - intros [= <- <-]. split; [done|]. split; [constructor|done].
  - unfold bind, query.
    destruct (FindParentTypesByTypeId k _ s) as [st parents] eqn:Hfind.
    destruct (ok st) eqn:Hok; [|discriminate].
    intros Hset. apply set_base_types_spec in Hset as [-> Hall].
    split; [done|]. split.
    + eapply Forall2_impl; [exact Hall|]. intros ? ?. apply with_base_type_same.
    + intros _. by exists st, parents.
Qed.

End BaseTypes.

(** X14.  SetBaseType changes nothing of a type but base_type, keeps the
    order, and reads the parent types once: a type without a parent type
    is returned as it is, a type with one has base_type set to the enum
    value of the parent's name.  So Get{Artifact,Execution}Type return the
    type found, and Get{Artifact,Execution}Types return, in the order of
    FindTypes and the base type apart, exactly the stored types whose name
    is not the name of a simple type. *)
Theorem set_base_type_only_sets_base_type
    {St : Type} `{MAO : MetadataAccessObject St}
    `{STU : SimpleTypesUtil} `{DBG : DebugStrings} (s : St) :
  (forall k types types' s',
     SetBaseType k types s = (Done types', s') ->
     s' = s
     /\ Forall2 same_but_base_type types types'
     /\ (types <> [] ->
         exists status parents,
           FindParentTypesByTypeId k (map TypeProto.id types) s = (status, parents)
           /\ ok status = true
           /\ Forall2 (with_base_type k parents) types types'))
  /\ (forall request type s',
        GetArtifactType request s = (Done type, s') ->
        exists status found,
          FindTypeByNameAndVersion ARTIFACT_TYPE (gt_type_name request)
            (GetRequestTypeVersion request) s = (status, found)
          /\ ok status = true /\ same_but_base_type found type)
  /\ (forall request type s',
        GetExecutionType request s = (Done type, s') ->
        exists status found,
          FindTypeByNameAndVersion EXECUTION_TYPE (gt_type_name request)
            (GetRequestTypeVersion request) s = (status, found)
          /\ ok status = true /\ same_but_base_type found type)
  /\ (forall types s' status stored,
        GetArtifactTypes s = (Done types, s') ->
        FindTypes ARTIFACT_TYPE s = (status, stored) -> IsNotFound status = false ->
        Forall2 same_but_base_type (filter not_simple_type stored) types)
  /\ (forall types s' status stored,
        GetExecutionTypes s = (Done types, s') ->
        FindTypes EXECUTION_TYPE s = (status, stored) -> IsNotFound status = false ->
        Forall2 same_but_base_type (filter not_simple_type stored) types).
Proof.
  split; [|split; [|split; [|split]]].
  - intros k types types' s'. apply SetBaseType_spec.
  - intros request type s'. unfold GetArtifactType, Execute. unfold bind at 1, query.
    destruct (FindTypeByNameAndVersion _ _ _ s) as [status found].
    destruct (ok status) eqn:Hok; [|discriminate]. unfold bind.
    destruct (SetBaseType _ _ s) as [[types'|e] s1] eqn:Hset; [|discriminate].
    intros [= <- _]. exists status, found. split; [done|]. split; [done|].
    apply SetBaseType_spec in Hset as (_ & Hall & _).
    inversion Hall as [|? type' ? rest' Hsame Hrest]; subst.
    by inversion Hrest; subst.
  - intros request type s'. unfold GetExecutionType, Execute. unfold bind at 1, query.
    destruct (FindTypeByNameAndVersion _ _ _ s) as [status found].
    destruct (ok status) eqn:Hok; [|discriminate]. unfold bind.
    destruct (SetBaseType _ _ s) as [[types'|e] s1] eqn:Hset; [|discriminate].
    intros [= <- _]. exists status, found. split; [done|]. split; [done|].
    apply SetBaseType_spec in Hset as (_ & Hall & _).
    inversion Hall as [|? type' ? rest' Hsame Hrest]; subst.
    by inversion Hrest; subst.
  - intros types s' status stored. unfold GetArtifactTypes, Execute.
    intros Hrun Hfind Hnf. rewrite Hfind, Hnf in Hrun.
    destruct (negb (ok status)); [discriminate|].
    destruct (SetBaseType _ _ s) as [[types'|e] s1] eqn:Hset; [|discriminate].
    injection Hrun as <- _. by apply SetBaseType_spec in Hset as (_ & Hall & _).
  - intros types s' status stored. unfold GetExecutionTypes, Execute.
    intros Hrun Hfind Hnf. rewrite Hfind, Hnf in Hrun.
    destruct (negb (ok status)); [discriminate|].
    destruct (SetBaseType _ _ s) as [[types'|e] s1] eqn:Hset; [|discriminate].
    injection Hrun as <- _. by apply SetBaseType_spec in Hset as (_ & Hall & _).
Qed.

Lemma set_base_type_only_sets_base_type_witness :
  Forall2 same_but_base_type [img_stored] [TypeProto.set_base_type 2 img_stored].
Proof.
  destruct (set_base_type_only_sets_base_type pipeline_linked)
    as (_ & _ & _ & Hlisted & _).
  apply (Hlisted [TypeProto.set_base_type 2 img_stored] pipeline_linked OkStatus
           [TypeProto.mk (Some 4) "mlmd.Model" None ∅ None; img_stored]).
  - vm_compute; reflexivity.
  - vm_compute; reflexivity.
  - reflexivity.
Defined.

(** ** Types by id, store set-up and batches *)

Section TypesById.
Context {St : Type} `{MAO : MetadataAccessObject St}
        `{STU : SimpleTypesUtil} `{DBG : DebugStrings}.

Lemma find_types_by_id_stops (k : TypeKind) (pre post : list Z) (i : Z)
    (found : list TypeProto.t) (s : St) (status : Status) (type : TypeProto.t) :
  found_or_missing k pre s ->
  FindTypeById k i s = (status, type) ->
  ok status = false -> IsNotFound status = false ->
  find_types_by_id k (pre ++ i :: post) found s = (Failed status, s).
Proof.
  intros Hpre Hfind Hok Hnf. revert found.
  induction pre as [|j pre IH]; intros found; simpl.
  - by rewrite Hfind, Hok, Hnf.
  - inversion Hpre as [|? ? Hhead Htail]; subst.
    destruct (FindTypeById k j s) as [st t]. simpl in Hhead.
    destruct (ok st) eqn:Hst; [by apply IH|].
    destruct Hhead as [?|Hmissing]; [done|]. rewrite Hmissing. simpl. by apply IH.
Qed.

Lemma find_types_by_id_code (k : TypeKind) (type_ids : list Z)
    (found : list TypeProto.t) (s : St) :
  outcome_code (find_types_by_id k type_ids found s).1 <> kNotFound
  /\ (find_types_by_id k type_ids found s).2 = s.
Proof.
  revert found. induction type_ids as [|i rest IH]; intros found; simpl; [done|].
  destruct (FindTypeById k i s) as [status type].
  destruct (ok status); [apply IH|].
  destruct (IsNotFound status) eqn:Hnf; simpl; [apply IH|].
  split; [by apply not_found_code|done].
Qed.

End TypesById.

(** X15.  Get{Artifact,Execution,Context}TypesByID stop at the first id
    whose lookup reports a status other than OK and NOT_FOUND, and return
    that status, whatever follows in the request, with the store as
    before.  GetContextTypesByID, which sets no base type, never returns
    NOT_FOUND, whatever the ids and the store. *)
Theorem types_by_id_stop_at_first_failure
    {St : Type} `{MAO : MetadataAccessObject St}
    `{STU : SimpleTypesUtil} `{DBG : DebugStrings} (s : St) :
  (forall (k : TypeKind) (pre post : list Z) (i : Z) (status : Status)
          (type : TypeProto.t),
     found_or_missing k pre s ->
     FindTypeById k i s = (status, type) ->
     ok status = false -> IsNotFound status = false ->
     match k with
     | ARTIFACT_TYPE => GetArtifactTypesByID (pre ++ i :: post) s
     | EXECUTION_TYPE => GetExecutionTypesByID (pre ++ i :: post) s
     | CONTEXT_TYPE => GetContextTypesByID (pre ++ i :: post) s
     end = (Failed status, s))
  /\ (forall type_ids, outcome_code (GetContextTypesByID type_ids s).1 <> kNotFound).
Proof.
  split.
  - intros k pre post i status type Hpre Hfind Hok Hnf.
    destruct k; unfold GetArtifactTypesByID, GetExecutionTypesByID,
      GetContextTypesByID, Execute, bind;
      by rewrite (find_types_by_id_stops _ pre post i [] s status type).
  - intros type_ids. unfold GetContextTypesByID. rewrite Execute_fst.
    apply find_types_by_id_code.
Qed.

Lemma types_by_id_stop_at_first_failure_witness :
  GetArtifactTypesByID (MAO := ids_from_one) ([1; 9] ++ 0 :: [4]) pipeline
  = (Failed (InvalidArgumentError "A type id is at least 1."), pipeline)
  /\ outcome_code (GetContextTypesByID [3; 9] pipeline).1 <> kNotFound.
Proof.
  split.
  - destruct (types_by_id_stop_at_first_failure (MAO := ids_from_one) pipeline)
      as [Hstop _].
    apply (Hstop ARTIFACT_TYPE [1; 9] [4] 0
             (InvalidArgumentError "A type id is at least 1.") TypeProto.empty).
    + constructor; [left; reflexivity|].
      constructor; [right; reflexivity|]. constructor.
    + reflexivity.
    + reflexivity.
    + reflexivity.
  - destruct (types_by_id_stop_at_first_failure pipeline) as [_ Hnever].
    apply Hnever.
Defined.

(** X16.  MetadataStore::Create with downgrade_to_schema_version at 0 or
    above never hands back a store.  When the downgrade succeeds the
    status is CANCELLED and the source is left downgraded; when it fails
    its status is returned and the source is as before.  Below 0 no
    downgrade is run, and a failure to build the access object is returned
    before anything else is tried. *)
Theorem create_with_downgrade_hands_back_no_store
    {St : Type} `{REST : MetadataAccessObjectRest St} `{SETUP : StoreSetup}
    (query_config : MetadataSourceQueryConfig) (downgrade_to_schema_version : Z)
    (s s1 : St) (status : Status) :
  DowngradeMetadataSource downgrade_to_schema_version s = (status, s1) ->
  (ok (CreateMetadataAccessObject query_config) = false ->
   Create query_config downgrade_to_schema_version s
   = (Failed (CreateMetadataAccessObject query_config), s))
  /\ (ok (CreateMetadataAccessObject query_config) = true ->
      (0 <= downgrade_to_schema_version ->
       outcome_code (Create query_config downgrade_to_schema_version s).1 <> kOk
       /\ (ok status = true ->
           outcome_code (Create query_config downgrade_to_schema_version s).1
           = kCancelled
           /\ (Create query_config downgrade_to_schema_version s).2 = s1)
       /\ (ok status = false ->
           Create query_config downgrade_to_schema_version s = (Failed status, s)))
      /\ (downgrade_to_schema_version < 0 ->
          Create query_config downgrade_to_schema_version s = (Done tt, s))).
Proof.
  intros Hdown. unfold Create, bind, check, Execute, update_.
  split; [by intros ->|]. intros ->. split.
  - intros Hv. rewrite (proj2 (Z.leb_le _ _) Hv), Hdown.
    destruct (ok status) eqn:Hok; simpl.
    + by repeat split.
    + split; [|by split].
      unfold ok in Hok. by apply bool_decide_eq_false in Hok.
  - intros Hv. by rewrite (proj2 (Z.leb_gt _ _) Hv).
Qed.

Lemma create_with_downgrade_hands_back_no_store_witness :
  outcome_code (Create (St := Mem.Store) (SETUP := MemQueries.setup) tt 3 pipeline).1 = kCancelled
  /\ Create (St := Mem.Store) (SETUP := MemQueries.setup) tt 8 pipeline
     = (Failed (InvalidArgumentError
                  "MLMD cannot be downgraded to that schema_version."), pipeline).
Proof.
  split.
  - destruct (create_with_downgrade_hands_back_no_store (St := Mem.Store)
                (SETUP := MemQueries.setup) tt 3 pipeline pipeline OkStatus)
      as [_ Hbuilt]; [reflexivity|].
    destruct Hbuilt as [Hdown _]; [reflexivity|].
    destruct Hdown as (_ & Hcancelled & _); [lia|].
    destruct Hcancelled as [Hcode _]; [reflexivity|]. exact Hcode.
  - destruct (create_with_downgrade_hands_back_no_store (St := Mem.Store)
                (SETUP := MemQueries.setup) tt 8 pipeline pipeline
                (InvalidArgumentError
                   "MLMD cannot be downgraded to that schema_version."))
      as [_ Hbuilt]; [reflexivity|].
    destruct Hbuilt as [Hdown _]; [reflexivity|].
    destruct Hdown as (_ & _ & Hfailed); [lia|].
    apply Hfailed. reflexivity.
Defined.

Section Batches.
Context {St : Type} `{MAO : MetadataAccessObject St}.

Lemma Execute_nested {A B} (first : M A) (second : A -> M B) (s : St) :
  Execute (bind (Execute first) (fun a => Execute (second a))) s
  = Execute (bind first second) s.
Proof.
  unfold Execute, bind. destruct (first s) as [[a|e] s1]; [|done].
  by destruct (second a s1) as [[b|e] s2].
Qed.

Lemma put_events_app (l1 l2 : list Event.t) (s : St) :
  put_events (l1 ++ l2) s = (put_events l1 ;;; put_events l2) s.
Proof.
  revert s. induction l1 as [|x l1 IH]; intros s; [done|]. simpl. unfold bind, update.
  destruct (CreateEvent x s) as [[st i] s1]. destruct (ok st); [|done].
  rewrite IH. done.
Qed.

Lemma put_parent_contexts_app (l1 l2 : list ParentContext.t) (s : St) :
  put_parent_contexts (l1 ++ l2) s
  = (put_parent_contexts l1 ;;; put_parent_contexts l2) s.
Proof.
  revert s. induction l1 as [|x l1 IH]; intros s; [done|]. simpl. unfold bind, update_.
  destruct (CreateParentContext x s) as [st s1]. destruct (ok st); [|done].
  rewrite IH. done.
Qed.

Lemma put_attributions_app (l1 l2 : list Attribution.t) (s : St) :
  put_attributions (l1 ++ l2) s = (put_attributions l1 ;;; put_attributions l2) s.
Proof.
  revert s. induction l1 as [|x l1 IH]; intros s; [done|]. simpl. unfold bind.
  destruct (InsertAttributionIfNotExist _ _ s) as [[[]|e] s1]; [|done].
  rewrite IH. done.
Qed.

Lemma put_associations_app (l1 l2 : list Association.t) (s : St) :
  put_associations (l1 ++ l2) s = (put_associations l1 ;;; put_associations l2) s.
Proof.
  revert s. induction l1 as [|x l1 IH]; intros s; [done|]. simpl. unfold bind.
  destruct (InsertAssociationIfNotExist _ _ s) as [[[]|e] s1]; [|done].
  rewrite IH. done.
Qed.

End Batches.

(** X17.  A batch is one transaction: PutEvents, PutParentContexts and
    PutAttributionsAndAssociations of a request made of two parts do what
    the calls on the parts do one after the other, except that a failure
    in the later part also undoes the earlier one.
    PutAttributionsAndAssociations inserts every attribution before the
    first association.  An empty batch succeeds and leaves the store as it
    is. *)
Theorem batches_are_one_transaction
    {St : Type} `{MAO : MetadataAccessObject St} (s : St) :
  (forall l1 l2,
     PutEvents (l1 ++ l2) s = Execute (PutEvents l1 ;;; PutEvents l2) s)
  /\ (forall l1 l2,
        PutParentContexts (l1 ++ l2) s
        = Execute (PutParentContexts l1 ;;; PutParentContexts l2) s)
  /\ (forall a1 a2 b1 b2,
        PutAttributionsAndAssociations (mkPutAARequest (a1 ++ a2) (b1 ++ b2)) s
        = Execute
            (PutAttributionsAndAssociations (mkPutAARequest a1 []) ;;;
             PutAttributionsAndAssociations (mkPutAARequest a2 []) ;;;
             PutAttributionsAndAssociations (mkPutAARequest [] b1) ;;;
             PutAttributionsAndAssociations (mkPutAARequest [] b2)) s)
  /\ PutEvents [] s = (Done tt, s)
  /\ PutParentContexts [] s = (Done tt, s)
  /\ PutAttributionsAndAssociations (mkPutAARequest [] []) s = (Done tt, s).
Proof.
  split; [|split; [|split; [|by repeat split]]].
  - intros l1 l2. unfold PutEvents. rewrite Execute_nested.
    unfold Execute. by rewrite put_events_app.
  - intros l1 l2. unfold PutParentContexts. rewrite Execute_nested.
    unfold Execute. by rewrite put_parent_contexts_app.
  - intros a1 a2 b1 b2. unfold PutAttributionsAndAssociations. simpl.
    unfold Execute, bind, ret.
    rewrite put_attributions_app. unfold bind.
    destruct (put_attributions a1 s) as [[[]|e] s1]; [|done].
    destruct (put_attributions a2 s1) as [[[]|e] s2]; [|done].
    rewrite put_associations_app. unfold bind.
    destruct (put_associations b1 s2) as [[[]|e] s3]; [|done].
    by destruct (put_associations b2 s3) as [[[]|e] s4].
Qed.

Section Setup.
Context {St : Type} `{MAO : MetadataAccessObject St}
        `{REST : MetadataAccessObjectRest St}
        `{STU : SimpleTypesUtil} `{DBG : DebugStrings} `{SETUP : StoreSetup}.

Lemma seeded_after_two_transactions (init : St -> Status * St) (s : St) :
  seeded_after init (Execute (update_ init) ;;; Execute UpsertSimpleTypes) s.
Proof.
  intros status s1 Hinit.
  assert ((Execute (update_ init) ;;; Execute UpsertSimpleTypes) s
          = if ok status then Execute UpsertSimpleTypes s1 else (Failed status, s))
    as Hcall.
  { unfold bind. unfold Execute at 1. unfold update_. rewrite Hinit.
    by destruct (ok status). }
  rewrite Hcall. clear Hcall. split; [by intros ->|]. intros ->.
  unfold Execute, UpsertSimpleTypes, bind, check.
  destruct LoadSimpleTypes as [st simple_types]. cbn [fst snd].
  split; [by intros ->|]. intros ->.
  pose proof (UpsertTypes_in_order (st_artifact_types simple_types)
                (st_execution_types simple_types) (st_context_types simple_types)
                true true (mkPutTypesResponse [] [] []) s1) as Hseed.
  unfold catalog_in_order.
  destruct (upsert_in_order _ true true s1) as [[[]|e] s2].
  - by destruct Hseed as [ids ->].
  - by rewrite Hseed.
Qed.

End Setup.

(** X6.  InitMetadataStore and InitMetadataStoreIfNotExists run two
    transactions: the initialisation of the source, then the seeding of
    the simple types, which upserts the types of the catalog one after the
    other with can_add_fields and can_omit_fields set.  When the
    initialisation fails the store is as before; when the catalog cannot
    be loaded or a type of it is rejected, the call fails and the store is
    left initialised, with none of the catalog in it. *)
Theorem init_seeds_in_a_second_transaction
    {St : Type} `{MAO : MetadataAccessObject St}
    `{REST : MetadataAccessObjectRest St}
    `{STU : SimpleTypesUtil} `{DBG : DebugStrings} `{SETUP : StoreSetup}
    (enable_upgrade_migration : bool) (s : St) :
  seeded_after InitMetadataSource InitMetadataStore s
  /\ seeded_after (InitMetadataSourceIfNotExists enable_upgrade_migration)
       (InitMetadataStoreIfNotExists enable_upgrade_migration) s.
Proof. split; apply seeded_after_two_transactions. Qed.

Lemma init_seeds_in_a_second_transaction_witness :
  InitMetadataStore (SETUP := MemQueries.unreadable_catalog) pipeline
  = (Failed (InternalError "Failed to parse simple types."), Mem.empty)
  /\ (InitMetadataStoreIfNotExists (SETUP := MemQueries.setup) true Mem.empty).1
     = Done tt.
Proof.
  split.
  - destruct (init_seeds_in_a_second_transaction
                (SETUP := MemQueries.unreadable_catalog) true pipeline) as [Hinit _].
    destruct (Hinit OkStatus Mem.empty) as [_ Hseed]; [reflexivity|].
    destruct Hseed as [Hload _]; [reflexivity|]. apply Hload. reflexivity.
  - destruct (init_seeds_in_a_second_transaction
                (SETUP := MemQueries.setup) true Mem.empty) as [_ Hinit].
    destruct (Hinit OkStatus Mem.empty) as [_ Hseed]; [reflexivity|].
    destruct Hseed as [_ Hcatalog]; [reflexivity|].
    specialize (Hcatalog eq_refl).
    destruct (upsert_in_order _ true true Mem.empty) as [[[]|e] s2] eqn:Hrun.
    + by rewrite Hcatalog.
    + exfalso. vm_compute in Hrun. discriminate.
Defined.
